(** * iterext: lazy sequence wrappers [Iter] (sync.ts) and [AsyncIter] (async.ts)

    The two classes wrap a pull source ([next()] returns the next element or
    reports exhaustion) and build every combinator as a generator object that
    captures the receiver.  A generator is a resumable computation, so it is
    embedded as an explicit state machine: one [step] is one turn of the
    generator's loop.  A step either hands a result to the caller ([Emit]),
    goes round the loop without handing anything out ([Skip]: an element that
    was filtered out or skipped, or, in the asynchronous class, a suspension at
    an [await]), or fails ([Throw]).  A call of [next()] is a run of steps up to
    the first one that is not a [Skip]. *)

From Stdlib Require Import List ZArith Lia Bool.
From Stdlib Require String.
Import ListNotations.
Import String.StringSyntax.
Delimit Scope string_scope with string.

Set Implicit Arguments.

(** ** Values of the host language *)

(** A thrown value. *)
Definition exn : Type := String.string.

(** The completion of a call of a caller-supplied function: it returns or throws. *)
Inductive Exc (A : Type) : Type :=
| Ok (a : A)
| Raise (e : exn).
Arguments Raise {A} e.

(** A callback that never throws. *)
Definition total {A B : Type} (f : A -> B) : A -> Exc B := fun x => Ok (f x).
Definition total2 {A B C : Type} (f : A -> B -> C) : A -> B -> Exc C :=
  fun x y => Ok (f x y).

(** [IteratorResult<T>] is [IteratorYieldResult<T> | IteratorReturnResult]:
    [{ done?: false; value: T }] or [{ done: true; value: any }].  The [done]
    property of a yield result is optional; [has_done] tells whether the
    object carries it. *)
Inductive IteratorResult (T : Type) : Type :=
| IteratorYieldResult (has_done : bool) (value : T)
| IteratorReturnResult.
Arguments IteratorReturnResult {T}.

(** [result.done], [None] when the property is absent. *)
Definition done_field {T : Type} (r : IteratorResult T) : option bool :=
  match r with
  | IteratorYieldResult true _ => Some false
  | IteratorYieldResult false _ => None
  | IteratorReturnResult => Some true
  end.

(** [x ?? d] *)
Definition nullish_or (x : option bool) (d : bool) : bool :=
  match x with
  | Some b => b
  | None => d
  end.

(** What a generator hands out at a [yield]: [{ value, done: false }]. *)
Definition yielded {T : Type} (value : T) : IteratorResult T :=
  IteratorYieldResult true value.

(** ** Pull machines *)

Inductive Step (T S : Type) : Type :=
| Emit (r : IteratorResult T) (s : S)
| Skip (s : S)
| Throw (e : exn) (s : S).
Arguments Emit {T S} r s.
Arguments Skip {T S} s.
Arguments Throw {T S} e s.

(** An object with a [next()] method together with its current state. *)
Record Machine (T : Type) : Type := MkMachine {
  St : Type;
  step : St -> Step T St;
  start : St
}.
Arguments MkMachine {T St} step start.

(** A generator object: suspended with its frame of local variables, or
    completed (it returned, broke out of its loop, or threw).  The frame is
    kept after completion so that the state in which the captured iterators
    were left can be read off. *)
Inductive Generator (F : Type) : Type :=
| Suspended (frame : F)
| Completed (frame : F).

Definition frame_of {F : Type} (g : Generator F) : F :=
  match g with
  | Suspended f => f
  | Completed f => f
  end.

(** The outcome of a draining operation: it returned [x], it threw [e], or the
    run was cut short by lack of fuel.  [s] is the state the drained object
    was left in. *)
Inductive Completion (X S : Type) : Type :=
| Returned (x : X) (s : S)
| Thrown (e : exn) (s : S)
| OutOfFuel.
Arguments Returned {X S} x s.
Arguments Thrown {X S} e s.
Arguments OutOfFuel {X S}.

(** One call of [next()]: run the machine up to its first step that is not a
    [Skip]. *)
Fixpoint next {T : Type} (m : Machine T) (fuel : nat) (s : St m)
  : option (Exc (IteratorResult T) * St m) :=
  match fuel with
  | O => None
  | S fuel' =>
      match step m s with
      | Skip s' => next m fuel' s'
      | Emit r s' => Some (Ok r, s')
      | Throw e s' => Some (Raise e, s')
      end
  end.

(** The same call as a relation. *)
Inductive pull {T : Type} (m : Machine T)
  : St m -> Exc (IteratorResult T) -> St m -> Prop :=
| pull_skip s s1 o s2 :
    step m s = Skip s1 -> pull m s1 o s2 -> pull m s o s2
| pull_emit s r s1 :
    step m s = Emit r s1 -> pull m s (Ok r) s1
| pull_throw s e s1 :
    step m s = Throw e s1 -> pull m s (Raise e) s1.

(** A run of calls of [next()], with their outcomes in order. *)
Inductive pulls {T : Type} (m : Machine T)
  : St m -> list (Exc (IteratorResult T)) -> St m -> Prop :=
| pulls_nil s : pulls m s [] s
| pulls_cons s o s1 os s2 :
    pull m s o s1 -> pulls m s1 os s2 -> pulls m s (o :: os) s2.

(** [emits m s l s']: run from [s], the machine hands out the elements of [l],
    in order and each with [done: false], and reaches [s']. *)
Inductive emits {T : Type} (m : Machine T) : St m -> list T -> St m -> Prop :=
| emits_nil s : emits m s [] s
| emits_skip s s1 l s2 :
    step m s = Skip s1 -> emits m s1 l s2 -> emits m s l s2
| emits_yield s v s1 l s2 :
    step m s = Emit (yielded v) s1 -> emits m s1 l s2 -> emits m s (v :: l) s2.

(** [drains m s l s']: the sequence that starts in [s] is finite, its elements
    are [l], and the call that reports exhaustion leaves the machine in [s']. *)
Definition drains {T : Type} (m : Machine T) (s : St m) (l : list T) (s' : St m) : Prop :=
  exists s1, emits m s l s1 /\ step m s1 = Emit IteratorReturnResult s'.

(** [endless m s f]: the sequence that starts in [s] never ends, and its
    [n]-th element is [f n]. *)
Definition endless {T : Type} (m : Machine T) (s : St m) (f : nat -> T) : Prop :=
  forall k, exists s', emits m s (map f (seq 0 k)) s'.

(** Once a call has reported exhaustion, the state it leaves reports
    exhaustion again and stays where it is. *)
Definition sticky {T : Type} (m : Machine T) : Prop :=
  forall s s', step m s = Emit IteratorReturnResult s' ->
               step m s' = Emit IteratorReturnResult s'.

(** A machine is well behaved under repeated pulling when, after a call of
    [next()] has reported exhaustion, the next call reports it again, and so
    does every call in any run of calls that follows. *)
Definition well_behaved {T : Type} (m : Machine T) : Prop :=
  forall s s', pull m s (Ok IteratorReturnResult) s' ->
    pull m s' (Ok IteratorReturnResult) s'
    /\ forall os s2, pulls m s' os s2 ->
         Forall (fun o => o = Ok IteratorReturnResult) os.

(** The state a step leaves the machine in. *)
Definition state_after {T S : Type} (x : Step T S) : S :=
  match x with
  | Emit _ s => s
  | Skip s => s
  | Throw _ s => s
  end.

(** ** Raw sources *)

(** An object that implements [Iterator<T>]: every call of [next()] returns a
    result or throws, and moves the object to a new state.  Nothing forces it
    to keep reporting exhaustion once it has. *)
Record Iterator (T : Type) : Type := MkIterator {
  ISt : Type;
  inext : ISt -> Exc (IteratorResult T) * ISt;
  istate : ISt
}.
Arguments MkIterator {T ISt} inext istate.

(** The same source with a counter of the calls of [next()] it has received. *)
Definition spy {T : Type} (it : Iterator T) : Iterator T :=
  MkIterator
    (fun sc : ISt it * nat =>
       let (r, s') := inext it (fst sc) in (r, (s', S (snd sc))))
    (istate it, O).

(** The array iterator of [items]: the elements left to visit. *)
Definition values {T : Type} (items : list T) : Iterator T :=
  MkIterator
    (fun rest : list T =>
       match rest with
       | [] => (Ok IteratorReturnResult, [])
       | x :: rest' => (Ok (yielded x), rest')
       end)
    items.

(** [sequentialIntegers(start, end)] of the test suites:
    [for (let i = start; i <= end; i++) yield i], with [None] for an [end] of
    [Infinity].  The state is [i], or [None] once the generator has returned. *)
Definition sequentialIntegers (start : Z) (end_ : option Z) : Iterator Z :=
  MkIterator
    (fun st : option Z =>
       match st with
       | None => (Ok IteratorReturnResult, None)
       | Some i =>
           match end_ with
           | None => (Ok (yielded i), Some (i + 1)%Z)
           | Some e =>
               if (i <=? e)%Z then (Ok (yielded i), Some (i + 1)%Z)
               else (Ok IteratorReturnResult, None)
           end
       end)
    (Some start).

(** A source that leaves [done] out of the results that carry an element, as
    the type [IteratorYieldResult] allows. *)
Definition bare {T : Type} (items : list T) : Iterator T :=
  MkIterator
    (fun rest : list T =>
       match rest with
       | [] => (Ok IteratorReturnResult, [])
       | x :: rest' => (Ok (IteratorYieldResult false x), rest')
       end)
    items.

(** A source that breaks the protocol: it reports exhaustion on every other
    call and hands out [x] in between. *)
Definition flicker {T : Type} (x : T) : Iterator T :=
  MkIterator
    (fun exhausted_last : bool =>
       if exhausted_last then (Ok (yielded x), false)
       else (Ok IteratorReturnResult, true))
    false.

(** ** sync.ts: class [Iter] *)

Module Sync.

(** An [Iter<T>], and anything else that is [Iterable<T>]: obtaining the
    iterator of an iterable is taking the machine in its current state. *)
Definition Iter (T : Type) : Type := Machine T.

(** [new Iter(inner)]: [next()] is [this.#inner.next()], unchecked. *)
Definition new {T : Type} (inner : Iterator T) : Iter T :=
  MkMachine
    (fun s : ISt inner =>
       match inext inner s with
       | (Ok r, s') => Emit r s'
       | (Raise e, s') => Throw e s'
       end)
    (istate inner).

(** [Iter.repeatWith(func)]: [let index = 0; while (true) yield func(index++)]. *)
Section RepeatWith.
Context {T : Type} (func : Z -> Exc T).

Definition repeatWith_step (g : Generator Z) : Step T (Generator Z) :=
  match g with
  | Completed index => Emit IteratorReturnResult (Completed index)
  | Suspended index =>
      match func index with
      | Ok v => Emit (yielded v) (Suspended (index + 1)%Z)
      | Raise e => Throw e (Completed (index + 1)%Z)
      end
  end.

Definition repeatWith : Iter T := MkMachine repeatWith_step (Suspended 0%Z).
End RepeatWith.

(** The combinators below all have the shape
    [for (const item of iter) { ... }] inside a generator that captured [iter].
    [for...of] calls [iter.next()], leaves the loop when [done] is truthy (an
    absent [done] is not) and binds [item] to [value] otherwise.  [Iter] has no
    [return] method, so leaving the loop early does nothing to [iter]. *)

Section Filter.
Context {T : Type} (predicate : T -> Exc bool) (iter : Iter T).

Definition filter_step (g : Generator (St iter)) : Step T (Generator (St iter)) :=
  match g with
  | Completed s => Emit IteratorReturnResult (Completed s)
  | Suspended s =>
      match step iter s with
      | Skip s' => Skip (Suspended s')
      | Throw e s' => Throw e (Completed s')
      | Emit IteratorReturnResult s' => Emit IteratorReturnResult (Completed s')
      | Emit (IteratorYieldResult _ item) s' =>
          match predicate item with
          | Raise e => Throw e (Completed s')
          | Ok true => Emit (yielded item) (Suspended s')
          | Ok false => Skip (Suspended s')
          end
      end
  end.

Definition filter : Iter T := MkMachine filter_step (Suspended (start iter)).
End Filter.

Section FilterMap.
Context {T Output : Type} (func : T -> Exc (option Output)) (iter : Iter T).

(** [undefined] is [None]: [if (mapped !== undefined) yield mapped]. *)
Definition filterMap_step (g : Generator (St iter))
  : Step Output (Generator (St iter)) :=
  match g with
  | Completed s => Emit IteratorReturnResult (Completed s)
  | Suspended s =>
      match step iter s with
      | Skip s' => Skip (Suspended s')
      | Throw e s' => Throw e (Completed s')
      | Emit IteratorReturnResult s' => Emit IteratorReturnResult (Completed s')
      | Emit (IteratorYieldResult _ item) s' =>
          match func item with
          | Raise e => Throw e (Completed s')
          | Ok (Some mapped) => Emit (yielded mapped) (Suspended s')
          | Ok None => Skip (Suspended s')
          end
      end
  end.

Definition filterMap : Iter Output :=
  MkMachine filterMap_step (Suspended (start iter)).
End FilterMap.

Section Map.
Context {T Output : Type} (func : T -> Exc Output) (iter : Iter T).

Definition map_step (g : Generator (St iter)) : Step Output (Generator (St iter)) :=
  match g with
  | Completed s => Emit IteratorReturnResult (Completed s)
  | Suspended s =>
      match step iter s with
      | Skip s' => Skip (Suspended s')
      | Throw e s' => Throw e (Completed s')
      | Emit IteratorReturnResult s' => Emit IteratorReturnResult (Completed s')
      | Emit (IteratorYieldResult _ item) s' =>
          match func item with
          | Raise e => Throw e (Completed s')
          | Ok v => Emit (yielded v) (Suspended s')
          end
      end
  end.

Definition map : Iter Output := MkMachine map_step (Suspended (start iter)).
End Map.

(** [chain(...next)]: [yield* iter; for (const nextIterator of next) yield* nextIterator].
    [yield*] obtains the iterator of its operand when it is reached, calls its
    [next()] once per call on the generator, hands the result object it gets
    through as it is while [done] is not truthy, and goes on to the following
    statement when it is.  The frame says which operand is being delegated to,
    and the state of that operand's iterator. *)
Section Chain.
Context {T : Type}.

Fixpoint ChainFrame (operands : list (Iter T)) : Type :=
  match operands with
  | [] => unit
  | m :: rest => (St m + ChainFrame rest)%type
  end.

Definition chain_enter (operands : list (Iter T)) : ChainFrame operands :=
  match operands with
  | [] => tt
  | m :: _ => inl (start m)
  end.

(** One turn over the operands still to be delegated to; [Emit
    IteratorReturnResult] stands for the end of the generator's body. *)
Fixpoint chain_body (operands : list (Iter T))
  : ChainFrame operands -> Step T (ChainFrame operands) :=
  match operands with
  | [] => fun f => Emit IteratorReturnResult f
  | m :: rest => fun f =>
      match f with
      | inl s =>
          match step m s with
          | Skip s' => Skip (inl s')
          | Throw e s' => Throw e (inl s')
          | Emit IteratorReturnResult _ => Skip (inr (chain_enter rest))
          | Emit r s' => Emit r (inl s')
          end
      | inr f' =>
          match chain_body rest f' with
          | Skip f'' => Skip (inr f'')
          | Throw e f'' => Throw e (inr f'')
          | Emit r f'' => Emit r (inr f'')
          end
      end
  end.

Context (iter : Iter T) (next : list (Iter T)).

Definition chain_step (g : Generator (ChainFrame (iter :: next)))
  : Step T (Generator (ChainFrame (iter :: next))) :=
  match g with
  | Completed f => Emit IteratorReturnResult (Completed f)
  | Suspended f =>
      match chain_body (iter :: next) f with
      | Skip f' => Skip (Suspended f')
      | Throw e f' => Throw e (Completed f')
      | Emit IteratorReturnResult f' => Emit IteratorReturnResult (Completed f')
      | Emit r f' => Emit r (Suspended f')
      end
  end.

Definition chain : Iter T :=
  MkMachine chain_step (Suspended (chain_enter (iter :: next))).
End Chain.

(** [zip(right)]: [rightIter] is obtained at once, nothing is called on it
    before the generator runs.  One turn of the loop evaluates
    [[iter.next(), rightIter.next()]], left first; a call that throws ends the
    generator before the calls after it are made. *)
Section Zip.
Context {T : Type} (iter : Iter T) (right : Iter T).

Inductive ZipFrame : Type :=
| ZipLeft (l : St iter) (rightIter : St right)
| ZipRight (leftResult : IteratorResult T) (l : St iter) (rightIter : St right).

Definition zip_left (f : ZipFrame) : St iter :=
  match f with ZipLeft l _ => l | ZipRight _ l _ => l end.
Definition zip_right (f : ZipFrame) : St right :=
  match f with ZipLeft _ r => r | ZipRight _ _ r => r end.

Definition zip_step (g : Generator ZipFrame) : Step (T * T) (Generator ZipFrame) :=
  match g with
  | Completed f => Emit IteratorReturnResult (Completed f)
  | Suspended (ZipLeft l r) =>
      match step iter l with
      | Skip l' => Skip (Suspended (ZipLeft l' r))
      | Throw e l' => Throw e (Completed (ZipLeft l' r))
      | Emit leftResult l' => Skip (Suspended (ZipRight leftResult l' r))
      end
  | Suspended (ZipRight leftResult l r) =>
      match step right r with
      | Skip r' => Skip (Suspended (ZipRight leftResult l r'))
      | Throw e r' => Throw e (Completed (ZipLeft l r'))
      | Emit rightResult r' =>
          let done := false in
          let done := done || nullish_or (done_field leftResult) true in
          let done := done || nullish_or (done_field rightResult) true in
          if done then Emit IteratorReturnResult (Completed (ZipLeft l r'))
          else
            match leftResult, rightResult with
            | IteratorYieldResult _ a, IteratorYieldResult _ b =>
                Emit (yielded (a, b)) (Suspended (ZipLeft l r'))
            | _, _ => Emit IteratorReturnResult (Completed (ZipLeft l r'))
            end
      end
  end.

Definition zip : Iter (T * T) :=
  MkMachine zip_step (Suspended (ZipLeft (start iter) (start right))).
End Zip.

Section Enumerate.
Context {T : Type} (iter : Iter T).

Record EnumerateFrame : Type := MkEnumerate {
  enumerate_index : Z;
  enumerate_iter : St iter
}.

Definition enumerate_step (g : Generator EnumerateFrame)
  : Step (Z * T) (Generator EnumerateFrame) :=
  match g with
  | Completed f => Emit IteratorReturnResult (Completed f)
  | Suspended (MkEnumerate index s) =>
      match step iter s with
      | Skip s' => Skip (Suspended (MkEnumerate index s'))
      | Throw e s' => Throw e (Completed (MkEnumerate index s'))
      | Emit IteratorReturnResult s' =>
          Emit IteratorReturnResult (Completed (MkEnumerate index s'))
      | Emit (IteratorYieldResult _ item) s' =>
          Emit (yielded (index, item)) (Suspended (MkEnumerate (index + 1)%Z s'))
      end
  end.

Definition enumerate : Iter (Z * T) :=
  MkMachine enumerate_step (Suspended (MkEnumerate 0%Z (start iter))).
End Enumerate.

Section Take.
Context {T : Type} (limit : Z) (iter : Iter T).

Record TakeFrame : Type := MkTake {
  take_count : Z;
  take_iter : St iter
}.

(** [if (++count > limit) break; yield item] *)
Definition take_step (g : Generator TakeFrame) : Step T (Generator TakeFrame) :=
  match g with
  | Completed f => Emit IteratorReturnResult (Completed f)
  | Suspended (MkTake count s) =>
      match step iter s with
      | Skip s' => Skip (Suspended (MkTake count s'))
      | Throw e s' => Throw e (Completed (MkTake count s'))
      | Emit IteratorReturnResult s' =>
          Emit IteratorReturnResult (Completed (MkTake count s'))
      | Emit (IteratorYieldResult _ item) s' =>
          let count := (count + 1)%Z in
          if (count >? limit)%Z
          then Emit IteratorReturnResult (Completed (MkTake count s'))
          else Emit (yielded item) (Suspended (MkTake count s'))
      end
  end.

Definition take : Iter T := MkMachine take_step (Suspended (MkTake 0%Z (start iter))).
End Take.

Section Skip.
Context {T : Type} (items : Z) (iter : Iter T).

Record SkipFrame : Type := MkSkip {
  skip_count : Z;
  skip_iter : St iter
}.

(** [if (++count <= items) continue; yield item] *)
Definition skip_step (g : Generator SkipFrame) : Step T (Generator SkipFrame) :=
  match g with
  | Completed f => Emit IteratorReturnResult (Completed f)
  | Suspended (MkSkip count s) =>
      match step iter s with
      | Skip s' => Skip (Suspended (MkSkip count s'))
      | Throw e s' => Throw e (Completed (MkSkip count s'))
      | Emit IteratorReturnResult s' =>
          Emit IteratorReturnResult (Completed (MkSkip count s'))
      | Emit (IteratorYieldResult _ item) s' =>
          let count := (count + 1)%Z in
          if (count <=? items)%Z
          then Skip (Suspended (MkSkip count s'))
          else Emit (yielded item) (Suspended (MkSkip count s'))
      end
  end.

Definition skip : Iter T := MkMachine skip_step (Suspended (MkSkip 0%Z (start iter))).
End Skip.

(** [flat()]: [for (const item of iter) yield* item], every [item] an array.
    [FlatInner rest s] is the generator inside [yield*], with [rest] the part
    of the array its iterator has not visited. *)
Section Flat.
Context {E : Type} (iter : Iter (list E)).

Inductive FlatFrame : Type :=
| FlatLoop (s : St iter)
| FlatInner (rest : list E) (s : St iter).

Definition flat_iter (f : FlatFrame) : St iter :=
  match f with FlatLoop s => s | FlatInner _ s => s end.

Definition flat_step (g : Generator FlatFrame) : Step E (Generator FlatFrame) :=
  match g with
  | Completed f => Emit IteratorReturnResult (Completed f)
  | Suspended (FlatLoop s) =>
      match step iter s with
      | Skip s' => Skip (Suspended (FlatLoop s'))
      | Throw e s' => Throw e (Completed (FlatLoop s'))
      | Emit IteratorReturnResult s' =>
          Emit IteratorReturnResult (Completed (FlatLoop s'))
      | Emit (IteratorYieldResult _ item) s' => Skip (Suspended (FlatInner item s'))
      end
  | Suspended (FlatInner [] s) => Skip (Suspended (FlatLoop s))
  | Suspended (FlatInner (x :: rest) s) => Emit (yielded x) (Suspended (FlatInner rest s))
  end.

Definition flat : Iter E := MkMachine flat_step (Suspended (FlatLoop (start iter))).
End Flat.

(** Terminal operations.  Each is a [for (const item of this)] loop; [fuel]
    bounds the number of machine steps. *)
Section Terminal.
Context {T : Type} (this : Iter T).

Fixpoint reduce_loop {X : Type} (func : X -> T -> Exc X) (fuel : nat)
  (result : X) (s : St this) : Completion X (St this) :=
  match fuel with
  | O => OutOfFuel
  | S fuel' =>
      match step this s with
      | Skip s' => reduce_loop func fuel' result s'
      | Throw e s' => Thrown e s'
      | Emit IteratorReturnResult s' => Returned result s'
      | Emit (IteratorYieldResult _ item) s' =>
          match func result item with
          | Ok result' => reduce_loop func fuel' result' s'
          | Raise e => Thrown e s'
          end
      end
  end.

Definition reduce {X : Type} (func : X -> T -> Exc X) (initial : X) (fuel : nat)
  : Completion X (St this) :=
  reduce_loop func fuel initial (start this).

(** [this.reduce((prev, curr) => [...prev, curr], [])] *)
Definition collect (fuel : nat) : Completion (list T) (St this) :=
  reduce (total2 (fun prev curr => prev ++ [curr])) [] fuel.

Fixpoint count_loop (fuel : nat) (count : Z) (s : St this)
  : Completion Z (St this) :=
  match fuel with
  | O => OutOfFuel
  | S fuel' =>
      match step this s with
      | Skip s' => count_loop fuel' count s'
      | Throw e s' => Thrown e s'
      | Emit IteratorReturnResult s' => Returned count s'
      | Emit (IteratorYieldResult _ _) s' => count_loop fuel' (count + 1)%Z s'
      end
  end.

Definition count (fuel : nat) : Completion Z (St this) :=
  count_loop fuel 0%Z (start this).

(** [func] is called for its effect on the surrounding program, whose state
    is [W]; a call that throws leaves the state it had reached. *)
Fixpoint forEach_loop {W : Type} (func : T -> W -> W * Exc unit) (fuel : nat)
  (w : W) (s : St this) : W * Completion unit (St this) :=
  match fuel with
  | O => (w, OutOfFuel)
  | S fuel' =>
      match step this s with
      | Skip s' => forEach_loop func fuel' w s'
      | Throw e s' => (w, Thrown e s')
      | Emit IteratorReturnResult s' => (w, Returned tt s')
      | Emit (IteratorYieldResult _ item) s' =>
          match func item w with
          | (w', Ok _) => forEach_loop func fuel' w' s'
          | (w', Raise e) => (w', Thrown e s')
          end
      end
  end.

Definition forEach {W : Type} (func : T -> W -> W * Exc unit) (w : W) (fuel : nat)
  : W * Completion unit (St this) :=
  forEach_loop func fuel w (start this).
End Terminal.

End Sync.

(** ** async.ts: class [AsyncIter] *)

Module Async.

(** A promise, seen from the code that awaits it: it settles after [ticks]
    further turns of the scheduler, fulfilled with a value or rejected. *)
Record Promise (A : Type) : Type := MkPromise {
  ticks : nat;
  settled : Exc A
}.

(** One turn of the scheduler spent at an [await]: the promise is still
    pending, or it has settled and the awaiting code resumes. *)
Definition poll {A : Type} (p : Promise A) : Promise A + Exc A :=
  match ticks p with
  | S n => inl (MkPromise n (settled p))
  | O => inr (settled p)
  end.

(** An async function that computes [f] and takes [latency x] turns over it. *)
Definition suspending {A B : Type} (latency : A -> nat) (f : A -> B) : A -> Promise B :=
  fun x => MkPromise (latency x) (Ok (f x)).

(** What a synchronous function hands to the async generator that called it:
    a value that is no promise, or a promise.  [yield v] in an async generator
    awaits [v] before it hands anything out, whatever the function that
    computed [v] was declared to return. *)
Inductive Awaitable (A : Type) : Type :=
| Plain (a : A)
| Thenable (p : Promise A).
Arguments Plain {A} a.
Arguments Thenable {A} p.

(** [await v]: a promise is awaited as it is, anything else as a promise that
    is fulfilled with it already. *)
Definition awaited {A : Type} (v : Awaitable A) : Promise A :=
  match v with
  | Plain a => MkPromise O (Ok a)
  | Thenable p => p
  end.

(** A synchronous function whose results are no promises, and one that
    returns the promise of an async function without awaiting it. *)
Definition returning {A B : Type} (f : A -> B) : A -> Exc (Awaitable B) :=
  fun x => Ok (Plain (f x)).

Definition promising {A B : Type} (latency : A -> nat) (f : A -> B)
  : A -> Exc (Awaitable B) :=
  fun x => Ok (Thenable (suspending latency f x)).

(** The same for [filterMapSync], where [undefined] is tested for before the
    [yield]. *)
Definition returning_defined {A B : Type} (f : A -> option B)
  : A -> Exc (option (Awaitable B)) :=
  fun x => Ok (option_map Plain (f x)).

(** An object that implements [AsyncIterator<T>]: a call of [next()] moves the
    object on and returns a promise of the result. *)
Record AsyncIterator (T : Type) : Type := MkAsyncIterator {
  ASt : Type;
  anext : ASt -> Promise (IteratorResult T) * ASt;
  astate : ASt
}.
Arguments MkAsyncIterator {T ASt} anext astate.

(** The same source with a counter of the calls of [next()] it has received. *)
Definition spy {T : Type} (it : AsyncIterator T) : AsyncIterator T :=
  MkAsyncIterator
    (fun sc : ASt it * nat =>
       let (p, s') := anext it (fst sc) in (p, (s', S (snd sc))))
    (astate it, O).

(** A source of the elements of [items] whose every result takes [latency]
    turns to arrive. *)
Definition values {T : Type} (latency : nat) (items : list T) : AsyncIterator T :=
  MkAsyncIterator
    (fun rest : list T =>
       match rest with
       | [] => (MkPromise latency (Ok IteratorReturnResult), [])
       | x :: rest' => (MkPromise latency (Ok (yielded x)), rest')
       end)
    items.

(** A source that breaks the protocol, as [flicker] does. *)
Definition flicker {T : Type} (x : T) : AsyncIterator T :=
  MkAsyncIterator
    (fun exhausted_last : bool =>
       if exhausted_last then (MkPromise O (Ok (yielded x)), false)
       else (MkPromise O (Ok IteratorReturnResult), true))
    false.

(** An [AsyncIter<T>], and anything else that is [AsyncIterable<T>].  A [Skip]
    of such a machine is a turn in which the promise returned by [next()] is
    still pending. *)
Definition AsyncIter (T : Type) : Type := Machine T.

(** [new AsyncIter(inner)]: [next()] returns the promise of
    [this.#inner.next()], unchecked. *)
Section New.
Context {T : Type} (inner : AsyncIterator T).

Inductive Call : Type :=
| Idle (s : ASt inner)
| Awaiting (p : Promise (IteratorResult T)) (s : ASt inner).

Definition call_state (c : Call) : ASt inner :=
  match c with Idle s => s | Awaiting _ s => s end.

Definition new_step (c : Call) : Step T Call :=
  match c with
  | Idle s => let (p, s') := anext inner s in Skip (Awaiting p s')
  | Awaiting p s =>
      match poll p with
      | inl p' => Skip (Awaiting p' s)
      | inr (Ok r) => Emit r (Idle s)
      | inr (Raise e) => Throw e (Idle s)
      end
  end.

Definition new : AsyncIter T := MkMachine new_step (Idle (astate inner)).
End New.

(** [for await (const item of iter)] awaits [iter.next()]: while the promise is
    pending the generator is suspended, then the loop goes on as [for...of]
    does.  An async generator hands out a fresh result object at every
    [yield], after awaiting the operand; elements are taken not to be
    promises themselves, so that awaiting one gives it back.  What a supplied
    synchronous function returns may be a promise: the variants that yield it
    spend the turns of that [await] in a frame of their own. *)

(** [filter(predicate)]: [if (await predicate(item)) yield item]. *)
Section Filter.
Context {T : Type} (predicate : T -> Promise bool) (iter : AsyncIter T).

Inductive FilterFrame : Type :=
| FilterLoop (s : St iter)
| FilterAwait (p : Promise bool) (item : T) (s : St iter).

Definition filter_iter (f : FilterFrame) : St iter :=
  match f with FilterLoop s => s | FilterAwait _ _ s => s end.

Definition filter_step (g : Generator FilterFrame) : Step T (Generator FilterFrame) :=
  match g with
  | Completed f => Emit IteratorReturnResult (Completed f)
  | Suspended (FilterLoop s) =>
      match step iter s with
      | Skip s' => Skip (Suspended (FilterLoop s'))
      | Throw e s' => Throw e (Completed (FilterLoop s'))
      | Emit IteratorReturnResult s' =>
          Emit IteratorReturnResult (Completed (FilterLoop s'))
      | Emit (IteratorYieldResult _ item) s' =>
          Skip (Suspended (FilterAwait (predicate item) item s'))
      end
  | Suspended (FilterAwait p item s) =>
      match poll p with
      | inl p' => Skip (Suspended (FilterAwait p' item s))
      | inr (Raise e) => Throw e (Completed (FilterLoop s))
      | inr (Ok true) => Emit (yielded item) (Suspended (FilterLoop s))
      | inr (Ok false) => Skip (Suspended (FilterLoop s))
      end
  end.

Definition filter : AsyncIter T :=
  MkMachine filter_step (Suspended (FilterLoop (start iter))).
End Filter.

(** [filterSync(predicate)]: [if (predicate(item)) yield item].  The predicate
    is called synchronously and its result tested as it is; the [yield]
    awaits the element. *)
Section FilterSync.
Context {T : Type} (predicate : T -> Exc bool) (iter : AsyncIter T).

Inductive FilterSyncFrame : Type :=
| FilterSyncLoop (s : St iter)
| FilterSyncYield (p : Promise T) (s : St iter).

Definition filterSync_iter (f : FilterSyncFrame) : St iter :=
  match f with FilterSyncLoop s => s | FilterSyncYield _ s => s end.

Definition filterSync_step (g : Generator FilterSyncFrame)
  : Step T (Generator FilterSyncFrame) :=
  match g with
  | Completed f => Emit IteratorReturnResult (Completed f)
  | Suspended (FilterSyncLoop s) =>
      match step iter s with
      | Skip s' => Skip (Suspended (FilterSyncLoop s'))
      | Throw e s' => Throw e (Completed (FilterSyncLoop s'))
      | Emit IteratorReturnResult s' =>
          Emit IteratorReturnResult (Completed (FilterSyncLoop s'))
      | Emit (IteratorYieldResult _ item) s' =>
          match predicate item with
          | Raise e => Throw e (Completed (FilterSyncLoop s'))
          | Ok true => Skip (Suspended (FilterSyncYield (awaited (Plain item)) s'))
          | Ok false => Skip (Suspended (FilterSyncLoop s'))
          end
      end
  | Suspended (FilterSyncYield p s) =>
      match poll p with
      | inl p' => Skip (Suspended (FilterSyncYield p' s))
      | inr (Raise e) => Throw e (Completed (FilterSyncLoop s))
      | inr (Ok v) => Emit (yielded v) (Suspended (FilterSyncLoop s))
      end
  end.

Definition filterSync : AsyncIter T :=
  MkMachine filterSync_step (Suspended (FilterSyncLoop (start iter))).
End FilterSync.

(** [filterMap(func)]: [const mapped = await func(item)]. *)
Section FilterMap.
Context {T Output : Type} (func : T -> Promise (option Output)) (iter : AsyncIter T).

Inductive FilterMapFrame : Type :=
| FilterMapLoop (s : St iter)
| FilterMapAwait (p : Promise (option Output)) (s : St iter).

Definition filterMap_iter (f : FilterMapFrame) : St iter :=
  match f with FilterMapLoop s => s | FilterMapAwait _ s => s end.

Definition filterMap_step (g : Generator FilterMapFrame)
  : Step Output (Generator FilterMapFrame) :=
  match g with
  | Completed f => Emit IteratorReturnResult (Completed f)
  | Suspended (FilterMapLoop s) =>
      match step iter s with
      | Skip s' => Skip (Suspended (FilterMapLoop s'))
      | Throw e s' => Throw e (Completed (FilterMapLoop s'))
      | Emit IteratorReturnResult s' =>
          Emit IteratorReturnResult (Completed (FilterMapLoop s'))
      | Emit (IteratorYieldResult _ item) s' =>
          Skip (Suspended (FilterMapAwait (func item) s'))
      end
  | Suspended (FilterMapAwait p s) =>
      match poll p with
      | inl p' => Skip (Suspended (FilterMapAwait p' s))
      | inr (Raise e) => Throw e (Completed (FilterMapLoop s))
      | inr (Ok (Some mapped)) => Emit (yielded mapped) (Suspended (FilterMapLoop s))
      | inr (Ok None) => Skip (Suspended (FilterMapLoop s))
      end
  end.

Definition filterMap : AsyncIter Output :=
  MkMachine filterMap_step (Suspended (FilterMapLoop (start iter))).
End FilterMap.

(** [filterMapSync(func)]: [const mapped = func(item)], tested against
    [undefined] as it is (a promise is not [undefined]), then awaited by
    [yield mapped]. *)
Section FilterMapSync.
Context {T Output : Type} (func : T -> Exc (option (Awaitable Output)))
        (iter : AsyncIter T).

Inductive FilterMapSyncFrame : Type :=
| FilterMapSyncLoop (s : St iter)
| FilterMapSyncYield (p : Promise Output) (s : St iter).

Definition filterMapSync_iter (f : FilterMapSyncFrame) : St iter :=
  match f with FilterMapSyncLoop s => s | FilterMapSyncYield _ s => s end.

Definition filterMapSync_step (g : Generator FilterMapSyncFrame)
  : Step Output (Generator FilterMapSyncFrame) :=
  match g with
  | Completed f => Emit IteratorReturnResult (Completed f)
  | Suspended (FilterMapSyncLoop s) =>
      match step iter s with
      | Skip s' => Skip (Suspended (FilterMapSyncLoop s'))
      | Throw e s' => Throw e (Completed (FilterMapSyncLoop s'))
      | Emit IteratorReturnResult s' =>
          Emit IteratorReturnResult (Completed (FilterMapSyncLoop s'))
      | Emit (IteratorYieldResult _ item) s' =>
          match func item with
          | Raise e => Throw e (Completed (FilterMapSyncLoop s'))
          | Ok (Some mapped) => Skip (Suspended (FilterMapSyncYield (awaited mapped) s'))
          | Ok None => Skip (Suspended (FilterMapSyncLoop s'))
          end
      end
  | Suspended (FilterMapSyncYield p s) =>
      match poll p with
      | inl p' => Skip (Suspended (FilterMapSyncYield p' s))
      | inr (Raise e) => Throw e (Completed (FilterMapSyncLoop s))
      | inr (Ok v) => Emit (yielded v) (Suspended (FilterMapSyncLoop s))
      end
  end.

Definition filterMapSync : AsyncIter Output :=
  MkMachine filterMapSync_step (Suspended (FilterMapSyncLoop (start iter))).
End FilterMapSync.

(** [map(func)]: [yield await func(item)]. *)
Section Map.
Context {T Output : Type} (func : T -> Promise Output) (iter : AsyncIter T).

Inductive MapFrame : Type :=
| MapLoop (s : St iter)
| MapAwait (p : Promise Output) (s : St iter).

Definition map_iter (f : MapFrame) : St iter :=
  match f with MapLoop s => s | MapAwait _ s => s end.

Definition map_step (g : Generator MapFrame) : Step Output (Generator MapFrame) :=
  match g with
  | Completed f => Emit IteratorReturnResult (Completed f)
  | Suspended (MapLoop s) =>
      match step iter s with
      | Skip s' => Skip (Suspended (MapLoop s'))
      | Throw e s' => Throw e (Completed (MapLoop s'))
      | Emit IteratorReturnResult s' =>
          Emit IteratorReturnResult (Completed (MapLoop s'))
      | Emit (IteratorYieldResult _ item) s' =>
          Skip (Suspended (MapAwait (func item) s'))
      end
  | Suspended (MapAwait p s) =>
      match poll p with
      | inl p' => Skip (Suspended (MapAwait p' s))
      | inr (Raise e) => Throw e (Completed (MapLoop s))
      | inr (Ok v) => Emit (yielded v) (Suspended (MapLoop s))
      end
  end.

Definition map : AsyncIter Output :=
  MkMachine map_step (Suspended (MapLoop (start iter))).
End Map.

(** [mapSync(func)]: [yield func(item)].  The function is called
    synchronously; what it returned is awaited by the [yield], so that a
    promise it returned is settled before anything is handed out, and a
    rejected one throws inside the generator. *)
Section MapSync.
Context {T Output : Type} (func : T -> Exc (Awaitable Output)) (iter : AsyncIter T).

Inductive MapSyncFrame : Type :=
| MapSyncLoop (s : St iter)
| MapSyncYield (p : Promise Output) (s : St iter).

Definition mapSync_iter (f : MapSyncFrame) : St iter :=
  match f with MapSyncLoop s => s | MapSyncYield _ s => s end.

Definition mapSync_step (g : Generator MapSyncFrame)
  : Step Output (Generator MapSyncFrame) :=
  match g with
  | Completed f => Emit IteratorReturnResult (Completed f)
  | Suspended (MapSyncLoop s) =>
      match step iter s with
      | Skip s' => Skip (Suspended (MapSyncLoop s'))
      | Throw e s' => Throw e (Completed (MapSyncLoop s'))
      | Emit IteratorReturnResult s' =>
          Emit IteratorReturnResult (Completed (MapSyncLoop s'))
      | Emit (IteratorYieldResult _ item) s' =>
          match func item with
          | Raise e => Throw e (Completed (MapSyncLoop s'))
          | Ok mapped => Skip (Suspended (MapSyncYield (awaited mapped) s'))
          end
      end
  | Suspended (MapSyncYield p s) =>
      match poll p with
      | inl p' => Skip (Suspended (MapSyncYield p' s))
      | inr (Raise e) => Throw e (Completed (MapSyncLoop s))
      | inr (Ok v) => Emit (yielded v) (Suspended (MapSyncLoop s))
      end
  end.

Definition mapSync : AsyncIter Output :=
  MkMachine mapSync_step (Suspended (MapSyncLoop (start iter))).
End MapSync.

(** [chain(...next)]: as in [Iter], except that [yield*] in an async generator
    hands out a fresh result object for every value it receives. *)
Section Chain.
Context {T : Type}.

Fixpoint ChainFrame (operands : list (AsyncIter T)) : Type :=
  match operands with
  | [] => unit
  | m :: rest => (St m + ChainFrame rest)%type
  end.

Definition chain_enter (operands : list (AsyncIter T)) : ChainFrame operands :=
  match operands with
  | [] => tt
  | m :: _ => inl (start m)
  end.

Fixpoint chain_body (operands : list (AsyncIter T))
  : ChainFrame operands -> Step T (ChainFrame operands) :=
  match operands with
  | [] => fun f => Emit IteratorReturnResult f
  | m :: rest => fun f =>
      match f with
      | inl s =>
          match step m s with
          | Skip s' => Skip (inl s')
          | Throw e s' => Throw e (inl s')
          | Emit IteratorReturnResult _ => Skip (inr (chain_enter rest))
          | Emit (IteratorYieldResult _ v) s' => Emit (yielded v) (inl s')
          end
      | inr f' =>
          match chain_body rest f' with
          | Skip f'' => Skip (inr f'')
          | Throw e f'' => Throw e (inr f'')
          | Emit r f'' => Emit r (inr f'')
          end
      end
  end.

Context (iter : AsyncIter T) (next : list (AsyncIter T)).

Definition chain_step (g : Generator (ChainFrame (iter :: next)))
  : Step T (Generator (ChainFrame (iter :: next))) :=
  match g with
  | Completed f => Emit IteratorReturnResult (Completed f)
  | Suspended f =>
      match chain_body (iter :: next) f with
      | Skip f' => Skip (Suspended f')
      | Throw e f' => Throw e (Completed f')
      | Emit IteratorReturnResult f' => Emit IteratorReturnResult (Completed f')
      | Emit r f' => Emit r (Suspended f')
      end
  end.

Definition chain : AsyncIter T :=
  MkMachine chain_step (Suspended (chain_enter (iter :: next))).
End Chain.

(** [zip(right)]: one turn of the loop awaits
    [Promise.all([iter.next(), rightIter.next()])].  Both calls are made
    before anything is awaited, so both sides advance turn by turn until both
    promises have settled; the first rejection rejects the whole. *)
Section Zip.
Context {T : Type} (iter : AsyncIter T) (right : AsyncIter T).

Inductive Side (S : Type) : Type :=
| Pending (s : S)
| Fulfilled (r : IteratorResult T) (s : S)
| Rejected (e : exn) (s : S).

Definition side_state {S : Type} (x : Side S) : S :=
  match x with Pending s => s | Fulfilled _ s => s | Rejected _ s => s end.

Definition advance (m : AsyncIter T) (x : Side (St m)) : Side (St m) :=
  match x with
  | Pending s =>
      match step m s with
      | Skip s' => Pending s'
      | Emit r s' => Fulfilled r s'
      | Throw e s' => Rejected e s'
      end
  | _ => x
  end.

Record ZipFrame : Type := MkZip {
  zip_left : Side (St iter);
  zip_right : Side (St right)
}.

Definition zip_rest (f : ZipFrame) : ZipFrame :=
  MkZip (Pending (side_state (zip_left f))) (Pending (side_state (zip_right f))).

Definition zip_step (g : Generator ZipFrame) : Step (T * T) (Generator ZipFrame) :=
  match g with
  | Completed f => Emit IteratorReturnResult (Completed f)
  | Suspended f =>
      match zip_left f, zip_right f with
      | Rejected e _, _ => Throw e (Completed f)
      | _, Rejected e _ => Throw e (Completed f)
      | Fulfilled leftResult _, Fulfilled rightResult _ =>
          let done := false in
          let done := done || nullish_or (done_field leftResult) true in
          let done := done || nullish_or (done_field rightResult) true in
          if done then Emit IteratorReturnResult (Completed (zip_rest f))
          else
            match leftResult, rightResult with
            | IteratorYieldResult _ a, IteratorYieldResult _ b =>
                Emit (yielded (a, b)) (Suspended (zip_rest f))
            | _, _ => Emit IteratorReturnResult (Completed (zip_rest f))
            end
      | _, _ =>
          Skip (Suspended (MkZip (advance iter (zip_left f))
                                 (advance right (zip_right f))))
      end
  end.

Definition zip : AsyncIter (T * T) :=
  MkMachine zip_step
    (Suspended (MkZip (Pending (start iter)) (Pending (start right)))).
End Zip.

Section Enumerate.
Context {T : Type} (iter : AsyncIter T).

Record EnumerateFrame : Type := MkEnumerate {
  enumerate_index : Z;
  enumerate_iter : St iter
}.

Definition enumerate_step (g : Generator EnumerateFrame)
  : Step (Z * T) (Generator EnumerateFrame) :=
  match g with
  | Completed f => Emit IteratorReturnResult (Completed f)
  | Suspended (MkEnumerate index s) =>
      match step iter s with
      | Skip s' => Skip (Suspended (MkEnumerate index s'))
      | Throw e s' => Throw e (Completed (MkEnumerate index s'))
      | Emit IteratorReturnResult s' =>
          Emit IteratorReturnResult (Completed (MkEnumerate index s'))
      | Emit (IteratorYieldResult _ item) s' =>
          Emit (yielded (index, item)) (Suspended (MkEnumerate (index + 1)%Z s'))
      end
  end.

Definition enumerate : AsyncIter (Z * T) :=
  MkMachine enumerate_step (Suspended (MkEnumerate 0%Z (start iter))).
End Enumerate.

Section Take.
Context {T : Type} (limit : Z) (iter : AsyncIter T).

Record TakeFrame : Type := MkTake {
  take_count : Z;
  take_iter : St iter
}.

Definition take_step (g : Generator TakeFrame) : Step T (Generator TakeFrame) :=
  match g with
  | Completed f => Emit IteratorReturnResult (Completed f)
  | Suspended (MkTake count s) =>
      match step iter s with
      | Skip s' => Skip (Suspended (MkTake count s'))
      | Throw e s' => Throw e (Completed (MkTake count s'))
      | Emit IteratorReturnResult s' =>
          Emit IteratorReturnResult (Completed (MkTake count s'))
      | Emit (IteratorYieldResult _ item) s' =>
          let count := (count + 1)%Z in
          if (count >? limit)%Z
          then Emit IteratorReturnResult (Completed (MkTake count s'))
          else Emit (yielded item) (Suspended (MkTake count s'))
      end
  end.

Definition take : AsyncIter T :=
  MkMachine take_step (Suspended (MkTake 0%Z (start iter))).
End Take.

Section Skip.
Context {T : Type} (items : Z) (iter : AsyncIter T).

Record SkipFrame : Type := MkSkip {
  skip_count : Z;
  skip_iter : St iter
}.

Definition skip_step (g : Generator SkipFrame) : Step T (Generator SkipFrame) :=
  match g with
  | Completed f => Emit IteratorReturnResult (Completed f)
  | Suspended (MkSkip count s) =>
      match step iter s with
      | Skip s' => Skip (Suspended (MkSkip count s'))
      | Throw e s' => Throw e (Completed (MkSkip count s'))
      | Emit IteratorReturnResult s' =>
          Emit IteratorReturnResult (Completed (MkSkip count s'))
      | Emit (IteratorYieldResult _ item) s' =>
          let count := (count + 1)%Z in
          if (count <=? items)%Z
          then Skip (Suspended (MkSkip count s'))
          else Emit (yielded item) (Suspended (MkSkip count s'))
      end
  end.

Definition skip : AsyncIter T :=
  MkMachine skip_step (Suspended (MkSkip 0%Z (start iter))).
End Skip.

(** Terminal operations: [for await (const item of this)] loops inside async
    methods.  The promise a method returns is fulfilled with [x] ([Returned])
    or rejected with [e] ([Thrown]); [fuel] bounds the number of turns. *)
Section Terminal.
Context {T : Type} (this : AsyncIter T).

Fixpoint reduce_loop {X : Type} (func : X -> T -> Exc X) (fuel : nat)
  (result : X) (s : St this) : Completion X (St this) :=
  match fuel with
  | O => OutOfFuel
  | S fuel' =>
      match step this s with
      | Skip s' => reduce_loop func fuel' result s'
      | Throw e s' => Thrown e s'
      | Emit IteratorReturnResult s' => Returned result s'
      | Emit (IteratorYieldResult _ item) s' =>
          match func result item with
          | Ok result' => reduce_loop func fuel' result' s'
          | Raise e => Thrown e s'
          end
      end
  end.

Definition reduce {X : Type} (func : X -> T -> Exc X) (initial : X) (fuel : nat)
  : Completion X (St this) :=
  reduce_loop func fuel initial (start this).

Definition collect (fuel : nat) : Completion (list T) (St this) :=
  reduce (total2 (fun prev curr => prev ++ [curr])) [] fuel.

Fixpoint count_loop (fuel : nat) (count : Z) (s : St this)
  : Completion Z (St this) :=
  match fuel with
  | O => OutOfFuel
  | S fuel' =>
      match step this s with
      | Skip s' => count_loop fuel' count s'
      | Throw e s' => Thrown e s'
      | Emit IteratorReturnResult s' => Returned count s'
      | Emit (IteratorYieldResult _ _) s' => count_loop fuel' (count + 1)%Z s'
      end
  end.

Definition count (fuel : nat) : Completion Z (St this) :=
  count_loop fuel 0%Z (start this).

Fixpoint forEach_loop {W : Type} (func : T -> W -> W * Exc unit) (fuel : nat)
  (w : W) (s : St this) : W * Completion unit (St this) :=
  match fuel with
  | O => (w, OutOfFuel)
  | S fuel' =>
      match step this s with
      | Skip s' => forEach_loop func fuel' w s'
      | Throw e s' => (w, Thrown e s')
      | Emit IteratorReturnResult s' => (w, Returned tt s')
      | Emit (IteratorYieldResult _ item) s' =>
          match func item w with
          | (w', Ok _) => forEach_loop func fuel' w' s'
          | (w', Raise e) => (w', Thrown e s')
          end
      end
  end.

Definition forEach {W : Type} (func : T -> W -> W * Exc unit) (w : W) (fuel : nat)
  : W * Completion unit (St this) :=
  forEach_loop func fuel w (start this).
End Terminal.

End Async.

(** ** What a run hands out *)

(** [reaches m s l r s']: [length l + 1] calls of [next()] from [s]; the first
    [length l] hand out the elements of [l], the last returns [r] and leaves
    the machine in [s']. *)
Definition reaches {T : Type} (m : Machine T) (s : St m) (l : list T)
  (r : IteratorResult T) (s' : St m) : Prop :=
  exists s1, emits m s l s1 /\ step m s1 = Emit r s'.

(** The left fold a terminal loop computes over the elements [l], up to the
    first call of [func] that throws. *)
Fixpoint fold_exc {X T : Type} (func : X -> T -> Exc X) (l : list T) (acc : X) : Exc X :=
  match l with
  | [] => Ok acc
  | x :: l' =>
      match func acc x with
      | Ok acc' => fold_exc func l' acc'
      | Raise e => Raise e
      end
  end.

(** The state of the surrounding program after [func] has been called on the
    elements of [l], none of the calls throwing. *)
Fixpoint run_calls {W T : Type} (func : T -> W -> W * Exc unit) (l : list T) (w : W)
  : option W :=
  match l with
  | [] => Some w
  | x :: l' =>
      match func x w with
      | (w', Ok _) => run_calls func l' w'
      | (_, Raise _) => None
      end
  end.

(** [filterMap]'s elements: the defined results, in order. *)
Fixpoint defined {A B : Type} (f : A -> option B) (l : list A) : list B :=
  match l with
  | [] => []
  | x :: l' =>
      match f x with
      | Some y => y :: defined f l'
      | None => defined f l'
      end
  end.

(** The pairs [(index, item)] of [enumerate], counting from [index]. *)
Fixpoint indexed {T : Type} (index : Z) (l : list T) : list (Z * T) :=
  match l with
  | [] => []
  | x :: l' => (index, x) :: indexed (index + 1)%Z l'
  end.

(** The body of [chain]'s generator as a machine of its own. *)
Definition sync_operands {T : Type} (operands : list (Sync.Iter T)) : Machine T :=
  MkMachine (Sync.chain_body operands) (Sync.chain_enter operands).

Definition async_operands {T : Type} (operands : list (Async.AsyncIter T)) : Machine T :=
  MkMachine (Async.chain_body operands) (Async.chain_enter operands).

(** [fails m s l e s']: the first [length l] calls of [next()] from [s] hand
    out the elements of [l], the next one throws [e] and leaves the machine
    in [s']. *)
Definition fails {T : Type} (m : Machine T) (s : St m) (l : list T)
  (e : exn) (s' : St m) : Prop :=
  exists s1, emits m s l s1 /\ step m s1 = Throw e s'.

(** A pending call of an async source seen with the counter of its spy, and
    the number of calls that have not delivered their result yet. *)
Definition spied {T : Type} (inner : Async.AsyncIterator T) (c : nat)
  (x : Async.Call inner) : Async.Call (Async.spy inner) :=
  match x with
  | Async.Idle _ s => Async.Idle (Async.spy inner) (s, c)
  | Async.Awaiting _ p s => Async.Awaiting (Async.spy inner) p (s, c)
  end.
Arguments spied {T} inner c x.

Definition in_flight {T : Type} {inner : Async.AsyncIterator T} (x : Async.Call inner)
  : nat :=
  match x with
  | Async.Idle _ _ => O
  | Async.Awaiting _ _ _ => 1%nat
  end.

(** [collect()] on [it] returns [r]; for [AsyncIter], the promise it returns
    is fulfilled with [r]. *)
Definition sync_collects {T : Type} (it : Sync.Iter T) (r : list T) : Prop :=
  exists fuel s', Sync.collect it fuel = Returned r s'.

Definition async_collects {T : Type} (it : Async.AsyncIter T) (r : list T) : Prop :=
  exists fuel s', Async.collect it fuel = Returned r s'.

(** A sequence with the elements [l], then exhausted. *)
Definition sequence_of {T : Type} (m : Machine T) (l : list T) : Prop :=
  exists s', drains m (start m) l s'.

(** The calls a spied source has received. *)
Definition calls {S : Type} (sc : S * nat) : nat := snd sc.

(** The [n] integers from [i] on. *)
Definition range (i : Z) (n : nat) : list Z :=
  List.map (fun k => (i + Z.of_nat k)%Z) (seq 0 n).

(** [forEach]'s function in the test suite's style: it records the element
    it was called with. *)
Definition record_call {T : Type} (item : T) (log : list T) : list T * Exc unit :=
  (item :: log, Ok tt).

(** One side of an [AsyncIter.zip] over a spied source whose call of this turn
    has been made: it is awaited or has settled, and the source has received
    [c] calls. *)
Definition called_side {T : Type} (inner : Async.AsyncIterator T) (c : nat)
  (x : Async.Side (T := T) (Async.Call (Async.spy inner))) : Prop :=
  match x with
  | Async.Pending (Async.Awaiting _ _ sc) => snd sc = c
  | Async.Pending (Async.Idle _ _) => False
  | Async.Fulfilled _ call => snd (Async.call_state call) = c
  | Async.Rejected _ call => snd (Async.call_state call) = c
  end.
Arguments called_side {T} inner c x.

(** Once [collect()] has returned on [it], a further drain of the object it
    left finds nothing: [collect()] returns [[]] and [count()] returns 0. *)
Definition spent_after_collect {T : Type} (it : Sync.Iter T) : Prop :=
  forall fuel r g, Sync.collect it fuel = Returned r g ->
  forall fuel',
    Sync.reduce_loop it (total2 (fun prev curr => prev ++ [curr])) (S fuel') [] g
    = Returned [] g
    /\ Sync.count_loop it (S fuel') 0%Z g = Returned 0%Z g.

(** An async source whose every call of [next()] returns a promise that is
    rejected with [e] after [latency] turns. *)
Definition rejecting (T : Type) (latency : nat) (e : exn) : Async.AsyncIterator T :=
  Async.MkAsyncIterator (fun s : unit => (Async.MkPromise latency (Raise e), s)) tt.

(** A source whose every call of [next()] throws [e]. *)
Definition throwing (T : Type) (e : exn) : Iterator T :=
  MkIterator (fun s : unit => (Raise e, s)) tt.

(** What [yield v] hands out for the [v] a synchronous function returned:
    the value [v] settles to; and the same for the optional result of
    [filterMapSync]'s function. *)
Definition settles_to {A : Type} (v : Async.Awaitable A) (y : A) : Prop :=
  Async.settled (Async.awaited v) = Ok y.

Definition settles_defined {A : Type} (o : option (Async.Awaitable A)) (r : option A)
  : Prop :=
  match o with
  | Some v => exists y, settles_to v y /\ r = Some y
  | None => r = None
  end.

(** ** Runs of a machine *)

Unset Implicit Arguments.

Section Runs.
Context {T : Type} (m : Machine T).

Lemma emits_app s l1 s1 l2 s2 :
  emits m s l1 s1 -> emits m s1 l2 s2 -> emits m s (l1 ++ l2) s2.
Proof.
  induction 1; intros H2; simpl.
  - exact H2.
  - eapply emits_skip; eauto.
  - eapply emits_yield; eauto.
Qed.

Lemma emits_cons_inv s v l s' :
  emits m s (v :: l) s' ->
  exists sa sb, emits m s [] sa /\ step m sa = Emit (yielded v) sb /\ emits m sb l s'.
Proof.
  intros H. remember (v :: l) as vl eqn:E. revert v l E.
  induction H as [s | s s1 l0 s2 Hs H IH | s v0 s1 l0 s2 Hs H IH]; intros v l E.
  - discriminate.
  - destruct (IH v l E) as (sa & sb & Ha & Hb & Hc).
    exists sa, sb. split; [eapply emits_skip; eauto | auto].
  - injection E as -> ->. exists s, s1. repeat split; auto. constructor.
Qed.

Lemma emits_app_inv l1 : forall s l2 s',
  emits m s (l1 ++ l2) s' ->
  exists s1, emits m s l1 s1 /\ emits m s1 l2 s'.
Proof.
  induction l1 as [|v l1 IH]; intros s l2 s' H; simpl in H.
  - exists s. split; [constructor | exact H].
  - apply emits_cons_inv in H. destruct H as (sa & sb & Ha & Hb & Hc).
    destruct (IH _ _ _ Hc) as (s1 & H1 & H2).
    exists s1. split; [| exact H2].
    change (v :: l1) with ([] ++ v :: l1).
    eapply emits_app; [exact Ha |]. eapply emits_yield; eauto.
Qed.

Lemma emits_step_nil s s1 : step m s = Skip s1 -> emits m s [] s1.
Proof. intros H. eapply emits_skip; [exact H | constructor]. Qed.

Lemma emits_step_one s v s1 : step m s = Emit (yielded v) s1 -> emits m s [v] s1.
Proof. intros H. eapply emits_yield; [exact H | constructor]. Qed.

Lemma emits_snoc s l s1 v s2 :
  emits m s l s1 -> step m s1 = Emit (yielded v) s2 -> emits m s (l ++ [v]) s2.
Proof. intros H Hs. eapply emits_app; [exact H | apply emits_step_one, Hs]. Qed.

(** A finite sequence is a run that ends with a report of exhaustion. *)
Lemma drains_reaches s l s' : drains m s l s' <-> reaches m s l IteratorReturnResult s'.
Proof. reflexivity. Qed.

Lemma reaches_skips s sa l r s' :
  emits m s [] sa -> reaches m sa l r s' -> reaches m s l r s'.
Proof.
  intros H (s1 & H1 & H2). exists s1. split; [| exact H2].
  change l with ([] ++ l). eapply emits_app; eauto.
Qed.

(** The first [k] elements of a sequence with more than [k] of them, and
    the call that hands out the one after. *)
Lemma emits_prefix l : forall k s s',
  emits m s l s' -> (k < length l)%nat ->
  exists v s2, nth_error l k = Some v /\ reaches m s (firstn k l) (yielded v) s2.
Proof.
  induction l as [|x l IH]; intros k s s' H Hk; simpl in Hk; [lia |].
  apply emits_cons_inv in H. destruct H as (sa & sb & Ha & Hb & Hc).
  destruct k as [|k].
  - exists x, sb. split; [reflexivity |]. exists sa. split; assumption.
  - assert (Hk' : (k < length l)%nat) by lia.
    destruct (IH k sb s' Hc Hk') as (v & s2 & Hn & (s1 & H1 & H2)).
    exists v, s2. split; [exact Hn |]. exists s1. split; [| exact H2].
    simpl. change (x :: firstn k l) with ([] ++ x :: firstn k l).
    eapply emits_app; [exact Ha |]. eapply emits_yield; eauto.
Qed.

Lemma drains_prefix l k s s' :
  drains m s l s' -> (k < length l)%nat ->
  exists v s2, nth_error l k = Some v /\ reaches m s (firstn k l) (yielded v) s2.
Proof. intros (s1 & H1 & _). eapply emits_prefix; eauto. Qed.

Lemma endless_prefix s f k :
  endless m s f ->
  exists s2, reaches m s (List.map f (seq 0 k)) (yielded (f k)) s2.
Proof.
  intros H. destruct (H (S k)) as (s' & Hs').
  rewrite seq_S, map_app in Hs'. simpl in Hs'.
  apply emits_app_inv in Hs'. destruct Hs' as (s1 & H1 & H2).
  apply emits_cons_inv in H2. destruct H2 as (sa & sb & Ha & Hb & _).
  exists sb, sa. split; [| exact Hb].
  rewrite <- (app_nil_r (List.map f (seq 0 k))). eapply emits_app; eauto.
Qed.

(** [next] and [pull] describe the same call. *)
Lemma pull_next s o s' : pull m s o s' -> exists fuel, next m fuel s = Some (o, s').
Proof.
  induction 1 as [s s1 o s2 Hs _ [fuel IH] | s r s1 Hs | s e s1 Hs].
  - exists (S fuel). simpl. rewrite Hs. exact IH.
  - exists 1%nat. simpl. rewrite Hs. reflexivity.
  - exists 1%nat. simpl. rewrite Hs. reflexivity.
Qed.

Lemma next_pull fuel : forall s o s', next m fuel s = Some (o, s') -> pull m s o s'.
Proof.
  induction fuel as [|fuel IH]; intros s o s' H; simpl in H; [discriminate |].
  destruct (step m s) as [r s1 | s1 | e s1] eqn:Hs.
  - injection H as <- <-. apply pull_emit, Hs.
  - eapply pull_skip; eauto.
  - injection H as <- <-. apply pull_throw, Hs.
Qed.

Lemma pull_deterministic s o s' :
  pull m s o s' -> forall o2 s2, pull m s o2 s2 -> o2 = o /\ s2 = s'.
Proof.
  induction 1 as [s s1 o s2 Hs _ IH | s r s1 Hs | s e s1 Hs];
    intros o2 s2' H2; inversion H2; subst; try congruence.
  - apply IH. congruence.
  - split; congruence.
  - split; congruence.
Qed.

Lemma reaches_pull s r s' : reaches m s [] r s' -> pull m s (Ok r) s'.
Proof.
  intros (s1 & H1 & H2). remember [] as l eqn:E.
  induction H1; try discriminate.
  - apply pull_emit, H2.
  - eapply pull_skip; eauto.
Qed.

(** A machine that is [sticky] reports exhaustion on every call that follows
    a report of exhaustion. *)
Lemma sticky_pull :
  sticky m -> forall s s', pull m s (Ok IteratorReturnResult) s' ->
  pull m s' (Ok IteratorReturnResult) s'.
Proof.
  intros Hst s s' H. remember (Ok IteratorReturnResult) as o eqn:E.
  induction H as [s s1 o s2 Hs _ IH | s r s1 Hs | s e s1 Hs]; subst.
  - apply IH. reflexivity.
  - injection E as ->. apply pull_emit. eapply Hst. exact Hs.
  - discriminate.
Qed.

Lemma sticky_pulls :
  sticky m -> forall s s', pull m s (Ok IteratorReturnResult) s' ->
  forall os s2, pulls m s' os s2 ->
  Forall (fun o => o = Ok IteratorReturnResult) os /\ s2 = s'.
Proof.
  intros Hst s s' H os s2 Hos.
  pose proof (sticky_pull Hst _ _ H) as Hfix.
  induction Hos as [s0 | s0 o s1 os s2 Ho _ IH].
  - split; [constructor | reflexivity].
  - destruct (pull_deterministic _ _ _ Hfix _ _ Ho) as [-> ->].
    destruct (IH H Hfix) as [IH1 IH2]. split; [constructor; auto | exact IH2].
Qed.
End Runs.

(** ** The terminal loops *)

Lemma fold_exc_total {X T : Type} (f : X -> T -> X) (l : list T) :
  forall acc, fold_exc (total2 f) l acc = Ok (fold_left f l acc).
Proof. induction l as [|x l IH]; intros acc; simpl; [reflexivity | apply IH]. Qed.

Lemma fold_left_snoc {T : Type} (l : list T) :
  forall acc, fold_left (fun prev curr => prev ++ [curr]) l acc = acc ++ l.
Proof.
  induction l as [|x l IH]; intros acc; simpl.
  - symmetry. apply app_nil_r.
  - rewrite IH, <- app_assoc. reflexivity.
Qed.

Lemma fold_exc_app {X T : Type} (func : X -> T -> Exc X) (l1 l2 : list T) :
  forall acc acc1, fold_exc func l1 acc = Ok acc1 ->
  fold_exc func (l1 ++ l2) acc = fold_exc func l2 acc1.
Proof.
  induction l1 as [|x l1 IH]; intros acc acc1 H; simpl in *.
  - congruence.
  - destruct (func acc x); [eauto | discriminate].
Qed.

Section SyncTerminal.
Context {T : Type} (this : Sync.Iter T).

Lemma reduce_loop_emits {X : Type} (func : X -> T -> Exc X) s l s1 :
  emits this s l s1 ->
  forall acc acc', fold_exc func l acc = Ok acc' ->
  exists n, forall fuel,
    Sync.reduce_loop this func (n + fuel) acc s = Sync.reduce_loop this func fuel acc' s1.
Proof.
  induction 1 as [s | s s1 l s2 Hs _ IH | s v s1 l s2 Hs _ IH]; intros acc acc' Hf.
  - exists O. intros fuel. simpl in *. congruence.
  - destruct (IH acc acc' Hf) as [n Hn]. exists (S n). intros fuel.
    simpl. rewrite Hs. apply Hn.
  - simpl in Hf. destruct (func acc v) as [a|e] eqn:Ef; [| discriminate].
    destruct (IH a acc' Hf) as [n Hn]. exists (S n). intros fuel.
    simpl. rewrite Hs. unfold yielded. rewrite Ef. apply Hn.
Qed.

Lemma reduce_loop_returns {X : Type} (func : X -> T -> Exc X) s l s' acc acc' :
  drains this s l s' -> fold_exc func l acc = Ok acc' ->
  exists fuel, Sync.reduce_loop this func fuel acc s = Returned acc' s'.
Proof.
  intros (s1 & He & Hs) Hf.
  destruct (reduce_loop_emits func _ _ _ He _ _ Hf) as [n Hn].
  exists (n + 1)%nat. rewrite Hn. simpl. rewrite Hs. reflexivity.
Qed.


(** The drained object throws after [l]. *)
Lemma reduce_loop_fails {X : Type} (func : X -> T -> Exc X) s l s' acc acc' e :
  fails this s l e s' -> fold_exc func l acc = Ok acc' ->
  exists fuel, Sync.reduce_loop this func fuel acc s = Thrown e s'.
Proof.
  intros (s1 & He & Hs) Hf.
  destruct (reduce_loop_emits func _ _ _ He _ _ Hf) as [n Hn].
  exists (n + 1)%nat. rewrite Hn. simpl. rewrite Hs. reflexivity.
Qed.

(** More fuel does not change an outcome that was reached. *)
Lemma reduce_loop_mono {X : Type} (func : X -> T -> Exc X) fuel :
  forall acc s fuel', (fuel <= fuel')%nat ->
  Sync.reduce_loop this func fuel acc s <> OutOfFuel ->
  Sync.reduce_loop this func fuel' acc s = Sync.reduce_loop this func fuel acc s.
Proof.
  induction fuel as [|fuel IH]; intros acc s fuel' Hle H; simpl in H; [congruence |].
  destruct fuel' as [|fuel']; [lia |]. simpl.
  destruct (step this s) as [[hd item|] s1 | s1 | e s1]; try reflexivity.
  - destruct (func acc item); [apply IH; [lia | exact H] | reflexivity].
  - apply IH; [lia | exact H].
Qed.

(** The outcome of a drain does not depend on the fuel that was enough. *)
Lemma reduce_loop_deterministic {X : Type} (func : X -> T -> Exc X) fuel1 fuel2 acc s :
  Sync.reduce_loop this func fuel1 acc s <> OutOfFuel ->
  Sync.reduce_loop this func fuel2 acc s <> OutOfFuel ->
  Sync.reduce_loop this func fuel1 acc s = Sync.reduce_loop this func fuel2 acc s.
Proof.
  intros H1 H2. destruct (Nat.le_ge_cases fuel1 fuel2) as [Hle | Hle].
  - symmetry. apply reduce_loop_mono; assumption.
  - apply reduce_loop_mono; assumption.
Qed.

Lemma collect_returns l s' :
  drains this (start this) l s' ->
  exists fuel, Sync.collect this fuel = Returned l s'.
Proof.
  intros H. unfold Sync.collect, Sync.reduce.
  eapply reduce_loop_returns in H; [exact H |].
  rewrite fold_exc_total, fold_left_snoc. reflexivity.
Qed.

Lemma collect_fails l e s' :
  fails this (start this) l e s' ->
  exists fuel, Sync.collect this fuel = Thrown e s'.
Proof.
  intros H. unfold Sync.collect, Sync.reduce.
  eapply reduce_loop_fails in H; [exact H |].
  rewrite fold_exc_total. reflexivity.
Qed.

Lemma reduce_returns {X : Type} (f : X -> T -> X) initial l s' :
  drains this (start this) l s' ->
  exists fuel, Sync.reduce this (total2 f) initial fuel = Returned (fold_left f l initial) s'.
Proof.
  intros H. unfold Sync.reduce.
  eapply reduce_loop_returns in H; [exact H | apply fold_exc_total].
Qed.

Lemma count_loop_emits s l s1 :
  emits this s l s1 ->
  forall c, exists n, forall fuel,
    Sync.count_loop this (n + fuel) c s
    = Sync.count_loop this fuel (c + Z.of_nat (length l))%Z s1.
Proof.
  induction 1 as [s | s s1 l s2 Hs _ IH | s v s1 l s2 Hs _ IH]; intros c.
  - exists O. intros fuel. simpl. rewrite Z.add_0_r. reflexivity.
  - destruct (IH c) as [n Hn]. exists (S n). intros fuel.
    simpl. rewrite Hs. apply Hn.
  - destruct (IH (c + 1)%Z) as [n Hn]. exists (S n). intros fuel.
    simpl Sync.count_loop. rewrite Hs. unfold yielded. rewrite Hn.
    f_equal. simpl length. lia.
Qed.

Lemma count_returns l s' :
  drains this (start this) l s' ->
  exists fuel, Sync.count this fuel = Returned (Z.of_nat (length l)) s'.
Proof.
  intros (s1 & He & Hs). destruct (count_loop_emits _ _ _ He 0%Z) as [n Hn].
  exists (n + 1)%nat. unfold Sync.count. rewrite Hn. simpl. rewrite Hs. reflexivity.
Qed.

Lemma forEach_loop_emits {W : Type} (func : T -> W -> W * Exc unit) s l s1 :
  emits this s l s1 ->
  forall w w', run_calls func l w = Some w' ->
  exists n, forall fuel,
    Sync.forEach_loop this func (n + fuel) w s = Sync.forEach_loop this func fuel w' s1.
Proof.
  induction 1 as [s | s s1 l s2 Hs _ IH | s v s1 l s2 Hs _ IH]; intros w w' Hf.
  - exists O. intros fuel. simpl in *. congruence.
  - destruct (IH w w' Hf) as [n Hn]. exists (S n). intros fuel.
    simpl. rewrite Hs. apply Hn.
  - simpl in Hf. destruct (func v w) as [w1 [u|e]] eqn:Ef; [| discriminate].
    destruct (IH w1 w' Hf) as [n Hn]. exists (S n). intros fuel.
    simpl. rewrite Hs. unfold yielded. rewrite Ef. apply Hn.
Qed.

Lemma forEach_returns {W : Type} (func : T -> W -> W * Exc unit) l s' w w' :
  drains this (start this) l s' -> run_calls func l w = Some w' ->
  exists fuel, Sync.forEach this func w fuel = (w', Returned tt s').
Proof.
  intros (s1 & He & Hs) Hf.
  destruct (forEach_loop_emits func _ _ _ He _ _ Hf) as [n Hn].
  exists (n + 1)%nat. unfold Sync.forEach. rewrite Hn. simpl. rewrite Hs. reflexivity.
Qed.

End SyncTerminal.

(** The loops of [AsyncIter] take the same steps as those of [Iter]. *)
Section AsyncTerminal.
Context {T : Type} (this : Async.AsyncIter T).

Lemma async_reduce_loop_eq {X : Type} (func : X -> T -> Exc X) fuel :
  forall acc s,
  Async.reduce_loop this func fuel acc s = Sync.reduce_loop this func fuel acc s.
Proof.
  (* the two loops are the same fixpoint, written once in each class *)
  intros. reflexivity.
Qed.

Lemma async_count_loop_eq fuel :
  forall c s, Async.count_loop this fuel c s = Sync.count_loop this fuel c s.
Proof.
  (* the two loops are the same fixpoint, written once in each class *)
  intros. reflexivity.
Qed.

Lemma async_forEach_loop_eq {W : Type} (func : T -> W -> W * Exc unit) fuel :
  forall w s,
  Async.forEach_loop this func fuel w s = Sync.forEach_loop this func fuel w s.
Proof.
  (* the two loops are the same fixpoint, written once in each class *)
  intros. reflexivity.
Qed.

Lemma async_collect_eq fuel : Async.collect this fuel = Sync.collect this fuel.
Proof. apply async_reduce_loop_eq. Qed.

Lemma async_collect_returns l s' :
  drains this (start this) l s' ->
  exists fuel, Async.collect this fuel = Returned l s'.
Proof.
  intros H. destruct (collect_returns this l s' H) as [fuel Hf].
  exists fuel. rewrite async_collect_eq. exact Hf.
Qed.


Lemma async_reduce_returns {X : Type} (f : X -> T -> X) initial l s' :
  drains this (start this) l s' ->
  exists fuel, Async.reduce this (total2 f) initial fuel = Returned (fold_left f l initial) s'.
Proof.
  intros H. destruct (reduce_returns this f initial l s' H) as [fuel Hf].
  exists fuel. unfold Async.reduce. rewrite async_reduce_loop_eq. exact Hf.
Qed.

Lemma async_count_returns l s' :
  drains this (start this) l s' ->
  exists fuel, Async.count this fuel = Returned (Z.of_nat (length l)) s'.
Proof.
  intros H. destruct (count_returns this l s' H) as [fuel Hf].
  exists fuel. unfold Async.count. rewrite async_count_loop_eq. exact Hf.
Qed.

Lemma async_forEach_returns {W : Type} (func : T -> W -> W * Exc unit) l s' w w' :
  drains this (start this) l s' -> run_calls func l w = Some w' ->
  exists fuel, Async.forEach this func w fuel = (w', Returned tt s').
Proof.
  intros H Hr. destruct (forEach_returns this func l s' w w' H Hr) as [fuel Hf].
  exists fuel. unfold Async.forEach. rewrite async_forEach_loop_eq. exact Hf.
Qed.
End AsyncTerminal.

(** ** The generators of [Iter] *)

(** Take one step of a generator whose captured iterator steps as [Hs] says. *)
Ltac turn Hs :=
  first
    [ eapply emits_skip; [cbn; rewrite Hs; cbn; reflexivity |]
    | eapply emits_yield; [cbn; rewrite Hs; cbn; reflexivity |] ].

Ltac turn_with Hs Hf :=
  first
    [ eapply emits_skip; [cbn; rewrite Hs; cbn; rewrite Hf; cbn; reflexivity |]
    | eapply emits_yield; [cbn; rewrite Hs; cbn; rewrite Hf; cbn; reflexivity |] ].

Section SyncFilter.
Context {T : Type} (predicate : T -> Exc bool) (p : T -> bool) (iter : Sync.Iter T).

Lemma filter_emits s l s' :
  emits iter s l s' -> Forall (fun v => predicate v = Ok (p v)) l ->
  emits (Sync.filter predicate iter) (Suspended s) (List.filter p l) (Suspended s').
Proof.
  induction 1 as [s | s s1 l s2 Hs _ IH | s v s1 l s2 Hs _ IH]; intros Hp.
  - constructor.
  - turn Hs. apply IH, Hp.
  - inversion Hp as [| ? ? Hv Hl]; subst. simpl.
    destruct (p v) eqn:E; try rewrite E in Hv; turn_with Hs Hv; apply IH, Hl.
Qed.

Lemma filter_drains s l s' :
  drains iter s l s' -> Forall (fun v => predicate v = Ok (p v)) l ->
  drains (Sync.filter predicate iter) (Suspended s) (List.filter p l) (Completed s').
Proof.
  intros (s1 & He & Hs) Hp. exists (Suspended s1).
  split; [apply filter_emits; assumption |]. cbn. rewrite Hs. reflexivity.
Qed.

End SyncFilter.

Section SyncFilterMap.
Context {T Output : Type} (func : T -> Exc (option Output)) (f : T -> option Output)
        (iter : Sync.Iter T).

Lemma filterMap_emits s l s' :
  emits iter s l s' -> Forall (fun v => func v = Ok (f v)) l ->
  emits (Sync.filterMap func iter) (Suspended s) (defined f l) (Suspended s').
Proof.
  induction 1 as [s | s s1 l s2 Hs _ IH | s v s1 l s2 Hs _ IH]; intros Hp.
  - constructor.
  - turn Hs. apply IH, Hp.
  - inversion Hp as [| ? ? Hv Hl]; subst. simpl.
    destruct (f v) eqn:E; try rewrite E in Hv; turn_with Hs Hv; apply IH, Hl.
Qed.

Lemma filterMap_drains s l s' :
  drains iter s l s' -> Forall (fun v => func v = Ok (f v)) l ->
  drains (Sync.filterMap func iter) (Suspended s) (defined f l) (Completed s').
Proof.
  intros (s1 & He & Hs) Hp. exists (Suspended s1).
  split; [apply filterMap_emits; assumption |]. cbn. rewrite Hs. reflexivity.
Qed.

End SyncFilterMap.

Section SyncMap.
Context {T Output : Type} (func : T -> Exc Output) (f : T -> Output)
        (iter : Sync.Iter T).

Lemma map_emits s l s' :
  emits iter s l s' -> Forall (fun v => func v = Ok (f v)) l ->
  emits (Sync.map func iter) (Suspended s) (List.map f l) (Suspended s').
Proof.
  induction 1 as [s | s s1 l s2 Hs _ IH | s v s1 l s2 Hs _ IH]; intros Hp.
  - constructor.
  - turn Hs. apply IH, Hp.
  - inversion Hp as [| ? ? Hv Hl]; subst. simpl.
    turn_with Hs Hv. apply IH, Hl.
Qed.

Lemma map_drains s l s' :
  drains iter s l s' -> Forall (fun v => func v = Ok (f v)) l ->
  drains (Sync.map func iter) (Suspended s) (List.map f l) (Completed s').
Proof.
  intros (s1 & He & Hs) Hp. exists (Suspended s1).
  split; [apply map_emits; assumption |]. cbn. rewrite Hs. reflexivity.
Qed.

End SyncMap.

Lemma Forall_total {A B : Type} (f : A -> B) (l : list A) :
  Forall (fun v => total f v = Ok (f v)) l.
Proof. apply Forall_forall. intros; reflexivity. Qed.

Section SyncEnumerate.
Context {T : Type} (iter : Sync.Iter T).

Lemma enumerate_emits s l s' :
  emits iter s l s' -> forall index,
  emits (Sync.enumerate iter)
    (Suspended (Sync.MkEnumerate iter index s)) (indexed index l)
    (Suspended (Sync.MkEnumerate iter (index + Z.of_nat (length l))%Z s')).
Proof.
  induction 1 as [s | s s1 l s2 Hs _ IH | s v s1 l s2 Hs _ IH]; intros index.
  - simpl. rewrite Z.add_0_r. constructor.
  - turn Hs. apply IH.
  - simpl indexed. turn Hs.
    replace (index + Z.of_nat (length (v :: l)))%Z
      with (index + 1 + Z.of_nat (length l))%Z by (simpl length; lia).
    apply IH.
Qed.

Lemma enumerate_drains l s' :
  drains iter (start iter) l s' ->
  drains (Sync.enumerate iter) (start (Sync.enumerate iter)) (indexed 0 l)
    (Completed (Sync.MkEnumerate iter (Z.of_nat (length l)) s')).
Proof.
  intros (s1 & He & Hs).
  exists (Suspended (Sync.MkEnumerate iter (0 + Z.of_nat (length l))%Z s1)).
  split; [apply enumerate_emits; assumption |]. cbn. rewrite Hs. reflexivity.
Qed.
End SyncEnumerate.

Section SyncTake.
Context {T : Type} (limit : Z) (iter : Sync.Iter T).

Lemma take_emits s l s' :
  emits iter s l s' -> forall count,
  l = [] \/ (count + Z.of_nat (length l) <= limit)%Z ->
  emits (Sync.take limit iter)
    (Suspended (Sync.MkTake iter count s)) l
    (Suspended (Sync.MkTake iter (count + Z.of_nat (length l))%Z s')).
Proof.
  induction 1 as [s | s s1 l s2 Hs _ IH | s v s1 l s2 Hs _ IH]; intros count Hc.
  - simpl. rewrite Z.add_0_r. constructor.
  - turn Hs. apply IH, Hc.
  - destruct Hc as [Hc | Hc]; [discriminate |]. simpl length in *.
    assert (Hgt : (count + 1 >? limit)%Z = false) by lia.
    turn_with Hs Hgt.
    replace (count + Z.of_nat (S (length l)))%Z
      with (count + 1 + Z.of_nat (length l))%Z by lia.
    apply IH. right. lia.
Qed.

(** The parent ends within the limit: [take] ends with it. *)
Lemma take_drains_short l s' :
  drains iter (start iter) l s' -> (length l <= Z.to_nat limit)%nat ->
  drains (Sync.take limit iter) (start (Sync.take limit iter)) l
    (Completed (Sync.MkTake iter (Z.of_nat (length l)) s')).
Proof.
  intros (s1 & He & Hs) Hl.
  exists (Suspended (Sync.MkTake iter (0 + Z.of_nat (length l))%Z s1)).
  split.
  - apply take_emits; [assumption |].
    destruct l; [left; reflexivity | right; simpl length in *; lia].
  - cbn. rewrite Hs. reflexivity.
Qed.

(** The parent has an element [x] beyond the limit: the generator has to
    receive it to leave its loop. *)
Lemma take_drains_long l x s' :
  reaches iter (start iter) l (yielded x) s' -> Z.of_nat (length l) = Z.max 0 limit ->
  drains (Sync.take limit iter) (start (Sync.take limit iter)) l
    (Completed (Sync.MkTake iter (Z.of_nat (length l) + 1)%Z s')).
Proof.
  intros (s1 & He & Hs) Hl.
  exists (Suspended (Sync.MkTake iter (0 + Z.of_nat (length l))%Z s1)).
  split.
  - apply take_emits; [assumption |].
    destruct l; [left; reflexivity | right; simpl length in *; lia].
  - cbn. rewrite Hs. cbn.
    assert (Hgt : (Z.of_nat (length l) + 1 >? limit)%Z = true) by lia.
    rewrite Hgt. reflexivity.
Qed.
End SyncTake.

Section SyncSkip.
Context {T : Type} (items : Z) (iter : Sync.Iter T).

Lemma skip_emits s l s' :
  emits iter s l s' -> forall count,
  emits (Sync.skip items iter)
    (Suspended (Sync.MkSkip iter count s)) (skipn (Z.to_nat (items - count)) l)
    (Suspended (Sync.MkSkip iter (count + Z.of_nat (length l))%Z s')).
Proof.
  induction 1 as [s | s s1 l s2 Hs _ IH | s v s1 l s2 Hs _ IH]; intros count.
  - simpl. rewrite Z.add_0_r, skipn_nil. constructor.
  - turn Hs. apply IH.
  - replace (count + Z.of_nat (length (v :: l)))%Z
      with (count + 1 + Z.of_nat (length l))%Z by (simpl length; lia).
    destruct (Z.leb_spec (count + 1) items) as [Hle | Hgt].
    + assert (Hb : (count + 1 <=? items)%Z = true) by lia.
      replace (Z.to_nat (items - count)) with (S (Z.to_nat (items - (count + 1)))) by lia.
      simpl skipn. turn_with Hs Hb. apply IH.
    + assert (Hb : (count + 1 <=? items)%Z = false) by lia.
      replace (Z.to_nat (items - count)) with O by lia.
      simpl skipn. turn_with Hs Hb.
      specialize (IH (count + 1)%Z).
      replace (Z.to_nat (items - (count + 1))) with O in IH by lia. exact IH.
Qed.

Lemma skip_drains l s' :
  drains iter (start iter) l s' ->
  drains (Sync.skip items iter) (start (Sync.skip items iter))
    (skipn (Z.to_nat items) l)
    (Completed (Sync.MkSkip iter (Z.of_nat (length l)) s')).
Proof.
  intros (s1 & He & Hs).
  exists (Suspended (Sync.MkSkip iter (0 + Z.of_nat (length l))%Z s1)).
  split; [| cbn; rewrite Hs; reflexivity].
  pose proof (skip_emits _ _ _ He 0%Z) as H.
  rewrite Z.sub_0_r in H. exact H.
Qed.
End SyncSkip.

Section SyncFlat.
Context {E : Type} (iter : Sync.Iter (list E)).

Lemma flat_inner rest : forall s,
  emits (Sync.flat iter) (Suspended (Sync.FlatInner iter rest s)) rest
    (Suspended (Sync.FlatLoop iter s)).
Proof.
  induction rest as [|x rest IH]; intros s.
  - apply emits_step_nil. reflexivity.
  - eapply emits_yield; [reflexivity | apply IH].
Qed.

Lemma flat_emits s ls s' :
  emits iter s ls s' ->
  emits (Sync.flat iter) (Suspended (Sync.FlatLoop iter s)) (concat ls)
    (Suspended (Sync.FlatLoop iter s')).
Proof.
  induction 1 as [s | s s1 l s2 Hs _ IH | s v s1 l s2 Hs _ IH].
  - constructor.
  - turn Hs. exact IH.
  - simpl concat. turn Hs. eapply emits_app; [apply flat_inner | exact IH].
Qed.

Lemma flat_drains ls s' :
  drains iter (start iter) ls s' ->
  drains (Sync.flat iter) (start (Sync.flat iter)) (concat ls)
    (Completed (Sync.FlatLoop iter s')).
Proof.
  intros (s1 & He & Hs). exists (Suspended (Sync.FlatLoop iter s1)).
  split; [apply flat_emits; assumption |]. cbn. rewrite Hs. reflexivity.
Qed.
End SyncFlat.

Section SyncRepeatWith.
Context {T : Type} (f : Z -> T).

Lemma repeatWith_emits k : forall index,
  emits (Sync.repeatWith (total f)) (Suspended index)
    (List.map (fun n => f (index + Z.of_nat n)%Z) (seq 0 k))
    (Suspended (index + Z.of_nat k)%Z).
Proof.
  induction k as [|k IH]; intros index.
  - simpl. rewrite Z.add_0_r. constructor.
  - rewrite seq_S, map_app. simpl.
    eapply emits_snoc; [apply IH |]. cbn.
    replace (index + Z.of_nat k + 1)%Z with (index + Z.pos (Pos.of_succ_nat k))%Z by lia.
    reflexivity.
Qed.

Lemma repeatWith_endless :
  endless (Sync.repeatWith (total f)) (start (Sync.repeatWith (total f)))
    (fun n => f (Z.of_nat n)).
Proof.
  intros k. exists (Suspended (0 + Z.of_nat k)%Z).
  exact (repeatWith_emits k 0%Z).
Qed.
End SyncRepeatWith.

Section SyncChain.
Context {T : Type}.

Lemma sync_operands_head (m : Sync.Iter T) rest s l s' :
  emits m s l s' ->
  emits (sync_operands (m :: rest)) (inl s) l (inl s').
Proof.
  induction 1 as [s | s s1 l s2 Hs _ IH | s v s1 l s2 Hs _ IH].
  - constructor.
  - turn Hs. exact IH.
  - turn Hs. exact IH.
Qed.

Lemma sync_operands_tail (m : Sync.Iter T) rest f l f' :
  emits (sync_operands rest) f l f' ->
  emits (sync_operands (m :: rest)) (inr f) l (inr f').
Proof.
  induction 1 as [s | s s1 l s2 Hs _ IH | s v s1 l s2 Hs _ IH].
  - constructor.
  - cbn in Hs. turn Hs. exact IH.
  - cbn in Hs. turn Hs. exact IH.
Qed.

Lemma sync_operands_drains (operands : list (Sync.Iter T)) ls :
  Forall2 (fun m l => exists s', drains m (start m) l s') operands ls ->
  exists f', drains (sync_operands operands) (Sync.chain_enter operands) (concat ls) f'.
Proof.
  induction 1 as [| m l operands ls (s' & s1 & He & Hs) _ (f' & f1 & IHe & IHs)].
  - exists tt, tt. split; [constructor | reflexivity].
  - exists (inr f'), (inr f1). split.
    + simpl concat. eapply emits_app; [apply sync_operands_head, He |].
      eapply emits_skip; [cbn; rewrite Hs; reflexivity |].
      apply sync_operands_tail, IHe.
    + cbn in IHs. cbn. rewrite IHs. reflexivity.
Qed.

Lemma chain_emits (iter : Sync.Iter T) next f l f' :
  emits (sync_operands (iter :: next)) f l f' ->
  emits (Sync.chain iter next) (Suspended f) l (Suspended f').
Proof.
  induction 1 as [s | s s1 l s2 Hs _ IH | s v s1 l s2 Hs _ IH].
  - constructor.
  - change (Sync.chain_body (iter :: next) s = Skip s1) in Hs.
    eapply emits_skip; [| exact IH].
    change (@Sync.chain_step T iter next (Suspended s) = Skip (Suspended s1)).
    unfold Sync.chain_step. rewrite Hs. reflexivity.
  - change (Sync.chain_body (iter :: next) s = Emit (yielded v) s1) in Hs.
    eapply emits_yield; [| exact IH].
    change (@Sync.chain_step T iter next (Suspended s) = Emit (yielded v) (Suspended s1)).
    unfold Sync.chain_step. rewrite Hs. reflexivity.
Qed.

Lemma chain_drains (iter : Sync.Iter T) next l ls :
  (exists s', drains iter (start iter) l s') ->
  Forall2 (fun m l => exists s', drains m (start m) l s') next ls ->
  exists g, drains (Sync.chain iter next) (start (Sync.chain iter next))
              (l ++ concat ls) g.
Proof.
  intros H0 H.
  destruct (sync_operands_drains (iter :: next) (l :: ls)) as (f' & f1 & He & Hs).
  { constructor; assumption. }
  exists (Completed f'), (Suspended f1). split.
  - apply chain_emits. exact He.
  - change (Sync.chain_body (iter :: next) f1 = Emit IteratorReturnResult f') in Hs.
    change (@Sync.chain_step T iter next (Suspended f1)
            = Emit IteratorReturnResult (Completed f')).
    unfold Sync.chain_step. rewrite Hs. reflexivity.
Qed.
End SyncChain.

Section SyncZip.
Context {T : Type} (iter right : Sync.Iter T).

Lemma zip_left_skips sl sa sr :
  emits iter sl [] sa ->
  emits (Sync.zip iter right) (Suspended (Sync.ZipLeft iter right sl sr)) []
    (Suspended (Sync.ZipLeft iter right sa sr)).
Proof.
  intros H. remember [] as l eqn:E.
  induction H as [s | s s1 l s2 Hs _ IH | s v s1 l s2 Hs _ IH]; try discriminate.
  - constructor.
  - turn Hs. apply IH, E.
Qed.

Lemma zip_right_skips leftResult sl sr sb :
  emits right sr [] sb ->
  emits (Sync.zip iter right) (Suspended (Sync.ZipRight iter right leftResult sl sr)) []
    (Suspended (Sync.ZipRight iter right leftResult sl sb)).
Proof.
  intros H. remember [] as l eqn:E.
  induction H as [s | s s1 l s2 Hs _ IH | s v s1 l s2 Hs _ IH]; try discriminate.
  - constructor.
  - turn Hs. apply IH, E.
Qed.

(** The two calls of one turn, up to the point where both results are in. *)
Lemma zip_turn sl sa rl sl' sr sb :
  emits iter sl [] sa -> step iter sa = Emit rl sl' ->
  emits right sr [] sb ->
  emits (Sync.zip iter right) (Suspended (Sync.ZipLeft iter right sl sr)) []
    (Suspended (Sync.ZipRight iter right rl sl' sb)).
Proof.
  intros Ha Hl Hb.
  change (@nil (T * T)) with (@nil (T * T) ++ []).
  eapply emits_app; [apply zip_left_skips, Ha |].
  eapply emits_skip; [cbn; rewrite Hl; reflexivity |].
  apply zip_right_skips, Hb.
Qed.

Lemma zip_emits la : forall lb sl sl1 sr sr1,
  emits iter sl la sl1 -> emits right sr lb sr1 -> length la = length lb ->
  exists sl2 sr2,
    emits (Sync.zip iter right) (Suspended (Sync.ZipLeft iter right sl sr))
      (combine la lb) (Suspended (Sync.ZipLeft iter right sl2 sr2))
    /\ emits iter sl2 [] sl1 /\ emits right sr2 [] sr1.
Proof.
  induction la as [|a la IH]; intros lb sl sl1 sr sr1 Hl Hr Hlen.
  - destruct lb; [| discriminate]. exists sl, sr. repeat split; auto. constructor.
  - destruct lb as [|b lb]; [discriminate |].
    apply emits_cons_inv in Hl. destruct Hl as (sa & sa' & Ha & Hsa & Hl).
    apply emits_cons_inv in Hr. destruct Hr as (sb & sb' & Hb & Hsb & Hr).
    injection Hlen as Hlen.
    destruct (IH lb sa' sl1 sb' sr1 Hl Hr Hlen) as (sl2 & sr2 & Hz & H1 & H2).
    exists sl2, sr2. repeat split; auto.
    simpl combine. change ((a, b) :: combine la lb) with ([] ++ (a, b) :: combine la lb).
    eapply emits_app; [eapply zip_turn; eauto |].
    eapply emits_yield; [cbn; rewrite Hsb; reflexivity | exact Hz].
Qed.

(** Both sides are called once more after the pairs; one of the two calls
    reports exhaustion. *)
Lemma zip_drains la lb sl rl sl' sr rr sr' :
  reaches iter sl la rl sl' -> reaches right sr lb rr sr' ->
  length la = length lb ->
  rl = IteratorReturnResult \/ rr = IteratorReturnResult ->
  drains (Sync.zip iter right) (Suspended (Sync.ZipLeft iter right sl sr))
    (combine la lb) (Completed (Sync.ZipLeft iter right sl' sr')).
Proof.
  intros (sl1 & Hl & Hsl) (sr1 & Hr & Hsr) Hlen Hend.
  destruct (zip_emits la lb sl sl1 sr sr1 Hl Hr Hlen) as (sl2 & sr2 & Hz & H1 & H2).
  exists (Suspended (Sync.ZipRight iter right rl sl' sr1)). split.
  - rewrite <- (app_nil_r (combine la lb)).
    eapply emits_app; [exact Hz |]. eapply zip_turn; eauto.
  - cbn. rewrite Hsr. cbn.
    destruct Hend as [-> | ->]; [reflexivity |].
    rewrite orb_true_r. reflexivity.
Qed.
End SyncZip.

(** ** Raw sources behind [new Iter] *)

Section SyncNew.
Context {T : Type} (inner : Iterator T).

Lemma new_step s r s' :
  step (Sync.new inner) s = Emit r s' <-> inext inner s = (Ok r, s').
Proof.
  cbn. destruct (inext inner s) as [[r0 | e] s0]; split; intros H;
    try discriminate; congruence.
Qed.

Lemma new_no_skip s s' : step (Sync.new inner) s <> Skip s'.
Proof. cbn. destruct (inext inner s) as [[r0 | e] s0]; discriminate. Qed.

(** Every element costs the source exactly one call. *)
Lemma new_spy_emits s l s' :
  emits (Sync.new inner) s l s' ->
  forall c, emits (Sync.new (spy inner)) (s, c) l (s', (c + length l)%nat).
Proof.
  induction 1 as [s | s s1 l s2 Hs _ IH | s v s1 l s2 Hs _ IH]; intros c.
  - simpl. rewrite Nat.add_0_r. constructor.
  - exfalso. exact (new_no_skip _ _ Hs).
  - apply new_step in Hs.
    eapply emits_yield; [cbn; rewrite Hs; reflexivity |].
    replace (c + length (v :: l))%nat with (S c + length l)%nat by (simpl; lia).
    apply IH.
Qed.

Lemma new_spy_reaches s l r s' c :
  reaches (Sync.new inner) s l r s' ->
  reaches (Sync.new (spy inner)) (s, c) l r (s', S (c + length l)).
Proof.
  intros (s1 & He & Hs). exists (s1, (c + length l)%nat).
  split; [apply new_spy_emits, He |].
  apply new_step in Hs. cbn. rewrite Hs. reflexivity.
Qed.

End SyncNew.

(** A run of a spied source is a run of the source. *)
Lemma spy_new_emits {T : Type} (inner : Iterator T) sc l sc' :
  emits (Sync.new (spy inner)) sc l sc' ->
  emits (Sync.new inner) (fst sc) l (fst sc') /\ snd sc' = (snd sc + length l)%nat.
Proof.
  induction 1 as [s | s s1 l s2 Hs _ IH | s v s1 l s2 Hs _ IH].
  - split; [constructor | simpl; lia].
  - exfalso. exact (new_no_skip (spy inner) _ _ Hs).
  - destruct IH as [IH1 IH2]. cbn in Hs.
    destruct (inext inner (fst s)) as [[r0 | e] s0] eqn:E; try discriminate.
    injection Hs as -> <-. simpl in *. split; [| lia].
    eapply emits_yield; [cbn; rewrite E; reflexivity | exact IH1].
Qed.

Lemma values_drains {T : Type} (items : list T) : forall rest : list T,
  drains (Sync.new (values items)) rest rest [].
Proof.
  intros rest. exists []. split; [| reflexivity].
  induction rest as [|x rest IH]; [constructor |].
  eapply emits_yield; [reflexivity | exact IH].
Qed.

(** ** The generators of [AsyncIter] *)

Lemma promise_eta {A : Type} (p : Async.Promise A) :
  p = Async.MkPromise (Async.ticks p) (Async.settled p).
Proof. destruct p; reflexivity. Qed.

Section AsyncFilter.
Context {T : Type} (predicate : T -> Async.Promise bool) (p : T -> bool)
        (iter : Async.AsyncIter T).

(** The turns spent at [await predicate(item)]. *)
Lemma filter_await n : forall b item s,
  emits (Async.filter predicate iter)
    (Suspended (Async.FilterAwait iter (Async.MkPromise n (Ok b)) item s))
    (if b then [item] else []) (Suspended (Async.FilterLoop iter s)).
Proof.
  induction n as [|n IH]; intros b item s.
  - destruct b; [apply emits_step_one | apply emits_step_nil]; reflexivity.
  - eapply emits_skip; [reflexivity | apply IH].
Qed.

Lemma async_filter_emits s l s' :
  emits iter s l s' -> Forall (fun v => Async.settled (predicate v) = Ok (p v)) l ->
  emits (Async.filter predicate iter) (Suspended (Async.FilterLoop iter s))
    (List.filter p l) (Suspended (Async.FilterLoop iter s')).
Proof.
  induction 1 as [s | s s1 l s2 Hs _ IH | s v s1 l s2 Hs _ IH]; intros Hp.
  - constructor.
  - turn Hs. apply IH, Hp.
  - inversion Hp as [| ? ? Hv Hl]; subst. simpl List.filter.
    turn Hs. rewrite (promise_eta (predicate v)), Hv.
    replace (if p v then v :: List.filter p l else List.filter p l)
      with ((if p v then [v] else []) ++ List.filter p l) by (destruct (p v); reflexivity).
    eapply emits_app; [apply filter_await | apply IH, Hl].
Qed.

Lemma async_filter_drains s l s' :
  drains iter s l s' -> Forall (fun v => Async.settled (predicate v) = Ok (p v)) l ->
  drains (Async.filter predicate iter) (Suspended (Async.FilterLoop iter s))
    (List.filter p l) (Completed (Async.FilterLoop iter s')).
Proof.
  intros (s1 & He & Hs) Hp. exists (Suspended (Async.FilterLoop iter s1)).
  split; [apply async_filter_emits; assumption |]. cbn. rewrite Hs. reflexivity.
Qed.


End AsyncFilter.

Section AsyncFilterMap.
Context {T Output : Type} (func : T -> Async.Promise (option Output))
        (f : T -> option Output) (iter : Async.AsyncIter T).

Lemma filterMap_await n : forall o s,
  emits (Async.filterMap func iter)
    (Suspended (Async.FilterMapAwait iter (Async.MkPromise n (Ok o)) s))
    (match o with Some y => [y] | None => [] end)
    (Suspended (Async.FilterMapLoop iter s)).
Proof.
  induction n as [|n IH]; intros o s.
  - destruct o; [apply emits_step_one | apply emits_step_nil]; reflexivity.
  - eapply emits_skip; [reflexivity | apply IH].
Qed.

Lemma async_filterMap_emits s l s' :
  emits iter s l s' -> Forall (fun v => Async.settled (func v) = Ok (f v)) l ->
  emits (Async.filterMap func iter) (Suspended (Async.FilterMapLoop iter s))
    (defined f l) (Suspended (Async.FilterMapLoop iter s')).
Proof.
  induction 1 as [s | s s1 l s2 Hs _ IH | s v s1 l s2 Hs _ IH]; intros Hp.
  - constructor.
  - turn Hs. apply IH, Hp.
  - inversion Hp as [| ? ? Hv Hl]; subst. simpl defined.
    turn Hs. rewrite (promise_eta (func v)), Hv.
    replace (match f v with Some y => y :: defined f l | None => defined f l end)
      with ((match f v with Some y => [y] | None => [] end) ++ defined f l)
      by (destruct (f v); reflexivity).
    eapply emits_app; [apply filterMap_await | apply IH, Hl].
Qed.

Lemma async_filterMap_drains s l s' :
  drains iter s l s' -> Forall (fun v => Async.settled (func v) = Ok (f v)) l ->
  drains (Async.filterMap func iter) (Suspended (Async.FilterMapLoop iter s))
    (defined f l) (Completed (Async.FilterMapLoop iter s')).
Proof.
  intros (s1 & He & Hs) Hp. exists (Suspended (Async.FilterMapLoop iter s1)).
  split; [apply async_filterMap_emits; assumption |]. cbn. rewrite Hs. reflexivity.
Qed.


End AsyncFilterMap.

Section AsyncMap.
Context {T Output : Type} (func : T -> Async.Promise Output) (f : T -> Output)
        (iter : Async.AsyncIter T).

Lemma map_await n : forall y s,
  emits (Async.map func iter)
    (Suspended (Async.MapAwait iter (Async.MkPromise n (Ok y)) s))
    [y] (Suspended (Async.MapLoop iter s)).
Proof.
  induction n as [|n IH]; intros y s.
  - apply emits_step_one. reflexivity.
  - eapply emits_skip; [reflexivity | apply IH].
Qed.

Lemma async_map_emits s l s' :
  emits iter s l s' -> Forall (fun v => Async.settled (func v) = Ok (f v)) l ->
  emits (Async.map func iter) (Suspended (Async.MapLoop iter s))
    (List.map f l) (Suspended (Async.MapLoop iter s')).
Proof.
  induction 1 as [s | s s1 l s2 Hs _ IH | s v s1 l s2 Hs _ IH]; intros Hp.
  - constructor.
  - turn Hs. apply IH, Hp.
  - inversion Hp as [| ? ? Hv Hl]; subst. simpl List.map.
    turn Hs. rewrite (promise_eta (func v)), Hv.
    change (f v :: List.map f l) with ([f v] ++ List.map f l).
    eapply emits_app; [apply map_await | apply IH, Hl].
Qed.

Lemma async_map_drains s l s' :
  drains iter s l s' -> Forall (fun v => Async.settled (func v) = Ok (f v)) l ->
  drains (Async.map func iter) (Suspended (Async.MapLoop iter s))
    (List.map f l) (Completed (Async.MapLoop iter s')).
Proof.
  intros (s1 & He & Hs) Hp. exists (Suspended (Async.MapLoop iter s1)).
  split; [apply async_map_emits; assumption |]. cbn. rewrite Hs. reflexivity.
Qed.


End AsyncMap.

(** The turns spent at a [yield] whose operand is awaited. *)
Section AsyncFilterSync.
Context {T : Type} (predicate : T -> Exc bool) (p : T -> bool)
        (iter : Async.AsyncIter T).

Lemma filterSync_yield n : forall y s,
  emits (Async.filterSync predicate iter)
    (Suspended (Async.FilterSyncYield iter (Async.MkPromise n (Ok y)) s))
    [y] (Suspended (Async.FilterSyncLoop iter s)).
Proof.
  induction n as [|n IH]; intros y s.
  - apply emits_step_one. reflexivity.
  - eapply emits_skip; [reflexivity | apply IH].
Qed.

Lemma filterSync_emits s l s' :
  emits iter s l s' -> Forall (fun v => predicate v = Ok (p v)) l ->
  emits (Async.filterSync predicate iter) (Suspended (Async.FilterSyncLoop iter s))
    (List.filter p l) (Suspended (Async.FilterSyncLoop iter s')).
Proof.
  induction 1 as [s | s s1 l s2 Hs _ IH | s v s1 l s2 Hs _ IH]; intros Hp.
  - constructor.
  - turn Hs. apply IH, Hp.
  - inversion Hp as [| ? ? Hv Hl]; subst. simpl List.filter.
    destruct (p v) eqn:E; rewrite ?E in Hv; turn_with Hs Hv; [| apply IH, Hl].
    change (v :: List.filter p l) with ([v] ++ List.filter p l).
    eapply emits_app; [apply filterSync_yield | apply IH, Hl].
Qed.

Lemma filterSync_drains s l s' :
  drains iter s l s' -> Forall (fun v => predicate v = Ok (p v)) l ->
  drains (Async.filterSync predicate iter) (Suspended (Async.FilterSyncLoop iter s))
    (List.filter p l) (Completed (Async.FilterSyncLoop iter s')).
Proof.
  intros (s1 & He & Hs) Hp. exists (Suspended (Async.FilterSyncLoop iter s1)).
  split; [apply filterSync_emits; assumption |]. cbn. rewrite Hs. reflexivity.
Qed.

End AsyncFilterSync.

Section AsyncFilterMapSync.
Context {T Output : Type} (func : T -> Exc (option (Async.Awaitable Output)))
        (f : T -> option Output) (iter : Async.AsyncIter T).

Lemma filterMapSync_yield n : forall y s,
  emits (Async.filterMapSync func iter)
    (Suspended (Async.FilterMapSyncYield iter (Async.MkPromise n (Ok y)) s))
    [y] (Suspended (Async.FilterMapSyncLoop iter s)).
Proof.
  induction n as [|n IH]; intros y s.
  - apply emits_step_one. reflexivity.
  - eapply emits_skip; [reflexivity | apply IH].
Qed.

Lemma filterMapSync_emits s l s' :
  emits iter s l s' ->
  Forall (fun v => exists o, func v = Ok o /\ settles_defined o (f v)) l ->
  emits (Async.filterMapSync func iter) (Suspended (Async.FilterMapSyncLoop iter s))
    (defined f l) (Suspended (Async.FilterMapSyncLoop iter s')).
Proof.
  induction 1 as [s | s s1 l s2 Hs _ IH | s v s1 l s2 Hs _ IH]; intros Hp.
  - constructor.
  - turn Hs. apply IH, Hp.
  - inversion Hp as [| ? ? (o & Hv & Ho) Hl]; subst. simpl defined.
    destruct o as [a |]; simpl in Ho.
    + destruct Ho as (y & Hy & ->). turn_with Hs Hv.
      rewrite (promise_eta (Async.awaited a)), Hy.
      change (y :: defined f l) with ([y] ++ defined f l).
      eapply emits_app; [apply filterMapSync_yield | apply IH, Hl].
    + rewrite Ho. turn_with Hs Hv. apply IH, Hl.
Qed.

Lemma filterMapSync_drains s l s' :
  drains iter s l s' ->
  Forall (fun v => exists o, func v = Ok o /\ settles_defined o (f v)) l ->
  drains (Async.filterMapSync func iter) (Suspended (Async.FilterMapSyncLoop iter s))
    (defined f l) (Completed (Async.FilterMapSyncLoop iter s')).
Proof.
  intros (s1 & He & Hs) Hp. exists (Suspended (Async.FilterMapSyncLoop iter s1)).
  split; [apply filterMapSync_emits; assumption |]. cbn. rewrite Hs. reflexivity.
Qed.

End AsyncFilterMapSync.

Section AsyncMapSync.
Context {T Output : Type} (func : T -> Exc (Async.Awaitable Output))
        (f : T -> Output) (iter : Async.AsyncIter T).

Lemma mapSync_yield n : forall y s,
  emits (Async.mapSync func iter)
    (Suspended (Async.MapSyncYield iter (Async.MkPromise n (Ok y)) s))
    [y] (Suspended (Async.MapSyncLoop iter s)).
Proof.
  induction n as [|n IH]; intros y s.
  - apply emits_step_one. reflexivity.
  - eapply emits_skip; [reflexivity | apply IH].
Qed.

Lemma mapSync_emits s l s' :
  emits iter s l s' ->
  Forall (fun v => exists a, func v = Ok a /\ settles_to a (f v)) l ->
  emits (Async.mapSync func iter) (Suspended (Async.MapSyncLoop iter s))
    (List.map f l) (Suspended (Async.MapSyncLoop iter s')).
Proof.
  induction 1 as [s | s s1 l s2 Hs _ IH | s v s1 l s2 Hs _ IH]; intros Hp.
  - constructor.
  - turn Hs. apply IH, Hp.
  - inversion Hp as [| ? ? (a & Hv & Ha) Hl]; subst. simpl List.map.
    turn_with Hs Hv. rewrite (promise_eta (Async.awaited a)), Ha.
    change (f v :: List.map f l) with ([f v] ++ List.map f l).
    eapply emits_app; [apply mapSync_yield | apply IH, Hl].
Qed.

Lemma mapSync_drains s l s' :
  drains iter s l s' ->
  Forall (fun v => exists a, func v = Ok a /\ settles_to a (f v)) l ->
  drains (Async.mapSync func iter) (Suspended (Async.MapSyncLoop iter s))
    (List.map f l) (Completed (Async.MapSyncLoop iter s')).
Proof.
  intros (s1 & He & Hs) Hp. exists (Suspended (Async.MapSyncLoop iter s1)).
  split; [apply mapSync_emits; assumption |]. cbn. rewrite Hs. reflexivity.
Qed.



End AsyncMapSync.

Lemma Forall_returning {A B : Type} (f : A -> B) (l : list A) :
  Forall (fun v => exists a, Async.returning f v = Ok a /\ settles_to a (f v)) l.
Proof. apply Forall_forall. intros; eexists; split; reflexivity. Qed.

Lemma Forall_promising {A B : Type} (latency : A -> nat) (f : A -> B) (l : list A) :
  Forall (fun v => exists a, Async.promising latency f v = Ok a /\ settles_to a (f v)) l.
Proof. apply Forall_forall. intros; eexists; split; reflexivity. Qed.

Lemma Forall_returning_defined {A B : Type} (f : A -> option B) (l : list A) :
  Forall (fun v => exists o, Async.returning_defined f v = Ok o
                             /\ settles_defined o (f v)) l.
Proof.
  apply Forall_forall. intros v _. eexists; split; [reflexivity |].
  destruct (f v) as [y |]; simpl; [exists y; split; reflexivity | reflexivity].
Qed.

Lemma Forall_suspending {A B : Type} (latency : A -> nat) (f : A -> B) (l : list A) :
  Forall (fun v => Async.settled (Async.suspending latency f v) = Ok (f v)) l.
Proof. apply Forall_forall. intros; reflexivity. Qed.

Section AsyncEnumerate.
Context {T : Type} (iter : Async.AsyncIter T).

Lemma async_enumerate_emits s l s' :
  emits iter s l s' -> forall index,
  emits (Async.enumerate iter)
    (Suspended (Async.MkEnumerate iter index s)) (indexed index l)
    (Suspended (Async.MkEnumerate iter (index + Z.of_nat (length l))%Z s')).
Proof.
  induction 1 as [s | s s1 l s2 Hs _ IH | s v s1 l s2 Hs _ IH]; intros index.
  - simpl. rewrite Z.add_0_r. constructor.
  - turn Hs. apply IH.
  - simpl indexed. turn Hs.
    replace (index + Z.of_nat (length (v :: l)))%Z
      with (index + 1 + Z.of_nat (length l))%Z by (simpl length; lia).
    apply IH.
Qed.

Lemma async_enumerate_drains l s' :
  drains iter (start iter) l s' ->
  drains (Async.enumerate iter) (start (Async.enumerate iter)) (indexed 0 l)
    (Completed (Async.MkEnumerate iter (Z.of_nat (length l)) s')).
Proof.
  intros (s1 & He & Hs).
  exists (Suspended (Async.MkEnumerate iter (0 + Z.of_nat (length l))%Z s1)).
  split; [apply async_enumerate_emits; assumption |]. cbn. rewrite Hs. reflexivity.
Qed.
End AsyncEnumerate.

Section AsyncTake.
Context {T : Type} (limit : Z) (iter : Async.AsyncIter T).

Lemma async_take_emits s l s' :
  emits iter s l s' -> forall count,
  l = [] \/ (count + Z.of_nat (length l) <= limit)%Z ->
  emits (Async.take limit iter)
    (Suspended (Async.MkTake iter count s)) l
    (Suspended (Async.MkTake iter (count + Z.of_nat (length l))%Z s')).
Proof.
  induction 1 as [s | s s1 l s2 Hs _ IH | s v s1 l s2 Hs _ IH]; intros count Hc.
  - simpl. rewrite Z.add_0_r. constructor.
  - turn Hs. apply IH, Hc.
  - destruct Hc as [Hc | Hc]; [discriminate |]. simpl length in *.
    assert (Hgt : (count + 1 >? limit)%Z = false) by lia.
    turn_with Hs Hgt.
    replace (count + Z.of_nat (S (length l)))%Z
      with (count + 1 + Z.of_nat (length l))%Z by lia.
    apply IH. right. lia.
Qed.

Lemma async_take_drains_short l s' :
  drains iter (start iter) l s' -> (length l <= Z.to_nat limit)%nat ->
  drains (Async.take limit iter) (start (Async.take limit iter)) l
    (Completed (Async.MkTake iter (Z.of_nat (length l)) s')).
Proof.
  intros (s1 & He & Hs) Hl.
  exists (Suspended (Async.MkTake iter (0 + Z.of_nat (length l))%Z s1)).
  split.
  - apply async_take_emits; [assumption |].
    destruct l; [left; reflexivity | right; simpl length in *; lia].
  - cbn. rewrite Hs. reflexivity.
Qed.

Lemma async_take_drains_long l x s' :
  reaches iter (start iter) l (yielded x) s' -> Z.of_nat (length l) = Z.max 0 limit ->
  drains (Async.take limit iter) (start (Async.take limit iter)) l
    (Completed (Async.MkTake iter (Z.of_nat (length l) + 1)%Z s')).
Proof.
  intros (s1 & He & Hs) Hl.
  exists (Suspended (Async.MkTake iter (0 + Z.of_nat (length l))%Z s1)).
  split.
  - apply async_take_emits; [assumption |].
    destruct l; [left; reflexivity | right; simpl length in *; lia].
  - cbn. rewrite Hs. cbn.
    assert (Hgt : (Z.of_nat (length l) + 1 >? limit)%Z = true) by lia.
    rewrite Hgt. reflexivity.
Qed.
End AsyncTake.

Section AsyncSkip.
Context {T : Type} (items : Z) (iter : Async.AsyncIter T).

Lemma async_skip_emits s l s' :
  emits iter s l s' -> forall count,
  emits (Async.skip items iter)
    (Suspended (Async.MkSkip iter count s)) (skipn (Z.to_nat (items - count)) l)
    (Suspended (Async.MkSkip iter (count + Z.of_nat (length l))%Z s')).
Proof.
  induction 1 as [s | s s1 l s2 Hs _ IH | s v s1 l s2 Hs _ IH]; intros count.
  - simpl. rewrite Z.add_0_r, skipn_nil. constructor.
  - turn Hs. apply IH.
  - replace (count + Z.of_nat (length (v :: l)))%Z
      with (count + 1 + Z.of_nat (length l))%Z by (simpl length; lia).
    destruct (Z.leb_spec (count + 1) items) as [Hle | Hgt].
    + assert (Hb : (count + 1 <=? items)%Z = true) by lia.
      replace (Z.to_nat (items - count)) with (S (Z.to_nat (items - (count + 1)))) by lia.
      simpl skipn. turn_with Hs Hb. apply IH.
    + assert (Hb : (count + 1 <=? items)%Z = false) by lia.
      replace (Z.to_nat (items - count)) with O by lia.
      simpl skipn. turn_with Hs Hb.
      specialize (IH (count + 1)%Z).
      replace (Z.to_nat (items - (count + 1))) with O in IH by lia. exact IH.
Qed.

Lemma async_skip_drains l s' :
  drains iter (start iter) l s' ->
  drains (Async.skip items iter) (start (Async.skip items iter))
    (skipn (Z.to_nat items) l)
    (Completed (Async.MkSkip iter (Z.of_nat (length l)) s')).
Proof.
  intros (s1 & He & Hs).
  exists (Suspended (Async.MkSkip iter (0 + Z.of_nat (length l))%Z s1)).
  split; [| cbn; rewrite Hs; reflexivity].
  pose proof (async_skip_emits _ _ _ He 0%Z) as H.
  rewrite Z.sub_0_r in H. exact H.
Qed.
End AsyncSkip.

Section AsyncChain.
Context {T : Type}.

Lemma async_operands_head (m : Async.AsyncIter T) rest s l s' :
  emits m s l s' ->
  emits (async_operands (m :: rest)) (inl s) l (inl s').
Proof.
  induction 1 as [s | s s1 l s2 Hs _ IH | s v s1 l s2 Hs _ IH].
  - constructor.
  - turn Hs. exact IH.
  - turn Hs. exact IH.
Qed.

Lemma async_operands_tail (m : Async.AsyncIter T) rest f l f' :
  emits (async_operands rest) f l f' ->
  emits (async_operands (m :: rest)) (inr f) l (inr f').
Proof.
  induction 1 as [s | s s1 l s2 Hs _ IH | s v s1 l s2 Hs _ IH].
  - constructor.
  - cbn in Hs. turn Hs. exact IH.
  - cbn in Hs. turn Hs. exact IH.
Qed.

Lemma async_operands_drains (operands : list (Async.AsyncIter T)) ls :
  Forall2 (fun m l => exists s', drains m (start m) l s') operands ls ->
  exists f', drains (async_operands operands) (Async.chain_enter operands) (concat ls) f'.
Proof.
  induction 1 as [| m l operands ls (s' & s1 & He & Hs) _ (f' & f1 & IHe & IHs)].
  - exists tt, tt. split; [constructor | reflexivity].
  - exists (inr f'), (inr f1). split.
    + simpl concat. eapply emits_app; [apply async_operands_head, He |].
      eapply emits_skip; [cbn; rewrite Hs; reflexivity |].
      apply async_operands_tail, IHe.
    + cbn in IHs. cbn. rewrite IHs. reflexivity.
Qed.

Lemma async_chain_emits (iter : Async.AsyncIter T) next f l f' :
  emits (async_operands (iter :: next)) f l f' ->
  emits (Async.chain iter next) (Suspended f) l (Suspended f').
Proof.
  induction 1 as [s | s s1 l s2 Hs _ IH | s v s1 l s2 Hs _ IH].
  - constructor.
  - change (Async.chain_body (iter :: next) s = Skip s1) in Hs.
    eapply emits_skip; [| exact IH].
    change (@Async.chain_step T iter next (Suspended s) = Skip (Suspended s1)).
    unfold Async.chain_step. rewrite Hs. reflexivity.
  - change (Async.chain_body (iter :: next) s = Emit (yielded v) s1) in Hs.
    eapply emits_yield; [| exact IH].
    change (@Async.chain_step T iter next (Suspended s) = Emit (yielded v) (Suspended s1)).
    unfold Async.chain_step. rewrite Hs. reflexivity.
Qed.

Lemma async_chain_drains (iter : Async.AsyncIter T) next l ls :
  (exists s', drains iter (start iter) l s') ->
  Forall2 (fun m l => exists s', drains m (start m) l s') next ls ->
  exists g, drains (Async.chain iter next) (start (Async.chain iter next))
              (l ++ concat ls) g.
Proof.
  intros H0 H.
  destruct (async_operands_drains (iter :: next) (l :: ls)) as (f' & f1 & He & Hs).
  { constructor; assumption. }
  exists (Completed f'), (Suspended f1). split.
  - apply async_chain_emits. exact He.
  - change (Async.chain_body (iter :: next) f1 = Emit IteratorReturnResult f') in Hs.
    change (@Async.chain_step T iter next (Suspended f1)
            = Emit IteratorReturnResult (Completed f')).
    unfold Async.chain_step. rewrite Hs. reflexivity.
Qed.
End AsyncChain.

Section AsyncZip.
Context {T : Type} (iter right : Async.AsyncIter T).

Local Abbreviation frame := (Async.MkZip iter right).
Local Abbreviation pending := (@Async.Pending T _).
Local Abbreviation fulfilled := (@Async.Fulfilled T _).

Lemma azip_left_only sl rl sl' rr sr' :
  pull iter sl (Ok rl) sl' ->
  emits (Async.zip iter right) (Suspended (frame (pending sl) (fulfilled rr sr'))) []
    (Suspended (frame (fulfilled rl sl') (fulfilled rr sr'))).
Proof.
  intros H. remember (Ok rl) as o eqn:E.
  induction H as [s s1 o s2 Hs _ IH | s r s1 Hs | s e s1 Hs]; subst; try discriminate.
  - eapply emits_skip; [cbn; rewrite Hs; reflexivity | apply IH; reflexivity].
  - injection E as ->. apply emits_step_nil. cbn. rewrite Hs. reflexivity.
Qed.

Lemma azip_right_only rl sl' sr rr sr' :
  pull right sr (Ok rr) sr' ->
  emits (Async.zip iter right) (Suspended (frame (fulfilled rl sl') (pending sr))) []
    (Suspended (frame (fulfilled rl sl') (fulfilled rr sr'))).
Proof.
  intros H. remember (Ok rr) as o eqn:E.
  induction H as [s s1 o s2 Hs _ IH | s r s1 Hs | s e s1 Hs]; subst; try discriminate.
  - eapply emits_skip; [cbn; rewrite Hs; reflexivity | apply IH; reflexivity].
  - injection E as ->. apply emits_step_nil. cbn. rewrite Hs. reflexivity.
Qed.

(** Both calls are in flight and advance together until both have settled. *)
Lemma azip_both sl rl sl' :
  pull iter sl (Ok rl) sl' -> forall sr rr sr',
  pull right sr (Ok rr) sr' ->
  emits (Async.zip iter right) (Suspended (frame (pending sl) (pending sr))) []
    (Suspended (frame (fulfilled rl sl') (fulfilled rr sr'))).
Proof.
  intros H. remember (Ok rl) as o eqn:E.
  induction H as [s s1 o s2 Hs Hp IH | s r s1 Hs | s e s1 Hs]; subst; try discriminate;
    intros sr rr sr' Hr.
  - inversion Hr as [? sr1 ? ? Hsr Hr' | ? ? ? Hsr |]; subst.
    + eapply emits_skip; [cbn; rewrite Hs, Hsr; reflexivity |].
      apply IH; [reflexivity | exact Hr'].
    + eapply emits_skip; [cbn; rewrite Hs, Hsr; reflexivity |].
      apply azip_left_only. exact Hp.
  - injection E as ->.
    inversion Hr as [? sr1 ? ? Hsr Hr' | ? ? ? Hsr |]; subst.
    + eapply emits_skip; [cbn; rewrite Hs, Hsr; reflexivity |].
      apply azip_right_only. exact Hr'.
    + apply emits_step_nil. cbn. rewrite Hs, Hsr. reflexivity.
Qed.

Lemma azip_emits la : forall lb sl sl1 sr sr1,
  emits iter sl la sl1 -> emits right sr lb sr1 -> length la = length lb ->
  exists sl2 sr2,
    emits (Async.zip iter right) (Suspended (frame (pending sl) (pending sr)))
      (combine la lb) (Suspended (frame (pending sl2) (pending sr2)))
    /\ emits iter sl2 [] sl1 /\ emits right sr2 [] sr1.
Proof.
  induction la as [|a la IH]; intros lb sl sl1 sr sr1 Hl Hr Hlen.
  - destruct lb; [| discriminate]. exists sl, sr. repeat split; auto. constructor.
  - destruct lb as [|b lb]; [discriminate |].
    apply emits_cons_inv in Hl. destruct Hl as (sa & sa' & Ha & Hsa & Hl).
    apply emits_cons_inv in Hr. destruct Hr as (sb & sb' & Hb & Hsb & Hr).
    injection Hlen as Hlen.
    destruct (IH lb sa' sl1 sb' sr1 Hl Hr Hlen) as (sl2 & sr2 & Hz & H1 & H2).
    exists sl2, sr2. repeat split; auto.
    simpl combine. change ((a, b) :: combine la lb) with ([] ++ (a, b) :: combine la lb).
    eapply emits_app.
    + apply azip_both; apply reaches_pull; eexists; split; eassumption.
    + eapply emits_yield; [reflexivity | exact Hz].
Qed.

Lemma azip_drains la lb sl rl sl' sr rr sr' :
  reaches iter sl la rl sl' -> reaches right sr lb rr sr' ->
  length la = length lb ->
  rl = IteratorReturnResult \/ rr = IteratorReturnResult ->
  drains (Async.zip iter right) (Suspended (frame (pending sl) (pending sr)))
    (combine la lb) (Completed (frame (pending sl') (pending sr'))).
Proof.
  intros (sl1 & Hl & Hsl) (sr1 & Hr & Hsr) Hlen Hend.
  destruct (azip_emits la lb sl sl1 sr sr1 Hl Hr Hlen) as (sl2 & sr2 & Hz & H1 & H2).
  exists (Suspended (frame (fulfilled rl sl') (fulfilled rr sr'))). split.
  - rewrite <- (app_nil_r (combine la lb)).
    eapply emits_app; [exact Hz |].
    apply azip_both; apply reaches_pull; eexists; split; eassumption.
  - cbn. destruct Hend as [-> | ->]; [reflexivity |].
    rewrite orb_true_r. reflexivity.
Qed.
End AsyncZip.

(** ** Raw sources behind [new AsyncIter] *)

Section AsyncNew.
Context {T : Type} (inner : Async.AsyncIterator T).

Lemma async_new_spy_step x :
  forall c,
  match step (Async.new inner) x with
  | Skip x' => step (Async.new (Async.spy inner)) (spied inner c x)
               = Skip (spied inner (c + 1 - in_flight x) x')
               /\ in_flight x' = 1%nat
  | Emit r x' => step (Async.new (Async.spy inner)) (spied inner c x)
                 = Emit r (spied inner c x')
                 /\ in_flight x = 1%nat /\ in_flight x' = O
  | Throw e x' => step (Async.new (Async.spy inner)) (spied inner c x)
                  = Throw e (spied inner c x')
  end.
Proof.
  intros c. destruct x as [s | p s]; cbn.
  - destruct (Async.anext inner s) as [p s'] eqn:E. cbn.
    split; [| reflexivity]. do 3 f_equal. lia.
  - destruct p as [[|n] [r|e]]; cbn; repeat split;
      replace (c + 1 - 1)%nat with c by lia; reflexivity.
Qed.

(** Every result costs the source exactly one call. *)
Lemma async_new_spy_emits x l x' :
  emits (Async.new inner) x l x' ->
  forall c, exists c',
    emits (Async.new (Async.spy inner)) (spied inner c x) l (spied inner c' x')
    /\ (c' + in_flight x = c + length l + in_flight x')%nat.
Proof.
  induction 1 as [s | s s1 l s2 Hs _ IH | s v s1 l s2 Hs _ IH]; intros c.
  - exists c. split; [constructor | simpl; lia].
  - pose proof (async_new_spy_step s c) as Hstep. rewrite Hs in Hstep.
    destruct Hstep as [Hstep Hfl].
    destruct (IH (c + 1 - in_flight s)%nat) as (c' & He & Hc).
    exists c'. split; [eapply emits_skip; eassumption |].
    destruct s as [s | p s]; simpl in *; lia.
  - pose proof (async_new_spy_step s c) as Hstep. rewrite Hs in Hstep.
    destruct Hstep as (Hstep & Hfl & Hfl').
    destruct (IH c) as (c' & He & Hc).
    exists c'. split; [eapply emits_yield; eassumption |].
    simpl length. lia.
Qed.

Lemma async_new_spy_reaches s l r x' c :
  reaches (Async.new inner) (Async.Idle inner s) l r x' ->
  reaches (Async.new (Async.spy inner)) (Async.Idle (Async.spy inner) (s, c)) l r
    (spied inner (c + length l + 1) x')
  /\ in_flight x' = O.
Proof.
  intros (x1 & He & Hs).
  destruct (async_new_spy_emits _ _ _ He c) as (c' & He' & Hc).
  pose proof (async_new_spy_step x1 c') as Hstep. rewrite Hs in Hstep.
  destruct Hstep as (Hstep & Hfl & Hfl'). simpl in Hc.
  replace (c + length l + 1)%nat with c' by lia.
  split; [| exact Hfl']. exists (spied inner c' x1). split; assumption.
Qed.
End AsyncNew.

Lemma async_values_drains {T : Type} (latency : nat) (items : list T) :
  forall rest : list T,
  drains (Async.new (Async.values latency items))
    (Async.Idle (Async.values latency items) rest) rest
    (Async.Idle (Async.values latency items) []).
Proof.
  assert (Hwait : forall n r (s : list T),
    reaches (Async.new (Async.values latency items))
      (Async.Awaiting (Async.values latency items) (Async.MkPromise n (Ok r)) s) [] r
      (Async.Idle (Async.values latency items) s)).
  { induction n as [|n IH]; intros r s.
    - eexists. split; [constructor | reflexivity].
    - destruct (IH r s) as (x & Hx & Hs). exists x. split; [| exact Hs].
      eapply emits_skip; [reflexivity | exact Hx]. }
  induction rest as [|x rest IH].
  - destruct (Hwait latency (@IteratorReturnResult T) []) as (x & Hx & Hs).
    exists x. split; [| exact Hs]. eapply emits_skip; [reflexivity | exact Hx].
  - destruct IH as (x1 & He & Hs1).
    destruct (Hwait latency (yielded x) rest) as (x2 & Hx & Hs2).
    exists x1. split; [| exact Hs1].
    eapply emits_skip; [reflexivity |].
    change (x :: rest) with ([] ++ x :: rest).
    eapply emits_app; [exact Hx |]. eapply emits_yield; eassumption.
Qed.

(** ** Exhaustion is final for every generator *)

Lemma sticky_well_behaved {T : Type} (m : Machine T) : sticky m -> well_behaved m.
Proof.
  intros Hst s s' H. split.
  - eapply sticky_pull; eauto.
  - intros os s2 Hos. eapply sticky_pulls; eauto.
Qed.

(** Case analysis on everything a step function inspects. *)
Ltac by_cases_on_step H :=
  cbn in H |- *;
  repeat (match type of H with
          | context [match ?x with _ => _ end] => destruct x eqn:?
          end; cbn in H |- *);
  try discriminate; inversion H; subst; try reflexivity.

Section SyncSticky.
Context {T : Type}.

Lemma repeatWith_sticky (func : Z -> Exc T) : sticky (Sync.repeatWith func).
Proof. intros g g' H. destruct g; by_cases_on_step H. Qed.

Lemma filter_sticky predicate (iter : Sync.Iter T) : sticky (Sync.filter predicate iter).
Proof. intros g g' H. destruct g; by_cases_on_step H. Qed.

Lemma filterMap_sticky {Output : Type} (func : T -> Exc (option Output))
  (iter : Sync.Iter T) : sticky (Sync.filterMap func iter).
Proof. intros g g' H. destruct g; by_cases_on_step H. Qed.

Lemma map_sticky {Output : Type} (func : T -> Exc Output) (iter : Sync.Iter T) :
  sticky (Sync.map func iter).
Proof. intros g g' H. destruct g; by_cases_on_step H. Qed.

Lemma chain_sticky (iter : Sync.Iter T) next : sticky (Sync.chain iter next).
Proof.
  intros g g' H. destruct g as [f | f].
  - change (@Sync.chain_step T iter next (Suspended f) = Emit IteratorReturnResult g') in H.
    unfold Sync.chain_step in H.
    destruct (Sync.chain_body (iter :: next) f) as [[hd v|] f' | f' | e f'];
      try discriminate.
    injection H as <-. reflexivity.
  - cbn in H. injection H as <-. reflexivity.
Qed.

Lemma zip_sticky (iter right : Sync.Iter T) : sticky (Sync.zip iter right).
Proof. intros g g' H. destruct g as [[l r | leftResult l r] | f]; by_cases_on_step H. Qed.

Lemma enumerate_sticky (iter : Sync.Iter T) : sticky (Sync.enumerate iter).
Proof. intros g g' H. destruct g as [[index s] | f]; by_cases_on_step H. Qed.

Lemma take_sticky limit (iter : Sync.Iter T) : sticky (Sync.take limit iter).
Proof. intros g g' H. destruct g as [[count s] | f]; by_cases_on_step H. Qed.

Lemma skip_sticky items (iter : Sync.Iter T) : sticky (Sync.skip items iter).
Proof. intros g g' H. destruct g as [[count s] | f]; by_cases_on_step H. Qed.

Lemma flat_sticky (iter : Sync.Iter (list T)) : sticky (Sync.flat iter).
Proof. intros g g' H. destruct g as [[s | rest s] | f]; by_cases_on_step H. Qed.
End SyncSticky.

Section AsyncSticky.
Context {T : Type}.

Lemma async_filter_sticky predicate (iter : Async.AsyncIter T) :
  sticky (Async.filter predicate iter).
Proof.
  intros g g' H. destruct g as [[s | [n r] item s] | f]; by_cases_on_step H.
Qed.

Lemma async_filterMap_sticky {Output : Type} (func : T -> Async.Promise (option Output))
  (iter : Async.AsyncIter T) : sticky (Async.filterMap func iter).
Proof.
  intros g g' H. destruct g as [[s | [n r] s] | f]; by_cases_on_step H.
Qed.

Lemma async_map_sticky {Output : Type} (func : T -> Async.Promise Output)
  (iter : Async.AsyncIter T) : sticky (Async.map func iter).
Proof.
  intros g g' H. destruct g as [[s | [n r] s] | f]; by_cases_on_step H.
Qed.

Lemma filterSync_sticky predicate (iter : Async.AsyncIter T) :
  sticky (Async.filterSync predicate iter).
Proof.
  intros g g' H. destruct g as [[s | [n r] s] | f]; by_cases_on_step H.
Qed.

Lemma filterMapSync_sticky {Output : Type}
  (func : T -> Exc (option (Async.Awaitable Output))) (iter : Async.AsyncIter T) :
  sticky (Async.filterMapSync func iter).
Proof.
  intros g g' H. destruct g as [[s | [n r] s] | f]; by_cases_on_step H.
Qed.

Lemma mapSync_sticky {Output : Type} (func : T -> Exc (Async.Awaitable Output))
  (iter : Async.AsyncIter T) : sticky (Async.mapSync func iter).
Proof.
  intros g g' H. destruct g as [[s | [n r] s] | f]; by_cases_on_step H.
Qed.

Lemma async_chain_sticky (iter : Async.AsyncIter T) next :
  sticky (Async.chain iter next).
Proof.
  intros g g' H. destruct g as [f | f].
  - change (@Async.chain_step T iter next (Suspended f) = Emit IteratorReturnResult g') in H.
    unfold Async.chain_step in H.
    destruct (Async.chain_body (iter :: next) f) as [[hd v|] f' | f' | e f'];
      try discriminate.
    injection H as <-. reflexivity.
  - cbn in H. injection H as <-. reflexivity.
Qed.

Lemma async_zip_sticky (iter right : Async.AsyncIter T) : sticky (Async.zip iter right).
Proof.
  intros g g' H. destruct g as [[l r] | f]; by_cases_on_step H.
Qed.

Lemma async_enumerate_sticky (iter : Async.AsyncIter T) : sticky (Async.enumerate iter).
Proof. intros g g' H. destruct g as [[index s] | f]; by_cases_on_step H. Qed.

Lemma async_take_sticky limit (iter : Async.AsyncIter T) :
  sticky (Async.take limit iter).
Proof. intros g g' H. destruct g as [[count s] | f]; by_cases_on_step H. Qed.

Lemma async_skip_sticky items (iter : Async.AsyncIter T) :
  sticky (Async.skip items iter).
Proof. intros g g' H. destruct g as [[count s] | f]; by_cases_on_step H. Qed.
End AsyncSticky.

(** ** Laziness *)

(** C1: applying a combinator builds the new wrapper without a single call of
    [next()] on the receiver or on an argument: for a receiver and arguments
    that wrap spied sources, the counters read off the new wrapper are all
    zero, for [filter], [filterMap], [map], [chain], [zip], [enumerate],
    [take], [skip] and [flat] of [Iter] and for the combinators of
    [AsyncIter].  The calls come with the demand: the first step the new
    wrapper takes for its consumer is the one that makes the first call. *)
Theorem C1_combinators_are_lazy :
  forall (T Output : Type) (inner other : Iterator T) (arrays : Iterator (list T))
         (ainner aother : Async.AsyncIterator T)
         (predicate : T -> Exc bool) (filterer : T -> Exc (option Output))
         (mapper : T -> Exc Output) (apredicate : T -> Async.Promise bool)
         (afilterer : T -> Async.Promise (option Output))
         (amapper : T -> Async.Promise Output)
         (sfilterer : T -> Exc (option (Async.Awaitable Output)))
         (smapper : T -> Exc (Async.Awaitable Output))
         (others : list (Sync.Iter T)) (aothers : list (Async.AsyncIter T)) (n : Z),
  let it := Sync.new (spy inner) in
  let rt := Sync.new (spy other) in
  let ait := Async.new (Async.spy ainner) in
  let art := Async.new (Async.spy aother) in
  (* nothing has been called when the wrapper is returned *)
  (calls (frame_of (start (Sync.filter predicate it))) = O
   /\ calls (frame_of (start (Sync.filterMap filterer it))) = O
   /\ calls (frame_of (start (Sync.map mapper it))) = O
   /\ start (Sync.chain it others) = Suspended (inl (istate inner, O))
   /\ calls (Sync.zip_left (frame_of (start (Sync.zip it rt)))) = O
   /\ calls (Sync.zip_right (frame_of (start (Sync.zip it rt)))) = O
   /\ calls (Sync.enumerate_iter (frame_of (start (Sync.enumerate it)))) = O
   /\ calls (Sync.take_iter (frame_of (start (Sync.take n it)))) = O
   /\ calls (Sync.skip_iter (frame_of (start (Sync.skip n it)))) = O
   /\ calls (Sync.flat_iter (frame_of (start (Sync.flat (Sync.new (spy arrays)))))) = O)
  /\
  (calls (Async.call_state (Async.filter_iter (frame_of (start (Async.filter apredicate ait))))) = O
   /\ calls (Async.call_state (Async.filterSync_iter (frame_of (start (Async.filterSync predicate ait))))) = O
   /\ calls (Async.call_state (Async.filterMap_iter (frame_of (start (Async.filterMap afilterer ait))))) = O
   /\ calls (Async.call_state (Async.filterMapSync_iter (frame_of (start (Async.filterMapSync sfilterer ait))))) = O
   /\ calls (Async.call_state (Async.map_iter (frame_of (start (Async.map amapper ait))))) = O
   /\ calls (Async.call_state (Async.mapSync_iter (frame_of (start (Async.mapSync smapper ait))))) = O
   /\ start (Async.chain ait aothers)
      = Suspended (inl (Async.Idle (Async.spy ainner) (Async.astate ainner, O)))
   /\ calls (Async.call_state (Async.side_state (Async.zip_left (frame_of (start (Async.zip ait art)))))) = O
   /\ calls (Async.call_state (Async.side_state (Async.zip_right (frame_of (start (Async.zip ait art)))))) = O
   /\ calls (Async.call_state (Async.enumerate_iter (frame_of (start (Async.enumerate ait))))) = O
   /\ calls (Async.call_state (Async.take_iter (frame_of (start (Async.take n ait))))) = O
   /\ calls (Async.call_state (Async.skip_iter (frame_of (start (Async.skip n ait))))) = O)
  /\
  (* the first step taken for a consumer makes the first call *)
  (calls (frame_of (state_after (step (Sync.filter predicate it) (start (Sync.filter predicate it))))) = 1%nat
   /\ calls (frame_of (state_after (step (Sync.filterMap filterer it) (start (Sync.filterMap filterer it))))) = 1%nat
   /\ calls (frame_of (state_after (step (Sync.map mapper it) (start (Sync.map mapper it))))) = 1%nat
   /\ match frame_of (state_after (step (Sync.chain it others) (start (Sync.chain it others)))) with
      | inl sc => calls sc = 1%nat
      | inr f => f = Sync.chain_enter others
      end
   /\ calls (Sync.zip_left (frame_of (state_after (step (Sync.zip it rt) (start (Sync.zip it rt)))))) = 1%nat
   /\ calls (Sync.zip_right (frame_of (state_after (step (Sync.zip it rt) (start (Sync.zip it rt)))))) = O
   /\ calls (Sync.enumerate_iter (frame_of (state_after (step (Sync.enumerate it) (start (Sync.enumerate it)))))) = 1%nat
   /\ calls (Sync.take_iter (frame_of (state_after (step (Sync.take n it) (start (Sync.take n it)))))) = 1%nat
   /\ calls (Sync.skip_iter (frame_of (state_after (step (Sync.skip n it) (start (Sync.skip n it)))))) = 1%nat
   /\ calls (Sync.flat_iter (frame_of (state_after
        (step (Sync.flat (Sync.new (spy arrays)))
              (start (Sync.flat (Sync.new (spy arrays)))))))) = 1%nat
   /\ calls (Async.call_state (Async.map_iter (frame_of (state_after
        (step (Async.map amapper ait) (start (Async.map amapper ait))))))) = 1%nat).
Proof.
  intros. subst it rt ait art. split; [| split].
  - repeat split.
  - repeat split.
  - repeat split; cbn.
    + destruct (inext inner (istate inner)) as [[[hd item|]|e] s]; cbn;
        try reflexivity. destruct (predicate item) as [[|]|]; reflexivity.
    + destruct (inext inner (istate inner)) as [[[hd item|]|e] s]; cbn;
        try reflexivity. destruct (filterer item) as [[|]|]; reflexivity.
    + destruct (inext inner (istate inner)) as [[[hd item|]|e] s]; cbn;
        try reflexivity. destruct (mapper item); reflexivity.
    + destruct (inext inner (istate inner)) as [[[hd item|]|e] s]; cbn; reflexivity.
    + destruct (inext inner (istate inner)) as [[[hd item|]|e] s]; cbn; reflexivity.
    + destruct (inext inner (istate inner)) as [[[hd item|]|e] s]; cbn; reflexivity.
    + destruct (inext inner (istate inner)) as [[[hd item|]|e] s]; cbn; reflexivity.
    + destruct (inext inner (istate inner)) as [[[hd item|]|e] s]; cbn;
        try reflexivity. destruct (1 >? n)%Z; reflexivity.
    + destruct (inext inner (istate inner)) as [[[hd item|]|e] s]; cbn;
        try reflexivity. destruct (1 <=? n)%Z; reflexivity.
    + destruct (inext arrays (istate arrays)) as [[[hd item|]|e] s]; cbn; reflexivity.
    + destruct (Async.anext ainner (Async.astate ainner)) as [p s]; reflexivity.
Qed.

(** ** Well-behaved wrappers *)

(** C9: every wrapper a combinator returns is a generator object, so once a
    call of [next()] on it has reported exhaustion every later call reports
    exhaustion too, whatever the wrapped machine does afterwards: this holds
    for [repeatWith], [filter], [filterMap], [map], [chain], [zip],
    [enumerate], [take], [skip] and [flat] of [Iter] and for every combinator
    of [AsyncIter], over any receiver and arguments.  A wrapper built
    directly on a raw source hands on whatever the source returns, so over a
    source that un-exhausts it is not well behaved, while a combinator over
    that same wrapper still is. *)
Theorem C9_exhaustion_is_final_for_combinators :
  (forall (T : Type) (func : Z -> Exc T), well_behaved (Sync.repeatWith func))
  /\ (forall (T : Type) predicate (iter : Sync.Iter T),
        well_behaved (Sync.filter predicate iter))
  /\ (forall (T Output : Type) (func : T -> Exc (option Output)) (iter : Sync.Iter T),
        well_behaved (Sync.filterMap func iter))
  /\ (forall (T Output : Type) (func : T -> Exc Output) (iter : Sync.Iter T),
        well_behaved (Sync.map func iter))
  /\ (forall (T : Type) (iter : Sync.Iter T) others, well_behaved (Sync.chain iter others))
  /\ (forall (T : Type) (iter right : Sync.Iter T), well_behaved (Sync.zip iter right))
  /\ (forall (T : Type) (iter : Sync.Iter T), well_behaved (Sync.enumerate iter))
  /\ (forall (T : Type) limit (iter : Sync.Iter T), well_behaved (Sync.take limit iter))
  /\ (forall (T : Type) items (iter : Sync.Iter T), well_behaved (Sync.skip items iter))
  /\ (forall (T : Type) (iter : Sync.Iter (list T)), well_behaved (Sync.flat iter))
  /\ (forall (T : Type) predicate (iter : Async.AsyncIter T),
        well_behaved (Async.filter predicate iter))
  /\ (forall (T : Type) predicate (iter : Async.AsyncIter T),
        well_behaved (Async.filterSync predicate iter))
  /\ (forall (T Output : Type) (func : T -> Async.Promise (option Output))
             (iter : Async.AsyncIter T), well_behaved (Async.filterMap func iter))
  /\ (forall (T Output : Type) (func : T -> Exc (option (Async.Awaitable Output)))
             (iter : Async.AsyncIter T), well_behaved (Async.filterMapSync func iter))
  /\ (forall (T Output : Type) (func : T -> Async.Promise Output) (iter : Async.AsyncIter T),
        well_behaved (Async.map func iter))
  /\ (forall (T Output : Type) (func : T -> Exc (Async.Awaitable Output))
             (iter : Async.AsyncIter T), well_behaved (Async.mapSync func iter))
  /\ (forall (T : Type) (iter : Async.AsyncIter T) others,
        well_behaved (Async.chain iter others))
  /\ (forall (T : Type) (iter right : Async.AsyncIter T), well_behaved (Async.zip iter right))
  /\ (forall (T : Type) (iter : Async.AsyncIter T), well_behaved (Async.enumerate iter))
  /\ (forall (T : Type) limit (iter : Async.AsyncIter T),
        well_behaved (Async.take limit iter))
  /\ (forall (T : Type) items (iter : Async.AsyncIter T),
        well_behaved (Async.skip items iter))
  (* a wrapper built directly on a raw source delegates unchecked *)
  /\ (forall (T : Type) (inner : Iterator T) s,
        next (Sync.new inner) 1 s = Some (inext inner s))
  /\ (forall (T : Type) (x : T), ~ well_behaved (Sync.new (flicker x)))
  /\ (forall (T : Type) (x : T), ~ well_behaved (Async.new (Async.flicker x)))
  (* the source un-exhausts, the combinator over it does not *)
  /\ (forall (T : Type) (x : T),
        pulls (Sync.new (flicker x)) (start (Sync.new (flicker x)))
          [Ok IteratorReturnResult; Ok (yielded x); Ok IteratorReturnResult] true
        /\ pulls (Sync.map (total (fun v => v)) (Sync.new (flicker x)))
             (start (Sync.map (total (fun v => v)) (Sync.new (flicker x))))
             [Ok IteratorReturnResult; Ok IteratorReturnResult; Ok IteratorReturnResult]
             (Completed true)).
Proof.
  repeat match goal with |- _ /\ _ => split end;
    try (intros; apply sticky_well_behaved;
         first [ apply repeatWith_sticky | apply filter_sticky | apply filterMap_sticky
               | apply map_sticky | apply chain_sticky | apply zip_sticky
               | apply enumerate_sticky | apply take_sticky | apply skip_sticky
               | apply flat_sticky | apply async_filter_sticky
               | apply async_filterMap_sticky | apply async_map_sticky
               | apply filterSync_sticky | apply filterMapSync_sticky
               | apply mapSync_sticky
               | apply async_chain_sticky | apply async_zip_sticky
               | apply async_enumerate_sticky | apply async_take_sticky
               | apply async_skip_sticky ]).
  - intros T inner s. cbn. destruct (inext inner s) as [[r|e] s']; reflexivity.
  - intros T x Hwb.
    assert (H1 : pull (Sync.new (flicker x)) false (Ok IteratorReturnResult) true)
      by (apply pull_emit; reflexivity).
    destruct (Hwb _ _ H1) as [H2 _].
    assert (H3 : pull (Sync.new (flicker x)) true (Ok (yielded x)) false)
      by (apply pull_emit; reflexivity).
    destruct (pull_deterministic _ _ _ _ H2 _ _ H3) as [E _]. discriminate.
  - intros T x Hwb.
    pose (m := Async.new (Async.flicker x)).
    assert (H1 : pull m (Async.Idle (Async.flicker x) false) (Ok IteratorReturnResult)
                   (Async.Idle (Async.flicker x) true)).
    { eapply pull_skip; [reflexivity |]. apply pull_emit. reflexivity. }
    destruct (Hwb _ _ H1) as [H2 _].
    assert (H3 : pull m (Async.Idle (Async.flicker x) true) (Ok (yielded x))
                   (Async.Idle (Async.flicker x) false)).
    { eapply pull_skip; [reflexivity |]. apply pull_emit. reflexivity. }
    destruct (pull_deterministic _ _ _ _ H2 _ _ H3) as [E _]. discriminate.
  - intros T x. split.
    + repeat (eapply pulls_cons; [apply pull_emit; reflexivity |]). apply pulls_nil.
    + repeat (eapply pulls_cons; [apply pull_emit; reflexivity |]). apply pulls_nil.
Qed.

(** ** [take] *)

Lemma take_drains {T : Type} (limit : Z) (iter : Sync.Iter T) l s' :
  drains iter (start iter) l s' ->
  exists g, drains (Sync.take limit iter) (start (Sync.take limit iter))
              (firstn (Z.to_nat limit) l) g.
Proof.
  intros H. destruct (Nat.le_gt_cases (length l) (Z.to_nat limit)) as [Hle | Hk].
  - rewrite firstn_all2 by exact Hle. eexists. apply take_drains_short; eassumption.
  - destruct (drains_prefix iter l _ _ _ H Hk) as (v & s2 & _ & Hr).
    eexists. eapply take_drains_long; [exact Hr |].
    rewrite length_firstn. lia.
Qed.

Lemma async_take_drains {T : Type} (limit : Z) (iter : Async.AsyncIter T) l s' :
  drains iter (start iter) l s' ->
  exists g, drains (Async.take limit iter) (start (Async.take limit iter))
              (firstn (Z.to_nat limit) l) g.
Proof.
  intros H. destruct (Nat.le_gt_cases (length l) (Z.to_nat limit)) as [Hle | Hk].
  - rewrite firstn_all2 by exact Hle. eexists. apply async_take_drains_short; eassumption.
  - destruct (drains_prefix iter l _ _ _ H Hk) as (v & s2 & _ & Hr).
    eexists. eapply async_take_drains_long; [exact Hr |].
    rewrite length_firstn. lia.
Qed.

(** On a sequence that never ends, draining [take(k)] returns, with the
    first [k] elements. *)
Lemma take_endless {T : Type} (k : nat) (iter : Sync.Iter T) f :
  endless iter (start iter) f ->
  exists fuel s', Sync.collect (Sync.take (Z.of_nat k) iter) fuel
                  = Returned (List.map f (seq 0 k)) s'.
Proof.
  intros H. destruct (endless_prefix iter _ f k H) as (s2 & Hr).
  assert (Hd : drains (Sync.take (Z.of_nat k) iter) (start (Sync.take (Z.of_nat k) iter))
                 (List.map f (seq 0 k))
                 (Completed (Sync.MkTake iter
                    (Z.of_nat (length (List.map f (seq 0 k))) + 1)%Z s2))).
  { apply (take_drains_long _ _ _ (f k)); [exact Hr |].
    rewrite length_map, length_seq. lia. }
  destruct (collect_returns _ _ _ Hd) as [fuel Hf]. eauto.
Qed.

(** What the parent has been asked for when [take] is done: one call beyond
    the elements handed out, whenever the parent had one more to give. *)
Lemma take_calls_past_limit {T : Type} (limit : Z) (inner : Iterator T) l x s' :
  reaches (Sync.new inner) (istate inner) l (yielded x) s' ->
  Z.of_nat (length l) = Z.max 0 limit ->
  exists fuel,
    Sync.collect (Sync.take limit (Sync.new (spy inner))) fuel
    = Returned l (Completed (Sync.MkTake (Sync.new (spy inner))
                               (Z.of_nat (length l) + 1)%Z (s', S (length l)))).
Proof.
  intros Hr Hl. apply collect_returns.
  apply (take_drains_long limit (Sync.new (spy inner)) l x (s', S (length l))); [| exact Hl].
  exact (new_spy_reaches inner _ _ _ _ O Hr).
Qed.

(** C3: [take(limit)] hands out the first [limit] elements and then ends, but
    the call that ends it has already received one more element from the
    parent: [if (++count > limit) break] runs after [for...of] has called
    [next()].  Draining [take(1)] over the array [[10, 20, 30]] returns
    [[10]] and leaves the array iterator on [[30]] after two calls; draining
    [take(0)] returns [[]] after one call, with [10] gone.  [AsyncIter]
    does the same. *)
Theorem C3_take_calls_parent_once_more :
  Sync.collect (Sync.take 1 (Sync.new (spy (values [10; 20; 30]%Z)))) 3
  = Returned [10%Z]
      (Completed (Sync.MkTake (Sync.new (spy (values [10; 20; 30]%Z))) 2
                    ([30%Z], 2%nat)))
  /\ Sync.collect (Sync.take 0 (Sync.new (spy (values [10; 20; 30]%Z)))) 3
     = Returned []
         (Completed (Sync.MkTake (Sync.new (spy (values [10; 20; 30]%Z))) 1
                       ([20; 30]%Z, 1%nat)))
  /\ Async.collect
       (Async.take 1 (Async.new (Async.spy (Async.values 0 [10; 20; 30]%Z)))) 6
     = Returned [10%Z]
         (Completed (Async.MkTake
            (Async.new (Async.spy (Async.values 0 [10; 20; 30]%Z))) 2
            (Async.Idle (Async.spy (Async.values 0 [10; 20; 30]%Z)) ([30%Z], 2%nat)))).
Proof. repeat split. Qed.

(** ** [zip] *)

Section ZipFinite.
Context {T : Type}.

Lemma zip_drains_finite (iter right : Sync.Iter T) l1 l2 s1 s2 :
  drains iter (start iter) l1 s1 -> drains right (start right) l2 s2 ->
  exists g, drains (Sync.zip iter right) (start (Sync.zip iter right)) (combine l1 l2) g.
Proof.
  intros H1 H2.
  destruct (Nat.lt_trichotomy (length l1) (length l2)) as [Hlt | [Heq | Hgt]].
  - destruct (drains_prefix right l2 _ _ _ H2 Hlt) as (v & sr & _ & Hr).
    rewrite combine_firstn_l. eexists.
    eapply zip_drains; [exact H1 | exact Hr | | left; reflexivity].
    rewrite length_firstn. lia.
  - eexists. eapply zip_drains; [exact H1 | exact H2 | exact Heq | left; reflexivity].
  - destruct (drains_prefix iter l1 _ _ _ H1 Hgt) as (v & sl & _ & Hl).
    rewrite combine_firstn_r. eexists.
    eapply zip_drains; [exact Hl | exact H2 | | right; reflexivity].
    rewrite length_firstn. lia.
Qed.

Lemma async_zip_drains_finite (iter right : Async.AsyncIter T) l1 l2 s1 s2 :
  drains iter (start iter) l1 s1 -> drains right (start right) l2 s2 ->
  exists g, drains (Async.zip iter right) (start (Async.zip iter right)) (combine l1 l2) g.
Proof.
  intros H1 H2.
  destruct (Nat.lt_trichotomy (length l1) (length l2)) as [Hlt | [Heq | Hgt]].
  - destruct (drains_prefix right l2 _ _ _ H2 Hlt) as (v & sr & _ & Hr).
    rewrite combine_firstn_l. eexists.
    eapply azip_drains; [exact H1 | exact Hr | | left; reflexivity].
    rewrite length_firstn. lia.
  - eexists. eapply azip_drains; [exact H1 | exact H2 | exact Heq | left; reflexivity].
  - destruct (drains_prefix iter l1 _ _ _ H1 Hgt) as (v & sl & _ & Hl).
    rewrite combine_firstn_r. eexists.
    eapply azip_drains; [exact Hl | exact H2 | | right; reflexivity].
    rewrite length_firstn. lia.
Qed.

(** One call of [next()] on a [zip] over two spied sources, when neither
    source throws: each source has received exactly one call, and the
    generator has ended unless both results were elements. *)
Lemma zip_turn_calls (inner other : Iterator T) sl cl sr cr r g' :
  pull (Sync.zip (Sync.new (spy inner)) (Sync.new (spy other)))
    (Suspended (Sync.ZipLeft (Sync.new (spy inner)) (Sync.new (spy other))
                  (sl, cl) (sr, cr)))
    (Ok r) g' ->
  exists rl sl' rr sr',
    inext inner sl = (Ok rl, sl') /\ inext other sr = (Ok rr, sr')
    /\ frame_of g' = Sync.ZipLeft (Sync.new (spy inner)) (Sync.new (spy other))
                       (sl', S cl) (sr', S cr)
    /\ match rl, rr with
       | IteratorYieldResult true a, IteratorYieldResult true b =>
           r = yielded (a, b) /\ g' = Suspended (frame_of g')
       | _, _ => r = IteratorReturnResult /\ g' = Completed (frame_of g')
       end.
Proof.
  intros H.
  inversion H as [? g1 ? ? Hs1 H1 | ? ? ? Hs1 |]; subst; cbn in Hs1;
    destruct (inext inner sl) as [[rl | e] sl'] eqn:El; cbn in Hs1; try discriminate.
  injection Hs1 as <-.
  inversion H1 as [? g2 ? ? Hs2 H2 | ? ? ? Hs2 |]; subst; cbn in Hs2;
    destruct (inext other sr) as [[rr | e] sr'] eqn:Er; cbn in Hs2; try discriminate;
    destruct rl as [[|] a |], rr as [[|] b |]; cbn in Hs2; try discriminate;
    injection Hs2 as <- <-; eexists _, sl', _, sr'; repeat split; reflexivity.
Qed.
End ZipFinite.

(** C4: [zip] hands out the pairs [(left_i, right_i)] in order, as many as
    the shorter side has elements: [min m n] of them when both sides are
    finite, and as many as the finite side has when the other never ends.
    Every call of [next()] on it calls each side exactly once, the left one
    first, and the generator ends on the first call in which a side reports
    exhaustion.  [sequentialIntegers(1, 5)] zipped with
    [sequentialIntegers(6, Infinity)] gives exactly five pairs. *)
Theorem C4_zip_stops_at_the_shorter_side :
  forall (T : Type) (iter right : Sync.Iter T),
  (forall l1 l2 s1 s2,
     drains iter (start iter) l1 s1 -> drains right (start right) l2 s2 ->
     exists fuel g,
       Sync.collect (Sync.zip iter right) fuel = Returned (combine l1 l2) g
       /\ length (combine l1 l2) = Nat.min (length l1) (length l2))
  /\ (forall l1 f s1,
        drains iter (start iter) l1 s1 -> endless right (start right) f ->
        exists fuel g,
          Sync.collect (Sync.zip iter right) fuel
          = Returned (combine l1 (List.map f (seq 0 (length l1)))) g
          /\ length (combine l1 (List.map f (seq 0 (length l1)))) = length l1)
  /\ (forall f l2 s2,
        endless iter (start iter) f -> drains right (start right) l2 s2 ->
        exists fuel g,
          Sync.collect (Sync.zip iter right) fuel
          = Returned (combine (List.map f (seq 0 (length l2))) l2) g
          /\ length (combine (List.map f (seq 0 (length l2))) l2) = length l2)
  /\ (forall (inner other : Iterator T) sl cl sr cr r g',
        pull (Sync.zip (Sync.new (spy inner)) (Sync.new (spy other)))
          (Suspended (Sync.ZipLeft (Sync.new (spy inner)) (Sync.new (spy other))
                        (sl, cl) (sr, cr)))
          (Ok r) g' ->
        exists rl sl' rr sr',
          inext inner sl = (Ok rl, sl') /\ inext other sr = (Ok rr, sr')
          /\ frame_of g' = Sync.ZipLeft (Sync.new (spy inner)) (Sync.new (spy other))
                             (sl', S cl) (sr', S cr)
          /\ match rl, rr with
             | IteratorYieldResult true a, IteratorYieldResult true b =>
                 r = yielded (a, b) /\ g' = Suspended (frame_of g')
             | _, _ => r = IteratorReturnResult /\ g' = Completed (frame_of g')
             end)
  /\ (exists g,
        Sync.collect (Sync.zip (Sync.new (sequentialIntegers 1 (Some 5%Z)))
                               (Sync.new (sequentialIntegers 6 None))) 12
        = Returned [(1, 6); (2, 7); (3, 8); (4, 9); (5, 10)]%Z g).
Proof.
  intros T iter right. split; [| split; [| split; [| split]]].
  - intros l1 l2 s1 s2 H H0.
    destruct (zip_drains_finite iter right l1 l2 s1 s2 H H0) as (g & Hd).
    destruct (collect_returns _ _ _ Hd) as [fuel Hf]. exists fuel, g. split; [exact Hf |].
    apply length_combine.
  - intros l1 f s1 H H0.
    destruct (endless_prefix right _ f (length l1) H0) as (sr & Hr).
    assert (Hd : drains (Sync.zip iter right) (start (Sync.zip iter right))
                   (combine l1 (List.map f (seq 0 (length l1))))
                   (Completed (Sync.ZipLeft iter right s1 sr))).
    { eapply zip_drains; [exact H | exact Hr | | left; reflexivity].
      rewrite length_map, length_seq. reflexivity. }
    destruct (collect_returns _ _ _ Hd) as [fuel Hf]. exists fuel. eexists.
    split; [exact Hf |]. rewrite length_combine, length_map, length_seq. lia.
  - intros f l2 s2 H H0.
    destruct (endless_prefix iter _ f (length l2) H) as (sl & Hl).
    assert (Hd : drains (Sync.zip iter right) (start (Sync.zip iter right))
                   (combine (List.map f (seq 0 (length l2))) l2)
                   (Completed (Sync.ZipLeft iter right sl s2))).
    { eapply zip_drains; [exact Hl | exact H0 | | right; reflexivity].
      rewrite length_map, length_seq. reflexivity. }
    destruct (collect_returns _ _ _ Hd) as [fuel Hf]. exists fuel. eexists.
    split; [exact Hf |]. rewrite length_combine, length_map, length_seq. lia.
  - apply zip_turn_calls.
  - eexists. reflexivity.
Qed.

(** Sources given by their elements, run step by step. *)
Ltac run_source :=
  repeat first
    [ eapply emits_yield; [reflexivity |]
    | eapply emits_skip; [reflexivity |] ];
  apply emits_nil.

Ltac source_drains := eexists; split; [run_source | reflexivity].

Lemma C4_zip_stops_at_the_shorter_side_witness :
  (exists fuel g,
     Sync.collect (Sync.zip (Sync.new (values [1; 2]%Z)) (Sync.new (values [7; 8; 9]%Z))) fuel
     = Returned (combine [1; 2] [7; 8; 9])%Z g
     /\ length (combine [1; 2] [7; 8; 9])%Z = Nat.min 2 3)
  /\ (exists fuel g,
        Sync.collect (Sync.zip (Sync.new (values [1; 2]%Z))
                               (Sync.repeatWith (total (fun i => i)))) fuel
        = Returned (combine [1; 2]%Z (List.map (fun n => Z.of_nat n) (seq 0 2))) g
        /\ length (combine [1; 2]%Z (List.map (fun n => Z.of_nat n) (seq 0 2))) = 2%nat)
  /\ (exists fuel g,
        Sync.collect (Sync.zip (Sync.repeatWith (total (fun i => i)))
                               (Sync.new (values [7; 8; 9]%Z))) fuel
        = Returned (combine (List.map (fun n => Z.of_nat n) (seq 0 3)) [7; 8; 9]%Z) g
        /\ length (combine (List.map (fun n => Z.of_nat n) (seq 0 3)) [7; 8; 9]%Z) = 3%nat)
  /\ (exists rl sl' rr sr',
        inext (values [1; 2]%Z) [2%Z] = (Ok rl, sl')
        /\ inext (values [7; 8; 9]%Z) [8; 9]%Z = (Ok rr, sr')
        /\ frame_of (Suspended (Sync.ZipLeft (Sync.new (spy (values [1; 2]%Z)))
                                  (Sync.new (spy (values [7; 8; 9]%Z)))
                                  ([], 2%nat) ([9%Z], 2%nat)))
           = Sync.ZipLeft (Sync.new (spy (values [1; 2]%Z)))
               (Sync.new (spy (values [7; 8; 9]%Z))) (sl', 2%nat) (sr', 2%nat)
        /\ match rl, rr with
           | IteratorYieldResult true a, IteratorYieldResult true b =>
               yielded (2, 8)%Z = yielded (a, b)
               /\ Suspended (Sync.ZipLeft (Sync.new (spy (values [1; 2]%Z)))
                               (Sync.new (spy (values [7; 8; 9]%Z)))
                               ([], 2%nat) ([9%Z], 2%nat))
                  = Suspended (frame_of (Suspended (Sync.ZipLeft
                                  (Sync.new (spy (values [1; 2]%Z)))
                                  (Sync.new (spy (values [7; 8; 9]%Z)))
                                  ([], 2%nat) ([9%Z], 2%nat))))
           | _, _ => False
           end).
Proof.
  pose proof (C4_zip_stops_at_the_shorter_side Z) as C4.
  split; [| split; [| split]].
  - apply (proj1 (C4 (Sync.new (values [1; 2]%Z)) (Sync.new (values [7; 8; 9]%Z)))
             [1; 2]%Z [7; 8; 9]%Z [] []); source_drains.
  - apply (proj1 (proj2 (C4 (Sync.new (values [1; 2]%Z))
                            (Sync.repeatWith (total (fun i => i)))))
             [1; 2]%Z (fun n => Z.of_nat n) []).
    + source_drains.
    + apply (repeatWith_endless (fun i => i)).
  - apply (proj1 (proj2 (proj2 (C4 (Sync.repeatWith (total (fun i => i)))
                                   (Sync.new (values [7; 8; 9]%Z)))))
             (fun n => Z.of_nat n) [7; 8; 9]%Z []).
    + apply (repeatWith_endless (fun i => i)).
    + source_drains.
  - destruct (proj1 (proj2 (proj2 (proj2
               (C4 (Sync.new (values [1; 2]%Z)) (Sync.new (values [7; 8; 9]%Z))))))
               (values [1; 2]%Z) (values [7; 8; 9]%Z) [2%Z] 1%nat [8; 9]%Z 1%nat
               (yielded (2, 8)%Z)
               (Suspended (Sync.ZipLeft (Sync.new (spy (values [1; 2]%Z)))
                             (Sync.new (spy (values [7; 8; 9]%Z)))
                             ([], 2%nat) ([9%Z], 2%nat))))
      as (rl & sl' & rr & sr' & Hl & Hr & Hf & Hm).
    + eapply pull_skip; [reflexivity |]. apply pull_emit. reflexivity.
    + exists rl, sl', rr, sr'. repeat split; try assumption.
      cbn in Hl, Hr. injection Hl as <- <-. injection Hr as <- <-. exact Hm.
Defined.

(** [zip] reads [done ?? true]: a result that leaves [done] out counts as
    a report of exhaustion there, while [for...of] takes it for an element.
    Over a source of that kind [collect()] returns the elements and [zip]
    returns no pair. *)
Remark zip_takes_missing_done_for_exhaustion :
  Sync.collect (Sync.new (bare [1; 2; 3]%Z)) 4 = Returned [1; 2; 3]%Z []
  /\ Sync.collect (Sync.zip (Sync.new (bare [1; 2; 3]%Z))
                            (Sync.new (values [7; 8; 9]%Z))) 2
     = Returned []
         (Completed (Sync.ZipLeft (Sync.new (bare [1; 2; 3]%Z))
                       (Sync.new (values [7; 8; 9]%Z)) [2; 3]%Z [8; 9]%Z)).
Proof. split; reflexivity. Qed.

(** The result of [collect()] is the same whatever fuel was enough. *)
Lemma sync_collects_unique {T : Type} (it : Sync.Iter T) r1 r2 :
  sync_collects it r1 -> sync_collects it r2 -> r1 = r2.
Proof.
  intros (f1 & s1 & H1) (f2 & s2 & H2). unfold Sync.collect, Sync.reduce in *.
  assert (E : Sync.reduce_loop it (total2 (fun prev curr => prev ++ [curr])) f1 []
                (start it)
              = Sync.reduce_loop it (total2 (fun prev curr => prev ++ [curr])) f2 []
                  (start it)).
  { apply reduce_loop_deterministic; congruence. }
  congruence.
Qed.

Lemma async_collects_unique {T : Type} (it : Async.AsyncIter T) r1 r2 :
  async_collects it r1 -> async_collects it r2 -> r1 = r2.
Proof. exact (sync_collects_unique it r1 r2). Qed.

(** C10: the turn in which [zip] ends still calls both sides.  With a left
    side of [m] elements and a right side of more than [m], draining the zip
    returns exactly [m] pairs, the pairs of the left elements with the first
    [m] right ones, after exactly [m + 1] calls of [next()] on each side: the
    right source is left just after its [(m+1)]-th element [x], which appears
    in no pair.  [AsyncIter.zip] does the same. *)
Theorem C10_zip_last_turn_calls_both_sides :
  forall (T : Type),
  (forall (inner other : Iterator T) l1 l2 s1 s2,
     drains (Sync.new inner) (istate inner) l1 s1 ->
     drains (Sync.new other) (istate other) l2 s2 ->
     (length l1 < length l2)%nat ->
     exists fuel x sr,
       nth_error l2 (length l1) = Some x
       /\ reaches (Sync.new other) (istate other) (firstn (length l1) l2) (yielded x) sr
       /\ Sync.collect (Sync.zip (Sync.new (spy inner)) (Sync.new (spy other))) fuel
          = Returned (combine l1 l2)
              (Completed (Sync.ZipLeft (Sync.new (spy inner)) (Sync.new (spy other))
                            (s1, S (length l1)) (sr, S (length l1))))
       /\ combine l1 l2 = combine l1 (firstn (length l1) l2)
       /\ length (combine l1 l2) = length l1)
  /\ (forall (inner other : Async.AsyncIterator T) l1 l2 x1 x2,
        drains (Async.new inner) (start (Async.new inner)) l1 x1 ->
        drains (Async.new other) (start (Async.new other)) l2 x2 ->
        (length l1 < length l2)%nat ->
        exists fuel x xr,
          nth_error l2 (length l1) = Some x
          /\ reaches (Async.new other) (start (Async.new other))
               (firstn (length l1) l2) (yielded x) xr
          /\ Async.collect
               (Async.zip (Async.new (Async.spy inner)) (Async.new (Async.spy other))) fuel
             = Returned (combine l1 l2)
                 (Completed (Async.MkZip
                    (Async.new (Async.spy inner)) (Async.new (Async.spy other))
                    (Async.Pending (spied inner (S (length l1)) x1))
                    (Async.Pending (spied other (S (length l1)) xr))))
          /\ in_flight x1 = O /\ in_flight xr = O
          /\ calls (Async.call_state (spied inner (S (length l1)) x1)) = S (length l1)
          /\ calls (Async.call_state (spied other (S (length l1)) xr)) = S (length l1)
          /\ length (combine l1 l2) = length l1).
Proof.
  intros T. split.
  - intros inner other l1 l2 s1 s2 H1 H2 Hlt.
    destruct (drains_prefix _ l2 _ _ _ H2 Hlt) as (x & sr & Hn & Hr).
    assert (Hlen : length l1 = length (firstn (length l1) l2))
      by (rewrite length_firstn; lia).
    pose proof (new_spy_reaches inner _ _ _ _ O H1) as H1'.
    pose proof (new_spy_reaches other _ _ _ _ O Hr) as Hr'.
    rewrite <- Hlen in Hr'. simpl in H1', Hr'.
    pose proof (zip_drains (Sync.new (spy inner)) (Sync.new (spy other))
                  _ _ _ _ _ _ _ _ H1' Hr' Hlen (or_introl eq_refl)) as Hd.
    destruct (collect_returns _ _ _ Hd) as [fuel Hf].
    exists fuel, x, sr. rewrite <- combine_firstn_l in Hf.
    repeat split; try assumption.
    + apply combine_firstn_l.
    + rewrite length_combine. lia.
  - intros inner other l1 l2 x1 x2 H1 H2 Hlt.
    destruct (drains_prefix _ l2 _ _ _ H2 Hlt) as (x & xr & Hn & Hr).
    assert (Hlen : length l1 = length (firstn (length l1) l2))
      by (rewrite length_firstn; lia).
    destruct (async_new_spy_reaches inner _ _ _ _ O H1) as [H1' F1].
    destruct (async_new_spy_reaches other _ _ _ _ O Hr) as [Hr' Fr].
    rewrite <- Hlen in Hr'.
    replace (0 + length l1 + 1)%nat with (S (length l1)) in H1', Hr' by lia.
    pose proof (azip_drains (Async.new (Async.spy inner)) (Async.new (Async.spy other))
                  _ _ _ _ _ _ _ _ H1' Hr' Hlen (or_introl eq_refl)) as Hd.
    destruct (async_collect_returns _ _ _ Hd) as [fuel Hf].
    exists fuel, x, xr. rewrite <- combine_firstn_l in Hf.
    repeat split; try assumption.
    + destruct x1; [reflexivity | discriminate].
    + destruct xr; [reflexivity | discriminate].
    + rewrite length_combine. lia.
Qed.

Lemma C10_zip_last_turn_calls_both_sides_witness :
  (exists fuel x sr,
     nth_error [7; 8; 9]%Z 2 = Some x
     /\ reaches (Sync.new (values [7; 8; 9]%Z)) [7; 8; 9]%Z (firstn 2 [7; 8; 9]%Z)
          (yielded x) sr
     /\ Sync.collect (Sync.zip (Sync.new (spy (values [1; 2]%Z)))
                               (Sync.new (spy (values [7; 8; 9]%Z)))) fuel
        = Returned (combine [1; 2] [7; 8; 9])%Z
            (Completed (Sync.ZipLeft (Sync.new (spy (values [1; 2]%Z)))
                          (Sync.new (spy (values [7; 8; 9]%Z)))
                          ([], 3%nat) (sr, 3%nat)))
     /\ combine [1; 2]%Z [7; 8; 9]%Z = combine [1; 2]%Z (firstn 2 [7; 8; 9]%Z)
     /\ length (combine [1; 2] [7; 8; 9])%Z = 2%nat)
  /\ (exists fuel x xr,
        nth_error [7; 8; 9]%Z 2 = Some x
        /\ reaches (Async.new (Async.values 1 [7; 8; 9]%Z))
             (start (Async.new (Async.values 1 [7; 8; 9]%Z)))
             (firstn 2 [7; 8; 9]%Z) (yielded x) xr
        /\ Async.collect
             (Async.zip (Async.new (Async.spy (Async.values 0 [1; 2]%Z)))
                        (Async.new (Async.spy (Async.values 1 [7; 8; 9]%Z)))) fuel
           = Returned (combine [1; 2] [7; 8; 9])%Z
               (Completed (Async.MkZip
                  (Async.new (Async.spy (Async.values 0 [1; 2]%Z)))
                  (Async.new (Async.spy (Async.values 1 [7; 8; 9]%Z)))
                  (Async.Pending
                     (spied (Async.values 0 [1; 2]%Z) 3
                        (Async.Idle (Async.values 0 [1; 2]%Z) [])))
                  (Async.Pending (spied (Async.values 1 [7; 8; 9]%Z) 3 xr))))
        /\ in_flight (Async.Idle (Async.values 0 [1; 2]%Z) []) = O
        /\ in_flight xr = O
        /\ calls (Async.call_state
                    (spied (Async.values 0 [1; 2]%Z) 3
                       (Async.Idle (Async.values 0 [1; 2]%Z) []))) = 3%nat
        /\ calls (Async.call_state (spied (Async.values 1 [7; 8; 9]%Z) 3 xr)) = 3%nat
        /\ length (combine [1; 2] [7; 8; 9])%Z = 2%nat).
Proof.
  split.
  - apply (proj1 (C10_zip_last_turn_calls_both_sides Z)
             (values [1; 2]%Z) (values [7; 8; 9]%Z) [1; 2]%Z [7; 8; 9]%Z [] []).
    + source_drains.
    + source_drains.
    + simpl. lia.
  - apply (proj2 (C10_zip_last_turn_calls_both_sides Z)
             (Async.values 0 [1; 2]%Z) (Async.values 1 [7; 8; 9]%Z)
             [1; 2]%Z [7; 8; 9]%Z
             (Async.Idle (Async.values 0 [1; 2]%Z) [])
             (Async.Idle (Async.values 1 [7; 8; 9]%Z) [])).
    + source_drains.
    + source_drains.
    + simpl. lia.
Defined.

(** ** [chain], [filterMap], [skip] *)

Lemma sync_collects_drains {T : Type} (it : Sync.Iter T) l s' :
  drains it (start it) l s' -> sync_collects it l.
Proof. intros H. destruct (collect_returns it l s' H) as [fuel Hf]. exists fuel, s'. exact Hf. Qed.

Lemma async_collects_drains {T : Type} (it : Async.AsyncIter T) l s' :
  drains it (start it) l s' -> async_collects it l.
Proof.
  intros H. destruct (async_collect_returns it l s' H) as [fuel Hf].
  exists fuel, s'. exact Hf.
Qed.

Lemma Forall2_collects_sync {T : Type} (others : list (Sync.Iter T)) ls :
  Forall2 (fun m l => sequence_of m l) others ls -> Forall2 sync_collects others ls.
Proof.
  induction 1 as [| m l others ls [s' H] _ IH]; constructor; [| exact IH].
  eapply sync_collects_drains; eassumption.
Qed.

Lemma Forall2_collects_async {T : Type} (others : list (Async.AsyncIter T)) ls :
  Forall2 (fun m l => sequence_of m l) others ls -> Forall2 async_collects others ls.
Proof.
  induction 1 as [| m l others ls [s' H] _ IH]; constructor; [| exact IH].
  eapply async_collects_drains; eassumption.
Qed.

(** C5: [chain] hands out the receiver's elements, then those of each
    argument in argument order, each argument to its end before the next is
    entered: when the receiver's [collect()] returns [l] and the arguments'
    return [ls], the [collect()] of the chain returns [l] followed by the
    lists of [ls] in order.  The same holds for [AsyncIter]. *)
Theorem C5_chain_concatenates_in_argument_order :
  forall (T : Type),
  (forall (iter : Sync.Iter T) (others : list (Sync.Iter T)) l ls,
     sequence_of iter l -> Forall2 (fun m l => sequence_of m l) others ls ->
     sync_collects iter l /\ Forall2 sync_collects others ls
     /\ sync_collects (Sync.chain iter others) (l ++ concat ls))
  /\ (forall (iter : Async.AsyncIter T) (others : list (Async.AsyncIter T)) l ls,
        sequence_of iter l -> Forall2 (fun m l => sequence_of m l) others ls ->
        async_collects iter l /\ Forall2 async_collects others ls
        /\ async_collects (Async.chain iter others) (l ++ concat ls)).
Proof.
  intros T. split; intros iter others l ls Hl Hls.
  - split; [| split].
    + destruct Hl as [s' Hl]. eapply sync_collects_drains; eassumption.
    + apply Forall2_collects_sync, Hls.
    + destruct (chain_drains iter others l ls Hl Hls) as (g & Hd).
      eapply sync_collects_drains; eassumption.
  - split; [| split].
    + destruct Hl as [s' Hl]. eapply async_collects_drains; eassumption.
    + apply Forall2_collects_async, Hls.
    + destruct (async_chain_drains iter others l ls Hl Hls) as (g & Hd).
      eapply async_collects_drains; eassumption.
Qed.

Lemma C5_chain_concatenates_in_argument_order_witness :
  (sync_collects (Sync.new (values [1; 2; 3; 4; 5]%Z)) [1; 2; 3; 4; 5]%Z
   /\ Forall2 sync_collects
        [Sync.new (values [6; 7; 8]%Z); Sync.new (values [9; 10]%Z)]
        [[6; 7; 8]%Z; [9; 10]%Z]
   /\ sync_collects
        (Sync.chain (Sync.new (values [1; 2; 3; 4; 5]%Z))
           [Sync.new (values [6; 7; 8]%Z); Sync.new (values [9; 10]%Z)])
        ([1; 2; 3; 4; 5]%Z ++ concat [[6; 7; 8]%Z; [9; 10]%Z]))
  /\ (async_collects (Async.new (Async.values 1 [1; 2]%Z)) [1; 2]%Z
      /\ Forall2 async_collects
           [Async.new (Async.values 0 [3%Z]); Async.new (Async.values 2 [4; 5]%Z)]
           [[3%Z]; [4; 5]%Z]
      /\ async_collects
           (Async.chain (Async.new (Async.values 1 [1; 2]%Z))
              [Async.new (Async.values 0 [3%Z]); Async.new (Async.values 2 [4; 5]%Z)])
           ([1; 2]%Z ++ concat [[3%Z]; [4; 5]%Z])).
Proof.
  split.
  - apply (proj1 (C5_chain_concatenates_in_argument_order Z)).
    + eexists. source_drains.
    + repeat constructor; eexists; source_drains.
  - apply (proj2 (C5_chain_concatenates_in_argument_order Z)).
    + eexists. source_drains.
    + repeat constructor; eexists; source_drains.
Defined.

(** C6: [filterMap(f)] hands out [f(item)] for every item on which [f] does
    not return [undefined], in the order of the source, whether [f] is
    synchronous or is awaited; over the integers 1..10 with
    [x => x % 2 == 0 ? undefined : x * 2], [collect()] returns
    [[2, 6, 10, 14, 18]]. *)
Theorem C6_filterMap_keeps_defined_results :
  (forall (T Output : Type) (f : T -> option Output) (iter : Sync.Iter T) l,
     sequence_of iter l ->
     sync_collects (Sync.filterMap (total f) iter) (defined f l))
  /\ (forall (T Output : Type) (f : T -> option Output) latency
             (iter : Async.AsyncIter T) l,
        sequence_of iter l ->
        async_collects (Async.filterMap (Async.suspending latency f) iter) (defined f l)
        /\ async_collects (Async.filterMapSync (Async.returning_defined f) iter)
             (defined f l))
  /\ (forall (A B : Type) (f : A -> option B) l y,
        In y (defined f l) <-> exists x, In x l /\ f x = Some y)
  /\ (forall (A B : Type) (f : A -> option B) l1 l2,
        defined f (l1 ++ l2) = defined f l1 ++ defined f l2)
  /\ sync_collects
       (Sync.filterMap
          (total (fun x => if (Z.rem x 2 =? 0)%Z then None else Some (x * 2)%Z))
          (Sync.new (sequentialIntegers 1 (Some 10%Z))))
       [2; 6; 10; 14; 18]%Z
  /\ async_collects
       (Async.filterMap
          (Async.suspending (fun _ => 1%nat)
             (fun x => if (Z.rem x 2 =? 0)%Z then None else Some (x * 2)%Z))
          (Async.new (Async.values 0 [1; 2; 3; 4; 5; 6; 7; 8; 9; 10]%Z)))
       [2; 6; 10; 14; 18]%Z.
Proof.
  split; [| split; [| split; [| split; [| split]]]].
  - intros T Output f iter l [s' H].
    eapply sync_collects_drains. apply filterMap_drains; [exact H | apply Forall_total].
  - intros T Output f latency iter l [s' H]. split.
    + eapply async_collects_drains.
      apply async_filterMap_drains; [exact H | apply Forall_suspending].
    + eapply async_collects_drains.
      apply (filterMapSync_drains _ f); [exact H | apply Forall_returning_defined].
  - intros A B f l y. induction l as [|x l IH]; simpl.
    + split; [intros [] | intros (x & [] & _)].
    + destruct (f x) as [y0|] eqn:E; simpl; rewrite IH; split.
      * intros [<- | (x0 & Hin & Hx)]; [exists x; auto | exists x0; auto].
      * intros (x0 & [<- | Hin] & Hx); [left; congruence | right; exists x0; auto].
      * intros (x0 & Hin & Hx). exists x0; auto.
      * intros (x0 & [<- | Hin] & Hx); [congruence | exists x0; auto].
  - intros A B f l1 l2. induction l1 as [|x l1 IH]; simpl; [reflexivity |].
    destruct (f x); simpl; rewrite IH; reflexivity.
  - exists 20%nat. eexists. reflexivity.
  - exists 60%nat. eexists. reflexivity.
Qed.

Lemma C6_filterMap_keeps_defined_results_witness :
  sync_collects
    (Sync.filterMap (total (fun x => if (x <? 2)%Z then None else Some (x + 1)%Z))
       (Sync.new (values [1; 2; 3]%Z)))
    (defined (fun x => if (x <? 2)%Z then None else Some (x + 1)%Z) [1; 2; 3]%Z)
  /\ async_collects
       (Async.filterMap
          (Async.suspending (fun _ => 2%nat)
             (fun x => if (x <? 2)%Z then None else Some (x + 1)%Z))
          (Async.new (Async.values 1 [1; 2; 3]%Z)))
       (defined (fun x => if (x <? 2)%Z then None else Some (x + 1)%Z) [1; 2; 3]%Z).
Proof.
  split.
  - apply (proj1 C6_filterMap_keeps_defined_results). eexists. source_drains.
  - apply (proj1 (proj2 C6_filterMap_keeps_defined_results)). eexists. source_drains.
Defined.

(** C7: [skip(n)] drops the first [n] elements it receives from the parent
    and hands out the rest in order, so the first [n] elements of the
    parent's [collect()] followed by the [collect()] of [skip(n)] are the
    parent's [collect()]; in particular for [0 <= n <= length]. *)
Theorem C7_skip_drops_the_first_n :
  forall (T : Type) (n : Z),
  (forall (iter : Sync.Iter T) l,
     sequence_of iter l -> (0 <= n <= Z.of_nat (length l))%Z ->
     sync_collects iter l
     /\ sync_collects (Sync.skip n iter) (skipn (Z.to_nat n) l)
     /\ firstn (Z.to_nat n) l ++ skipn (Z.to_nat n) l = l
     /\ length (skipn (Z.to_nat n) l) = (length l - Z.to_nat n)%nat)
  /\ (forall (iter : Async.AsyncIter T) l,
        sequence_of iter l -> (0 <= n <= Z.of_nat (length l))%Z ->
        async_collects iter l
        /\ async_collects (Async.skip n iter) (skipn (Z.to_nat n) l)
        /\ firstn (Z.to_nat n) l ++ skipn (Z.to_nat n) l = l
        /\ length (skipn (Z.to_nat n) l) = (length l - Z.to_nat n)%nat).
Proof.
  intros T n. split; intros iter l [s' H] Hn.
  - repeat split.
    + eapply sync_collects_drains; eassumption.
    + eapply sync_collects_drains. apply skip_drains. exact H.
    + apply firstn_skipn.
    + apply length_skipn.
  - repeat split.
    + eapply async_collects_drains; eassumption.
    + eapply async_collects_drains. apply async_skip_drains. exact H.
    + apply firstn_skipn.
    + apply length_skipn.
Qed.

Lemma C7_skip_drops_the_first_n_witness :
  (sync_collects (Sync.new (sequentialIntegers 1 (Some 10%Z))) [1; 2; 3; 4; 5; 6; 7; 8; 9; 10]%Z
   /\ sync_collects (Sync.skip 5 (Sync.new (sequentialIntegers 1 (Some 10%Z))))
        (skipn (Z.to_nat 5) [1; 2; 3; 4; 5; 6; 7; 8; 9; 10]%Z)
   /\ firstn (Z.to_nat 5) [1; 2; 3; 4; 5; 6; 7; 8; 9; 10]%Z
      ++ skipn (Z.to_nat 5) [1; 2; 3; 4; 5; 6; 7; 8; 9; 10]%Z
      = [1; 2; 3; 4; 5; 6; 7; 8; 9; 10]%Z
   /\ length (skipn (Z.to_nat 5) [1; 2; 3; 4; 5; 6; 7; 8; 9; 10]%Z)
      = (length [1; 2; 3; 4; 5; 6; 7; 8; 9; 10]%Z - Z.to_nat 5)%nat)
  /\ (async_collects (Async.new (Async.values 1 [1; 2; 3]%Z)) [1; 2; 3]%Z
      /\ async_collects (Async.skip 2 (Async.new (Async.values 1 [1; 2; 3]%Z)))
           (skipn (Z.to_nat 2) [1; 2; 3]%Z)
      /\ firstn (Z.to_nat 2) [1; 2; 3]%Z ++ skipn (Z.to_nat 2) [1; 2; 3]%Z = [1; 2; 3]%Z
      /\ length (skipn (Z.to_nat 2) [1; 2; 3]%Z) = (length [1; 2; 3]%Z - Z.to_nat 2)%nat).
Proof.
  split.
  - apply (proj1 (C7_skip_drops_the_first_n Z 5)).
    + eexists. source_drains.
    + simpl. lia.
  - apply (proj2 (C7_skip_drops_the_first_n Z 2)).
    + eexists. source_drains.
    + simpl. lia.
Defined.

(** ** Failures *)

Section Calls.
Context {T : Type} (m : Machine T).



End Calls.



(** ** [AsyncIter] against [Iter] *)

(** C2: over the same finite sequence of elements, every operator the two
    classes share gives the same ordered result on [AsyncIter] as on [Iter]:
    [filter], [filterMap], [map] (with the function awaited, however many
    turns its promise takes, or synchronous; [mapSync] also with a function
    that returns a promise, which the [yield] awaits), [chain], [zip],
    [enumerate], [take], [skip], and the terminal operations [collect],
    [reduce], [count] and [forEach]. *)
Theorem C2_async_operators_agree_with_sync :
  forall (T Output X W : Type) (it : Sync.Iter T) (ait : Async.AsyncIter T) (l : list T),
  sequence_of it l -> sequence_of ait l ->
  (forall (p : T -> bool) latency,
     sync_collects (Sync.filter (total p) it) (List.filter p l)
     /\ async_collects (Async.filter (Async.suspending latency p) ait) (List.filter p l)
     /\ async_collects (Async.filterSync (total p) ait) (List.filter p l))
  /\ (forall (f : T -> option Output) latency,
        sync_collects (Sync.filterMap (total f) it) (defined f l)
        /\ async_collects (Async.filterMap (Async.suspending latency f) ait) (defined f l)
        /\ async_collects (Async.filterMapSync (Async.returning_defined f) ait)
             (defined f l))
  /\ (forall (f : T -> Output) latency,
        sync_collects (Sync.map (total f) it) (List.map f l)
        /\ async_collects (Async.map (Async.suspending latency f) ait) (List.map f l)
        /\ async_collects (Async.mapSync (Async.returning f) ait) (List.map f l)
        /\ async_collects (Async.mapSync (Async.promising latency f) ait)
             (List.map f l))
  /\ (forall (others : list (Sync.Iter T)) (aothers : list (Async.AsyncIter T)) ls,
        Forall2 (fun m l => sequence_of m l) others ls ->
        Forall2 (fun m l => sequence_of m l) aothers ls ->
        sync_collects (Sync.chain it others) (l ++ concat ls)
        /\ async_collects (Async.chain ait aothers) (l ++ concat ls))
  /\ (forall (right : Sync.Iter T) (aright : Async.AsyncIter T) l2,
        sequence_of right l2 -> sequence_of aright l2 ->
        sync_collects (Sync.zip it right) (combine l l2)
        /\ async_collects (Async.zip ait aright) (combine l l2))
  /\ (sync_collects (Sync.enumerate it) (indexed 0 l)
      /\ async_collects (Async.enumerate ait) (indexed 0 l))
  /\ (forall limit,
        sync_collects (Sync.take limit it) (firstn (Z.to_nat limit) l)
        /\ async_collects (Async.take limit ait) (firstn (Z.to_nat limit) l))
  /\ (forall items,
        sync_collects (Sync.skip items it) (skipn (Z.to_nat items) l)
        /\ async_collects (Async.skip items ait) (skipn (Z.to_nat items) l))
  /\ (sync_collects it l /\ async_collects ait l)
  /\ (forall (f : X -> T -> X) initial,
        (exists fuel s', Sync.reduce it (total2 f) initial fuel
                         = Returned (fold_left f l initial) s')
        /\ (exists fuel s', Async.reduce ait (total2 f) initial fuel
                            = Returned (fold_left f l initial) s'))
  /\ ((exists fuel s', Sync.count it fuel = Returned (Z.of_nat (length l)) s')
      /\ (exists fuel s', Async.count ait fuel = Returned (Z.of_nat (length l)) s'))
  /\ (forall (func : T -> W -> W * Exc unit) w w',
        run_calls func l w = Some w' ->
        (exists fuel s', Sync.forEach it func w fuel = (w', Returned tt s'))
        /\ (exists fuel s', Async.forEach ait func w fuel = (w', Returned tt s'))).
Proof.
  intros T Output X W it ait l [s Hs] [a Ha].
  repeat match goal with |- _ /\ _ => split end.
  - intros p latency. repeat split.
    + eapply sync_collects_drains, filter_drains; [exact Hs | apply Forall_total].
    + eapply async_collects_drains, async_filter_drains;
        [exact Ha | apply Forall_suspending].
    + eapply async_collects_drains, filterSync_drains;
        [exact Ha | apply Forall_total].
  - intros f latency. repeat split.
    + eapply sync_collects_drains, filterMap_drains; [exact Hs | apply Forall_total].
    + eapply async_collects_drains, async_filterMap_drains;
        [exact Ha | apply Forall_suspending].
    + eapply async_collects_drains, (filterMapSync_drains _ f);
        [exact Ha | apply Forall_returning_defined].
  - intros f latency. repeat split.
    + eapply sync_collects_drains, map_drains; [exact Hs | apply Forall_total].
    + eapply async_collects_drains, async_map_drains;
        [exact Ha | apply Forall_suspending].
    + eapply async_collects_drains, (mapSync_drains _ f);
        [exact Ha | apply Forall_returning].
    + eapply async_collects_drains, (mapSync_drains _ f);
        [exact Ha | apply Forall_promising].
  - intros others aothers ls Ho Hao. split.
    + destruct (chain_drains it others l ls (ex_intro _ s Hs) Ho) as (g & Hd).
      eapply sync_collects_drains; eassumption.
    + destruct (async_chain_drains ait aothers l ls (ex_intro _ a Ha) Hao) as (g & Hd).
      eapply async_collects_drains; eassumption.
  - intros right aright l2 [s2 H2] [a2 Ha2]. split.
    + destruct (zip_drains_finite it right l l2 s s2 Hs H2) as (g & Hd).
      eapply sync_collects_drains; eassumption.
    + destruct (async_zip_drains_finite ait aright l l2 a a2 Ha Ha2) as (g & Hd).
      eapply async_collects_drains; eassumption.
  - eapply sync_collects_drains, enumerate_drains; exact Hs.
  - eapply async_collects_drains, async_enumerate_drains; exact Ha.
  - intros limit. split.
    + destruct (take_drains limit it l s Hs) as (g & Hd).
      eapply sync_collects_drains; eassumption.
    + destruct (async_take_drains limit ait l a Ha) as (g & Hd).
      eapply async_collects_drains; eassumption.
  - intros items. split.
    + eapply sync_collects_drains, skip_drains; exact Hs.
    + eapply async_collects_drains, async_skip_drains; exact Ha.
  - eapply sync_collects_drains; exact Hs.
  - eapply async_collects_drains; exact Ha.
  - intros f initial. split.
    + destruct (reduce_returns it f initial l s Hs) as [fuel Hf]. eauto.
    + destruct (async_reduce_returns ait f initial l a Ha) as [fuel Hf]. eauto.
  - destruct (count_returns it l s Hs) as [fuel Hf]. eauto.
  - destruct (async_count_returns ait l a Ha) as [fuel Hf]. eauto.
  - intros func w w' Hw. split.
    + destruct (forEach_returns it func l s w w' Hs Hw) as [fuel Hf]. eauto.
    + destruct (async_forEach_returns ait func l a w w' Ha Hw) as [fuel Hf]. eauto.
Qed.

Lemma C2_async_operators_agree_with_sync_witness :
  let l := [1; 2; 3; 4]%Z in
  let it := Sync.new (sequentialIntegers 1 (Some 4%Z)) in
  let ait := Async.new (Async.values 1 l) in
  let even := fun x : Z => (Z.rem x 2 =? 0)%Z in
  (sync_collects (Sync.filter (total even) it) (List.filter even l)
   /\ async_collects (Async.filter (Async.suspending (fun _ => 3%nat) even) ait)
        (List.filter even l)
   /\ async_collects (Async.filterSync (total even) ait) (List.filter even l))
  /\ (sync_collects (Sync.map (total Z.succ) it) (List.map Z.succ l)
      /\ async_collects (Async.map (Async.suspending (fun _ => 2%nat) Z.succ) ait)
           (List.map Z.succ l)
      /\ async_collects (Async.mapSync (Async.returning Z.succ) ait) (List.map Z.succ l)
      /\ async_collects (Async.mapSync (Async.promising (fun _ => 2%nat) Z.succ) ait)
           (List.map Z.succ l))
  /\ (sync_collects (Sync.chain it [Sync.new (values [5; 6]%Z)]) (l ++ concat [[5; 6]%Z])
      /\ async_collects (Async.chain ait [Async.new (Async.values 0 [5; 6]%Z)])
           (l ++ concat [[5; 6]%Z]))
  /\ (sync_collects (Sync.zip it (Sync.new (values [7; 8]%Z))) (combine l [7; 8]%Z)
      /\ async_collects (Async.zip ait (Async.new (Async.values 2 [7; 8]%Z)))
           (combine l [7; 8]%Z))
  /\ ((exists fuel s', Sync.forEach it (fun x w => ((x + w)%Z, Ok tt)) 0%Z fuel
                       = (10%Z, Returned tt s'))
      /\ (exists fuel s', Async.forEach ait (fun x w => ((x + w)%Z, Ok tt)) 0%Z fuel
                          = (10%Z, Returned tt s'))).
Proof.
  intros l it ait even.
  assert (Hit : sequence_of it l) by (eexists; source_drains).
  assert (Hait : sequence_of ait l) by (eexists; source_drains).
  pose proof (C2_async_operators_agree_with_sync Z Z Z Z it ait l Hit Hait)
    as (Hfilter & _ & Hmap & Hchain & Hzip & _ & _ & _ & _ & _ & _ & HforEach).
  split; [| split; [| split; [| split]]].
  - apply Hfilter.
  - apply Hmap.
  - apply Hchain; repeat constructor; eexists; source_drains.
  - apply Hzip; eexists; source_drains.
  - apply HforEach. reflexivity.
Defined.

(** * Further properties of the two classes *)

(** ** Lists handed out by composed operators *)

Lemma filter_filter_andb {A : Type} (p1 p2 : A -> bool) (l : list A) :
  List.filter p2 (List.filter p1 l) = List.filter (fun x => p1 x && p2 x) l.
Proof.
  induction l as [|x l IH]; simpl; [reflexivity |].
  destruct (p1 x); simpl; [destruct (p2 x) |]; rewrite IH; reflexivity.
Qed.

Lemma defined_filter_map {A B : Type} (p : A -> bool) (g : A -> B) (l : list A) :
  defined (fun x => if p x then Some (g x) else None) l = List.map g (List.filter p l).
Proof.
  induction l as [|x l IH]; simpl; [reflexivity |].
  destruct (p x); simpl; rewrite IH; reflexivity.
Qed.

Lemma indexed_snd {T : Type} (l : list T) :
  forall index, List.map snd (indexed index l) = l.
Proof.
  induction l as [|x l IH]; intros index; simpl; [reflexivity |].
  rewrite IH. reflexivity.
Qed.

Lemma range_cons i n : range i (S n) = i :: range (i + 1) n.
Proof.
  unfold range. simpl. rewrite Z.add_0_r. f_equal.
  rewrite <- seq_shift, map_map. apply map_ext. intros k. lia.
Qed.

Lemma indexed_fst {T : Type} (l : list T) :
  forall index, List.map fst (indexed index l) = range index (length l).
Proof.
  induction l as [|x l IH]; intros index; [reflexivity |].
  simpl length. rewrite range_cons. simpl. rewrite IH. reflexivity.
Qed.

Lemma indexed_combine {T : Type} (l : list T) :
  forall index, indexed index l = combine (range index (length l)) l.
Proof.
  induction l as [|x l IH]; intros index; [reflexivity |].
  simpl length. rewrite range_cons. simpl. rewrite IH. reflexivity.
Qed.

Lemma length_indexed {T : Type} (l : list T) :
  forall index, length (indexed index l) = length l.
Proof.
  induction l as [|x l IH]; intros index; simpl; [reflexivity |].
  rewrite IH. reflexivity.
Qed.

(** X1: two [map]s in a row hand out what one [map] with the composed
    function hands out, [g(f(x))] for every element in order, in [Iter] and,
    whatever the latencies of the two awaited functions, in [AsyncIter]; two
    [mapSync]s in a row do the same, whether the two functions return their
    results or promises of them. *)
Theorem X1_map_after_map_composes :
  forall (T U V : Type) (f : T -> U) (g : U -> V),
  (forall (it : Sync.Iter T) l,
     sequence_of it l ->
     sync_collects (Sync.map (total g) (Sync.map (total f) it))
       (List.map (fun x => g (f x)) l)
     /\ sync_collects (Sync.map (total (fun x => g (f x))) it)
          (List.map (fun x => g (f x)) l))
  /\ (forall (ait : Async.AsyncIter T) l latency_f latency_g,
        sequence_of ait l ->
        async_collects
          (Async.map (Async.suspending latency_g g)
             (Async.map (Async.suspending latency_f f) ait))
          (List.map (fun x => g (f x)) l)
        /\ async_collects
             (Async.mapSync (Async.returning g) (Async.mapSync (Async.returning f) ait))
             (List.map (fun x => g (f x)) l)
        /\ async_collects
             (Async.mapSync (Async.promising latency_g g)
                (Async.mapSync (Async.promising latency_f f) ait))
             (List.map (fun x => g (f x)) l)).
Proof.
  intros T U V f g. split.
  - intros it l [s' H]. split.
    + pose proof (map_drains (total f) f it _ _ _ H (Forall_total f l)) as H1.
      pose proof (map_drains (total g) g (Sync.map (total f) it) _ _ _ H1
                    (Forall_total g _)) as H2.
      rewrite map_map in H2. eapply sync_collects_drains. exact H2.
    + eapply sync_collects_drains.
      exact (map_drains _ (fun x => g (f x)) it _ _ _ H (Forall_total _ l)).
  - intros ait l latency_f latency_g [s' H]. split; [| split].
    + pose proof (async_map_drains (Async.suspending latency_f f) f ait _ _ _ H
                    (Forall_suspending latency_f f l)) as H1.
      pose proof (async_map_drains (Async.suspending latency_g g) g
                    (Async.map (Async.suspending latency_f f) ait) _ _ _ H1
                    (Forall_suspending latency_g g _)) as H2.
      rewrite map_map in H2. eapply async_collects_drains. exact H2.
    + pose proof (mapSync_drains (Async.returning f) f ait _ _ _ H
                    (Forall_returning f l)) as H1.
      pose proof (mapSync_drains (Async.returning g) g
                    (Async.mapSync (Async.returning f) ait) _ _ _ H1
                    (Forall_returning g _)) as H2.
      rewrite map_map in H2. eapply async_collects_drains. exact H2.
    + pose proof (mapSync_drains (Async.promising latency_f f) f ait _ _ _ H
                    (Forall_promising latency_f f l)) as H1.
      pose proof (mapSync_drains (Async.promising latency_g g) g
                    (Async.mapSync (Async.promising latency_f f) ait) _ _ _ H1
                    (Forall_promising latency_g g _)) as H2.
      rewrite map_map in H2. eapply async_collects_drains. exact H2.
Qed.

Lemma X1_map_after_map_composes_witness :
  sync_collects
    (Sync.map (total (fun x => (x + 1)%Z)) (Sync.map (total (fun x => (x * 2)%Z))
       (Sync.new (values [1; 2; 3]%Z))))
    (List.map (fun x => (x * 2 + 1)%Z) [1; 2; 3]%Z)
  /\ async_collects
       (Async.map (Async.suspending (fun _ => 2%nat) (fun x => (x + 1)%Z))
          (Async.map (Async.suspending (fun _ => 1%nat) (fun x => (x * 2)%Z))
             (Async.new (Async.values 1 [1; 2; 3]%Z))))
       (List.map (fun x => (x * 2 + 1)%Z) [1; 2; 3]%Z)
  /\ async_collects
       (Async.mapSync (Async.returning (fun x => (x + 1)%Z))
          (Async.mapSync (Async.returning (fun x => (x * 2)%Z))
             (Async.new (Async.values 1 [1; 2; 3]%Z))))
       (List.map (fun x => (x * 2 + 1)%Z) [1; 2; 3]%Z)
  /\ async_collects
       (Async.mapSync (Async.promising (fun _ => 2%nat) (fun x => (x + 1)%Z))
          (Async.mapSync (Async.promising (fun _ => 1%nat) (fun x => (x * 2)%Z))
             (Async.new (Async.values 1 [1; 2; 3]%Z))))
       (List.map (fun x => (x * 2 + 1)%Z) [1; 2; 3]%Z).
Proof.
  pose proof (X1_map_after_map_composes Z Z Z (fun x => (x * 2)%Z) (fun x => (x + 1)%Z))
    as [Hs Ha].
  split.
  - apply (Hs (Sync.new (values [1; 2; 3]%Z)) [1; 2; 3]%Z). eexists. source_drains.
  - apply (Ha (Async.new (Async.values 1 [1; 2; 3]%Z)) [1; 2; 3]%Z
             (fun _ => 1%nat) (fun _ => 2%nat)).
    eexists. source_drains.
Defined.

(** X2: two [filter]s in a row keep exactly the elements that pass both
    predicates, in order: the result of one [filter] with [p1(x) && p2(x)]. *)
Theorem X2_filter_after_filter_is_conjunction :
  forall (T : Type) (p1 p2 : T -> bool),
  (forall (it : Sync.Iter T) l,
     sequence_of it l ->
     sync_collects (Sync.filter (total p2) (Sync.filter (total p1) it))
       (List.filter (fun x => p1 x && p2 x) l)
     /\ sync_collects (Sync.filter (total (fun x => p1 x && p2 x)) it)
          (List.filter (fun x => p1 x && p2 x) l))
  /\ (forall (ait : Async.AsyncIter T) l latency1 latency2,
        sequence_of ait l ->
        async_collects
          (Async.filter (Async.suspending latency2 p2)
             (Async.filter (Async.suspending latency1 p1) ait))
          (List.filter (fun x => p1 x && p2 x) l)).
Proof.
  intros T p1 p2. split.
  - intros it l [s' H]. split.
    + pose proof (filter_drains (total p1) p1 it _ _ _ H (Forall_total p1 l)) as H1.
      pose proof (filter_drains (total p2) p2 (Sync.filter (total p1) it) _ _ _ H1
                    (Forall_total p2 _)) as H2.
      rewrite filter_filter_andb in H2. eapply sync_collects_drains. exact H2.
    + eapply sync_collects_drains.
      exact (filter_drains _ (fun x => p1 x && p2 x) it _ _ _ H (Forall_total _ l)).
  - intros ait l latency1 latency2 [s' H].
    pose proof (async_filter_drains (Async.suspending latency1 p1) p1 ait _ _ _ H
                  (Forall_suspending latency1 p1 l)) as H1.
    pose proof (async_filter_drains (Async.suspending latency2 p2) p2
                  (Async.filter (Async.suspending latency1 p1) ait) _ _ _ H1
                  (Forall_suspending latency2 p2 _)) as H2.
    rewrite filter_filter_andb in H2. eapply async_collects_drains. exact H2.
Qed.

Lemma X2_filter_after_filter_is_conjunction_witness :
  sync_collects
    (Sync.filter (total (fun x => (x <? 4)%Z))
       (Sync.filter (total (fun x => (1 <? x)%Z)) (Sync.new (values [1; 2; 3; 4]%Z))))
    (List.filter (fun x => (1 <? x)%Z && (x <? 4)%Z) [1; 2; 3; 4]%Z)
  /\ async_collects
       (Async.filter (Async.suspending (fun _ => 1%nat) (fun x => (x <? 4)%Z))
          (Async.filter (Async.suspending (fun _ => 0%nat) (fun x => (1 <? x)%Z))
             (Async.new (Async.values 1 [1; 2; 3; 4]%Z))))
       (List.filter (fun x => (1 <? x)%Z && (x <? 4)%Z) [1; 2; 3; 4]%Z).
Proof.
  pose proof (X2_filter_after_filter_is_conjunction Z
                (fun x => (1 <? x)%Z) (fun x => (x <? 4)%Z)) as [Hs Ha].
  split.
  - apply (Hs (Sync.new (values [1; 2; 3; 4]%Z)) [1; 2; 3; 4]%Z). eexists. source_drains.
  - apply (Ha (Async.new (Async.values 1 [1; 2; 3; 4]%Z)) [1; 2; 3; 4]%Z).
    eexists. source_drains.
Defined.

(** X3: [filterMap] with [x => p(x) ? g(x) : undefined] hands out what
    [filter(p)] followed by [map(g)] hands out. *)
Theorem X3_filterMap_is_filter_then_map :
  forall (T Output : Type) (p : T -> bool) (g : T -> Output),
  (forall (it : Sync.Iter T) l,
     sequence_of it l ->
     sync_collects (Sync.filterMap (total (fun x => if p x then Some (g x) else None)) it)
       (List.map g (List.filter p l))
     /\ sync_collects (Sync.map (total g) (Sync.filter (total p) it))
          (List.map g (List.filter p l)))
  /\ (forall (ait : Async.AsyncIter T) l latency latency_p latency_g,
        sequence_of ait l ->
        async_collects
          (Async.filterMap
             (Async.suspending latency (fun x => if p x then Some (g x) else None)) ait)
          (List.map g (List.filter p l))
        /\ async_collects
             (Async.map (Async.suspending latency_g g)
                (Async.filter (Async.suspending latency_p p) ait))
             (List.map g (List.filter p l))).
Proof.
  intros T Output p g. split.
  - intros it l [s' H]. split.
    + rewrite <- defined_filter_map. eapply sync_collects_drains.
      exact (filterMap_drains _ _ it _ _ _ H (Forall_total _ l)).
    + pose proof (filter_drains (total p) p it _ _ _ H (Forall_total p l)) as H1.
      eapply sync_collects_drains.
      exact (map_drains (total g) g (Sync.filter (total p) it) _ _ _ H1
               (Forall_total g _)).
  - intros ait l latency latency_p latency_g [s' H]. split.
    + rewrite <- defined_filter_map. eapply async_collects_drains.
      exact (async_filterMap_drains _ _ ait _ _ _ H (Forall_suspending latency _ l)).
    + pose proof (async_filter_drains (Async.suspending latency_p p) p ait _ _ _ H
                    (Forall_suspending latency_p p l)) as H1.
      eapply async_collects_drains.
      exact (async_map_drains (Async.suspending latency_g g) g
               (Async.filter (Async.suspending latency_p p) ait) _ _ _ H1
               (Forall_suspending latency_g g _)).
Qed.

Lemma X3_filterMap_is_filter_then_map_witness :
  sync_collects
    (Sync.filterMap
       (total (fun x => if (Z.rem x 2 =? 1)%Z then Some (x * 2)%Z else None))
       (Sync.new (sequentialIntegers 1 (Some 4%Z))))
    (List.map (fun x => (x * 2)%Z)
       (List.filter (fun x => (Z.rem x 2 =? 1)%Z) [1; 2; 3; 4]%Z))
  /\ sync_collects
       (Sync.map (total (fun x => (x * 2)%Z))
          (Sync.filter (total (fun x => (Z.rem x 2 =? 1)%Z))
             (Sync.new (sequentialIntegers 1 (Some 4%Z)))))
       (List.map (fun x => (x * 2)%Z)
          (List.filter (fun x => (Z.rem x 2 =? 1)%Z) [1; 2; 3; 4]%Z)).
Proof.
  apply (proj1 (X3_filterMap_is_filter_then_map Z Z
                  (fun x => (Z.rem x 2 =? 1)%Z) (fun x => (x * 2)%Z))
           (Sync.new (sequentialIntegers 1 (Some 4%Z))) [1; 2; 3; 4]%Z).
  eexists. source_drains.
Defined.

(** ** [enumerate], [flat], [repeatWith] *)

(** X4: [enumerate] pairs the elements, in order, with the indices
    0, 1, ..., one index per element it hands out itself: after a [filter]
    the indices number the elements that passed, not the ones the source
    had. *)
Theorem X4_enumerate_numbers_its_own_elements :
  forall (T : Type) (p : T -> bool),
  (forall (it : Sync.Iter T) l,
     sequence_of it l ->
     sync_collects (Sync.enumerate it) (combine (range 0 (length l)) l)
     /\ sync_collects (Sync.enumerate (Sync.filter (total p) it))
          (combine (range 0 (length (List.filter p l))) (List.filter p l)))
  /\ (forall (ait : Async.AsyncIter T) l,
        sequence_of ait l ->
        async_collects (Async.enumerate ait) (combine (range 0 (length l)) l)
        /\ async_collects (Async.enumerate (Async.filterSync (total p) ait))
             (combine (range 0 (length (List.filter p l))) (List.filter p l))).
Proof.
  intros T p. split.
  - intros it l [s' H]. split.
    + rewrite <- indexed_combine. eapply sync_collects_drains, enumerate_drains. exact H.
    + pose proof (filter_drains (total p) p it _ _ _ H (Forall_total p l)) as H1.
      rewrite <- indexed_combine.
      eapply sync_collects_drains.
      exact (enumerate_drains (Sync.filter (total p) it) _ _ H1).
  - intros ait l [s' H]. split.
    + rewrite <- indexed_combine.
      eapply async_collects_drains, async_enumerate_drains. exact H.
    + pose proof (filterSync_drains (total p) p ait _ _ _ H (Forall_total p l)) as H1.
      rewrite <- indexed_combine.
      eapply async_collects_drains.
      exact (async_enumerate_drains (Async.filterSync (total p) ait) _ _ H1).
Qed.

Lemma X4_enumerate_numbers_its_own_elements_witness :
  sync_collects (Sync.enumerate (Sync.new (values [5; 6; 7]%Z)))
    (combine (range 0 (length [5; 6; 7]%Z)) [5; 6; 7]%Z)
  /\ sync_collects
       (Sync.enumerate (Sync.filter (total (fun x => (5 <? x)%Z))
                          (Sync.new (values [5; 6; 7]%Z))))
       (combine (range 0 (length (List.filter (fun x => (5 <? x)%Z) [5; 6; 7]%Z)))
          (List.filter (fun x => (5 <? x)%Z) [5; 6; 7]%Z)).
Proof.
  apply (proj1 (X4_enumerate_numbers_its_own_elements Z (fun x => (5 <? x)%Z))
           (Sync.new (values [5; 6; 7]%Z)) [5; 6; 7]%Z).
  eexists. source_drains.
Defined.

Lemma range_as_map n : range 0 n = List.map (fun k => Z.of_nat k) (seq 0 n).
Proof. unfold range. apply map_ext. intros k. lia. Qed.

(** X5: on numbers, zipping the endless [repeatWith(i => i)] with a finite
    sequence gives the pairs [enumerate] gives on that sequence. *)
Theorem X5_zip_with_the_indices_is_enumerate :
  forall (it : Sync.Iter Z) l,
  sequence_of it l ->
  sync_collects (Sync.zip (Sync.repeatWith (total (fun i => i))) it)
    (combine (range 0 (length l)) l)
  /\ sync_collects (Sync.enumerate it) (combine (range 0 (length l)) l).
Proof.
  intros it l [s' H]. split.
  - destruct (endless_prefix (Sync.repeatWith (total (fun i : Z => i))) _ _ (length l)
                (repeatWith_endless (fun i => i))) as (sl & Hl).
    rewrite range_as_map. eapply sync_collects_drains.
    eapply (zip_drains (Sync.repeatWith (total (fun i : Z => i))) it);
      [exact Hl | exact H | | right; reflexivity].
    rewrite length_map, length_seq. reflexivity.
  - rewrite <- indexed_combine. eapply sync_collects_drains, enumerate_drains. exact H.
Qed.

Lemma X5_zip_with_the_indices_is_enumerate_witness :
  sync_collects
    (Sync.zip (Sync.repeatWith (total (fun i => i))) (Sync.new (values [5; 6; 7]%Z)))
    (combine (range 0 (length [5; 6; 7]%Z)) [5; 6; 7]%Z)
  /\ sync_collects (Sync.enumerate (Sync.new (values [5; 6; 7]%Z)))
       (combine (range 0 (length [5; 6; 7]%Z)) [5; 6; 7]%Z).
Proof.
  apply (X5_zip_with_the_indices_is_enumerate (Sync.new (values [5; 6; 7]%Z)) [5; 6; 7]%Z).
  eexists. source_drains.
Defined.

(** X6: [flat] hands out the elements of the arrays it receives, array after
    array, so its [collect()] is the concatenation of the arrays; after
    [map(f)] with an array-valued [f] it is the flat map of [f], and empty
    arrays contribute nothing. *)
Theorem X6_flat_concatenates_the_arrays :
  forall (T E : Type) (f : T -> list E),
  (forall (arrays : Sync.Iter (list E)) ls,
     sequence_of arrays ls ->
     sync_collects (Sync.flat arrays) (concat ls)
     /\ (Forall (fun a => a = []) ls -> sync_collects (Sync.flat arrays) []))
  /\ (forall (it : Sync.Iter T) l,
        sequence_of it l ->
        sync_collects (Sync.flat (Sync.map (total f) it)) (flat_map f l)).
Proof.
  intros T E f. split.
  - intros arrays ls [s' H].
    assert (Hc : sync_collects (Sync.flat arrays) (concat ls))
      by (eapply sync_collects_drains, flat_drains; exact H).
    split; [exact Hc |]. intros Hnil.
    replace (@nil E) with (concat ls); [exact Hc |].
    clear - Hnil. induction Hnil as [| a ls -> _ IH]; simpl; auto.
  - intros it l [s' H].
    pose proof (map_drains (total f) f it _ _ _ H (Forall_total f l)) as H1.
    rewrite flat_map_concat_map. eapply sync_collects_drains.
    exact (flat_drains (Sync.map (total f) it) _ _ H1).
Qed.

Lemma X6_flat_concatenates_the_arrays_witness :
  (sync_collects (Sync.flat (Sync.new (values [[1; 2]%Z; []; [3%Z]])))
     (concat [[1; 2]%Z; []; [3%Z]])
   /\ (Forall (fun a => a = []) [[1; 2]%Z; []; [3%Z]] ->
       sync_collects (Sync.flat (Sync.new (values [[1; 2]%Z; []; [3%Z]]))) []))
  /\ sync_collects
       (Sync.flat (Sync.map (total (fun x => [x; x]%Z)) (Sync.new (values [1; 2]%Z))))
       (flat_map (fun x => [x; x]%Z) [1; 2]%Z).
Proof.
  pose proof (X6_flat_concatenates_the_arrays Z Z (fun x => [x; x]%Z)) as [Hf Hm].
  split.
  - apply (Hf (Sync.new (values [[1; 2]%Z; []; [3%Z]]))). eexists. source_drains.
  - apply (Hm (Sync.new (values [1; 2]%Z))). eexists. source_drains.
Defined.

(** [repeatWith] while [func] returns. *)
Lemma repeatWith_emits_while {T : Type} (func : Z -> Exc T) (f : Z -> T) k :
  forall index,
  (forall i, (index <= i < index + Z.of_nat k)%Z -> func i = Ok (f i)) ->
  emits (Sync.repeatWith func) (Suspended index) (List.map f (range index k))
    (Suspended (index + Z.of_nat k)%Z).
Proof.
  induction k as [|k IH]; intros index Hok.
  - simpl. rewrite Z.add_0_r. constructor.
  - rewrite range_cons. simpl List.map.
    eapply emits_yield.
    + cbn. rewrite (Hok index) by lia. reflexivity.
    + replace (index + Z.of_nat (S k))%Z with (index + 1 + Z.of_nat k)%Z by lia.
      apply IH. intros i Hi. apply Hok. lia.
Qed.

(** X7: [repeatWith(func).take(limit).collect()] returns, with
    [func(0), ..., func(limit - 1)] in order, and with nothing when [limit]
    is zero or negative. *)
Theorem X7_repeatWith_take_hands_out_the_first_values :
  forall (T : Type) (f : Z -> T) (limit : Z),
  sync_collects (Sync.take limit (Sync.repeatWith (total f)))
    (List.map f (range 0 (Z.to_nat limit)))
  /\ length (List.map f (range 0 (Z.to_nat limit))) = Z.to_nat limit
  /\ ((limit <= 0)%Z -> sync_collects (Sync.take limit (Sync.repeatWith (total f))) []).
Proof.
  intros T f limit.
  assert (H : sync_collects (Sync.take limit (Sync.repeatWith (total f)))
                (List.map f (range 0 (Z.to_nat limit)))).
  { eapply sync_collects_drains.
    apply (take_drains_long limit (Sync.repeatWith (total f)) _
             (f (0 + Z.of_nat (Z.to_nat limit))%Z)).
    - eexists. split.
      + apply repeatWith_emits_while. intros; reflexivity.
      + reflexivity.
    - unfold range. rewrite !length_map, length_seq. lia. }
  split; [exact H |]. split.
  - unfold range. rewrite !length_map, length_seq. reflexivity.
  - intros Hle. replace (Z.to_nat limit) with O in H by lia. exact H.
Qed.

Lemma X7_repeatWith_take_hands_out_the_first_values_witness :
  sync_collects (Sync.take (-3) (Sync.repeatWith (total (fun i => (i * i)%Z)))) [].
Proof.
  apply (proj2 (proj2 (X7_repeatWith_take_hands_out_the_first_values Z
                         (fun i => (i * i)%Z) (-3)%Z))).
  lia.
Defined.

(** ** A parent that throws *)

Section Upstream.
Context {T : Type} (iter : Sync.Iter T).

Lemma map_upstream {Output : Type} (f : T -> Output) s l e s' :
  fails iter s l e s' ->
  fails (Sync.map (total f) iter) (Suspended s) (List.map f l) e (Completed s').
Proof.
  intros (s1 & He & Hs). exists (Suspended s1). split.
  - apply map_emits; [exact He | apply Forall_total].
  - cbn. rewrite Hs. reflexivity.
Qed.

Lemma filter_upstream (p : T -> bool) s l e s' :
  fails iter s l e s' ->
  fails (Sync.filter (total p) iter) (Suspended s) (List.filter p l) e (Completed s').
Proof.
  intros (s1 & He & Hs). exists (Suspended s1). split.
  - apply filter_emits; [exact He | apply Forall_total].
  - cbn. rewrite Hs. reflexivity.
Qed.

Lemma filterMap_upstream {Output : Type} (f : T -> option Output) s l e s' :
  fails iter s l e s' ->
  fails (Sync.filterMap (total f) iter) (Suspended s) (defined f l) e (Completed s').
Proof.
  intros (s1 & He & Hs). exists (Suspended s1). split.
  - apply filterMap_emits; [exact He | apply Forall_total].
  - cbn. rewrite Hs. reflexivity.
Qed.

Lemma enumerate_upstream l e s' :
  fails iter (start iter) l e s' ->
  fails (Sync.enumerate iter) (start (Sync.enumerate iter)) (indexed 0 l) e
    (Completed (Sync.MkEnumerate iter (Z.of_nat (length l)) s')).
Proof.
  intros (s1 & He & Hs).
  exists (Suspended (Sync.MkEnumerate iter (0 + Z.of_nat (length l))%Z s1)). split.
  - apply enumerate_emits. exact He.
  - cbn. rewrite Hs. reflexivity.
Qed.

Lemma skip_upstream items l e s' :
  fails iter (start iter) l e s' ->
  fails (Sync.skip items iter) (start (Sync.skip items iter))
    (skipn (Z.to_nat items) l) e
    (Completed (Sync.MkSkip iter (Z.of_nat (length l)) s')).
Proof.
  intros (s1 & He & Hs).
  exists (Suspended (Sync.MkSkip iter (0 + Z.of_nat (length l))%Z s1)). split.
  - pose proof (skip_emits items iter _ _ _ He 0%Z) as H.
    rewrite Z.sub_0_r in H. exact H.
  - cbn. rewrite Hs. reflexivity.
Qed.

Lemma take_upstream limit l e s' :
  fails iter (start iter) l e s' -> (length l <= Z.to_nat limit)%nat ->
  fails (Sync.take limit iter) (start (Sync.take limit iter)) l e
    (Completed (Sync.MkTake iter (Z.of_nat (length l)) s')).
Proof.
  intros (s1 & He & Hs) Hl.
  exists (Suspended (Sync.MkTake iter (0 + Z.of_nat (length l))%Z s1)). split.
  - apply take_emits; [exact He |].
    destruct l; [left; reflexivity | right; simpl length in *; lia].
  - cbn. rewrite Hs. reflexivity.
Qed.
End Upstream.

(** X8: a parent whose call of [next()] throws [e] after it has handed out
    the elements [l] makes [collect()] throw [e] through [map], [filter],
    [filterMap], [enumerate] and [skip]: none of them catches it, and the
    elements that came before are not returned. *)
Theorem X8_parent_failure_passes_through :
  forall (T Output : Type) (it : Sync.Iter T) l e s',
  fails it (start it) l e s' ->
  (forall f : T -> Output,
     exists fuel, Sync.collect (Sync.map (total f) it) fuel = Thrown e (Completed s'))
  /\ (forall p : T -> bool,
        exists fuel, Sync.collect (Sync.filter (total p) it) fuel
                     = Thrown e (Completed s'))
  /\ (forall f : T -> option Output,
        exists fuel, Sync.collect (Sync.filterMap (total f) it) fuel
                     = Thrown e (Completed s'))
  /\ (exists fuel, Sync.collect (Sync.enumerate it) fuel
                   = Thrown e (Completed (Sync.MkEnumerate it (Z.of_nat (length l)) s')))
  /\ (forall items,
        exists fuel, Sync.collect (Sync.skip items it) fuel
                     = Thrown e (Completed (Sync.MkSkip it (Z.of_nat (length l)) s')))
  /\ (exists fuel, Sync.collect it fuel = Thrown e s')
  /\ (exists fuel, Sync.count it fuel = Thrown e s').
Proof.
  intros T Output it l e s' H.
  repeat match goal with |- _ /\ _ => split end.
  - intros f. eapply collect_fails. apply map_upstream. exact H.
  - intros p. eapply collect_fails. apply filter_upstream. exact H.
  - intros f. eapply collect_fails. apply filterMap_upstream. exact H.
  - eapply collect_fails. apply enumerate_upstream. exact H.
  - intros items. eapply collect_fails. apply skip_upstream. exact H.
  - eapply collect_fails. exact H.
  - destruct H as (s1 & He & Hs).
    destruct (count_loop_emits it _ _ _ He 0%Z) as [n Hn].
    exists (n + 1)%nat. unfold Sync.count. rewrite Hn. simpl. rewrite Hs. reflexivity.
Qed.

Lemma X8_parent_failure_passes_through_witness :
  let boom : exn := "boom"%string in
  let src := Sync.repeatWith (fun i => if (i =? 2)%Z then Raise boom else Ok i) in
  (forall f : Z -> Z,
     exists fuel, Sync.collect (Sync.map (total f) src) fuel
                  = Thrown boom (Completed (Completed 3%Z)))
  /\ (exists fuel, Sync.collect src fuel = Thrown boom (Completed 3%Z)).
Proof.
  intros boom src.
  assert (H : fails src (start src) [0; 1]%Z boom (Completed 3%Z)).
  { eexists. split; [run_source | reflexivity]. }
  pose proof (X8_parent_failure_passes_through Z Z src [0; 1]%Z boom (Completed 3%Z) H)
    as (Hmap & _ & _ & _ & _ & Hcollect & _).
  split; assumption.
Defined.

(** X9: [take(limit)] calls the parent once more than it hands out elements,
    so a parent that throws on the call after [limit] elements makes
    [take(limit).collect()] throw, although no further element was wanted;
    a failure that lies further on is never met.  With [repeatWith(func)]
    this means that [func(limit)] is evaluated: if it throws, so does
    [repeatWith(func).take(limit).collect()]. *)
Theorem X9_take_meets_a_failure_right_after_the_limit :
  forall (T : Type) (limit : Z),
  (forall (it : Sync.Iter T) l e s',
     fails it (start it) l e s' ->
     ((length l <= Z.to_nat limit)%nat ->
      exists fuel, Sync.collect (Sync.take limit it) fuel
                   = Thrown e (Completed (Sync.MkTake it (Z.of_nat (length l)) s')))
     /\ ((Z.to_nat limit < length l)%nat ->
         sync_collects (Sync.take limit it) (firstn (Z.to_nat limit) l)))
  /\ (forall (func : Z -> Exc T) (f : Z -> T) e,
        (0 <= limit)%Z ->
        (forall i, (0 <= i < limit)%Z -> func i = Ok (f i)) ->
        func limit = Raise e ->
        exists fuel g, Sync.collect (Sync.take limit (Sync.repeatWith func)) fuel
                       = Thrown e g).
Proof.
  intros T limit. split.
  - intros it l e s' H. split.
    + intros Hl. eapply collect_fails. apply take_upstream; eassumption.
    + intros Hl. destruct H as (s1 & He & _).
      destruct (emits_prefix it l _ _ _ He Hl) as (v & s2 & _ & Hr).
      eapply sync_collects_drains.
      eapply take_drains_long; [exact Hr |]. rewrite length_firstn. lia.
  - intros func f e Hpos Hok Hbad.
    assert (H : fails (Sync.repeatWith func) (start (Sync.repeatWith func))
                  (List.map f (range 0 (Z.to_nat limit))) e
                  (Completed (0 + Z.of_nat (Z.to_nat limit) + 1)%Z)).
    { eexists. split.
      - apply repeatWith_emits_while. intros i Hi. apply Hok. lia.
      - replace (0 + Z.of_nat (Z.to_nat limit))%Z with limit by lia.
        cbn. rewrite Hbad. reflexivity. }
    assert (Hlen : (length (List.map f (range 0 (Z.to_nat limit))) <= Z.to_nat limit)%nat).
    { unfold range. rewrite !length_map, length_seq. lia. }
    destruct (collect_fails _ _ _ _
                (take_upstream (Sync.repeatWith func) limit _ _ _ H Hlen)) as [fuel Hf].
    eauto.
Qed.

Lemma X9_take_meets_a_failure_right_after_the_limit_witness :
  let boom : exn := "boom"%string in
  let func := fun i : Z => if (i =? 2)%Z then Raise boom else Ok i in
  (exists fuel, Sync.collect (Sync.take 2 (Sync.repeatWith func)) fuel
                = Thrown boom (Completed (Sync.MkTake (Sync.repeatWith func) 2
                                            (Completed 3%Z))))
  /\ sync_collects (Sync.take 1 (Sync.repeatWith func)) (firstn (Z.to_nat 1) [0; 1]%Z)
  /\ (exists fuel g, Sync.collect (Sync.take 2 (Sync.repeatWith func)) fuel
                     = Thrown boom g).
Proof.
  intros boom func.
  assert (H : fails (Sync.repeatWith func) (start (Sync.repeatWith func))
                [0; 1]%Z boom (Completed 3%Z)).
  { eexists. split; [run_source | reflexivity]. }
  split; [| split].
  - apply (proj1 (proj1 (X9_take_meets_a_failure_right_after_the_limit Z 2)
                    (Sync.repeatWith func) [0; 1]%Z boom (Completed 3%Z) H)).
    simpl. lia.
  - apply (proj2 (proj1 (X9_take_meets_a_failure_right_after_the_limit Z 1)
                    (Sync.repeatWith func) [0; 1]%Z boom (Completed 3%Z) H)).
    simpl. lia.
  - apply (proj2 (X9_take_meets_a_failure_right_after_the_limit Z 2)
             func (fun i => i) boom).
    + lia.
    + intros i Hi. unfold func. destruct (Z.eqb_spec i 2); [lia | reflexivity].
    + reflexivity.
Defined.

(** ** [take], [skip] and [chain] together *)

(** X10: [take] after [take] keeps as many elements as the smaller limit,
    [skip] after [skip] drops as many as the two counts together, and
    [skip(a).take(b)] is the slice of [b] elements that starts at index [a]. *)
Theorem X10_take_and_skip_compose :
  forall (T : Type) (a b : Z),
  (forall (it : Sync.Iter T) l,
     sequence_of it l ->
     sync_collects (Sync.take b (Sync.take a it))
       (firstn (Nat.min (Z.to_nat b) (Z.to_nat a)) l)
     /\ sync_collects (Sync.skip b (Sync.skip a it))
          (skipn (Z.to_nat a + Z.to_nat b) l)
     /\ sync_collects (Sync.take b (Sync.skip a it))
          (firstn (Z.to_nat b) (skipn (Z.to_nat a) l)))
  /\ (forall (ait : Async.AsyncIter T) l,
        sequence_of ait l ->
        async_collects (Async.take b (Async.take a ait))
          (firstn (Nat.min (Z.to_nat b) (Z.to_nat a)) l)
        /\ async_collects (Async.skip b (Async.skip a ait))
             (skipn (Z.to_nat a + Z.to_nat b) l)
        /\ async_collects (Async.take b (Async.skip a ait))
             (firstn (Z.to_nat b) (skipn (Z.to_nat a) l))).
Proof.
  intros T a b. split.
  - intros it l [s' H]. split; [| split].
    + destruct (take_drains a it l s' H) as (g & H1).
      destruct (take_drains b (Sync.take a it) _ g H1) as (g2 & H2).
      rewrite firstn_firstn in H2. eapply sync_collects_drains. exact H2.
    + pose proof (skip_drains a it l s' H) as H1.
      pose proof (skip_drains b (Sync.skip a it) _ _ H1) as H2.
      rewrite skipn_skipn, Nat.add_comm in H2. eapply sync_collects_drains. exact H2.
    + pose proof (skip_drains a it l s' H) as H1.
      destruct (take_drains b (Sync.skip a it) _ _ H1) as (g2 & H2).
      eapply sync_collects_drains. exact H2.
  - intros ait l [s' H]. split; [| split].
    + destruct (async_take_drains a ait l s' H) as (g & H1).
      destruct (async_take_drains b (Async.take a ait) _ g H1) as (g2 & H2).
      rewrite firstn_firstn in H2. eapply async_collects_drains. exact H2.
    + pose proof (async_skip_drains a ait l s' H) as H1.
      pose proof (async_skip_drains b (Async.skip a ait) _ _ H1) as H2.
      rewrite skipn_skipn, Nat.add_comm in H2. eapply async_collects_drains. exact H2.
    + pose proof (async_skip_drains a ait l s' H) as H1.
      destruct (async_take_drains b (Async.skip a ait) _ _ H1) as (g2 & H2).
      eapply async_collects_drains. exact H2.
Qed.

Lemma X10_take_and_skip_compose_witness :
  sync_collects (Sync.take 2 (Sync.take 3 (Sync.new (values [1; 2; 3; 4; 5]%Z))))
    (firstn (Nat.min (Z.to_nat 2) (Z.to_nat 3)) [1; 2; 3; 4; 5]%Z)
  /\ sync_collects (Sync.skip 2 (Sync.skip 3 (Sync.new (values [1; 2; 3; 4; 5]%Z))))
       (skipn (Z.to_nat 3 + Z.to_nat 2) [1; 2; 3; 4; 5]%Z)
  /\ sync_collects (Sync.take 2 (Sync.skip 3 (Sync.new (values [1; 2; 3; 4; 5]%Z))))
       (firstn (Z.to_nat 2) (skipn (Z.to_nat 3) [1; 2; 3; 4; 5]%Z)).
Proof.
  apply (proj1 (X10_take_and_skip_compose Z 3 2)
           (Sync.new (values [1; 2; 3; 4; 5]%Z)) [1; 2; 3; 4; 5]%Z).
  eexists. source_drains.
Defined.

(** X11: the limits are not checked.  [take] with a zero or negative limit
    hands out nothing, and with a limit of at least the length everything;
    [skip] with a zero or negative count hands out everything, and with a
    count of at least the length nothing, without an error. *)
Theorem X11_take_and_skip_at_the_bounds :
  forall (T : Type) (n : Z),
  (forall (it : Sync.Iter T) l,
     sequence_of it l ->
     ((n <= 0)%Z -> sync_collects (Sync.take n it) []
                    /\ sync_collects (Sync.skip n it) l)
     /\ ((Z.of_nat (length l) <= n)%Z ->
         sync_collects (Sync.take n it) l /\ sync_collects (Sync.skip n it) []))
  /\ (forall (ait : Async.AsyncIter T) l,
        sequence_of ait l ->
        ((n <= 0)%Z -> async_collects (Async.take n ait) []
                       /\ async_collects (Async.skip n ait) l)
        /\ ((Z.of_nat (length l) <= n)%Z ->
            async_collects (Async.take n ait) l /\ async_collects (Async.skip n ait) [])).
Proof.
  intros T n. split.
  - intros it l [s' H].
    destruct (take_drains n it l s' H) as (g & Ht).
    pose proof (skip_drains n it l s' H) as Hk.
    split; intros Hn.
    + replace (Z.to_nat n) with O in Ht, Hk by lia. simpl in Ht, Hk.
      split; eapply sync_collects_drains; eassumption.
    + rewrite firstn_all2 in Ht by lia. rewrite skipn_all2 in Hk by lia.
      split; eapply sync_collects_drains; eassumption.
  - intros ait l [s' H].
    destruct (async_take_drains n ait l s' H) as (g & Ht).
    pose proof (async_skip_drains n ait l s' H) as Hk.
    split; intros Hn.
    + replace (Z.to_nat n) with O in Ht, Hk by lia. simpl in Ht, Hk.
      split; eapply async_collects_drains; eassumption.
    + rewrite firstn_all2 in Ht by lia. rewrite skipn_all2 in Hk by lia.
      split; eapply async_collects_drains; eassumption.
Qed.

Lemma X11_take_and_skip_at_the_bounds_witness :
  (sync_collects (Sync.take (-1) (Sync.new (values [1; 2; 3]%Z))) []
   /\ sync_collects (Sync.skip (-1) (Sync.new (values [1; 2; 3]%Z))) [1; 2; 3]%Z)
  /\ (sync_collects (Sync.take 7 (Sync.new (values [1; 2; 3]%Z))) [1; 2; 3]%Z
      /\ sync_collects (Sync.skip 7 (Sync.new (values [1; 2; 3]%Z))) []).
Proof.
  assert (H : sequence_of (Sync.new (values [1; 2; 3]%Z)) [1; 2; 3]%Z)
    by (eexists; source_drains).
  split.
  - apply (proj1 (proj1 (X11_take_and_skip_at_the_bounds Z (-1))
                    (Sync.new (values [1; 2; 3]%Z)) [1; 2; 3]%Z H)). lia.
  - apply (proj2 (proj1 (X11_take_and_skip_at_the_bounds Z 7)
                    (Sync.new (values [1; 2; 3]%Z)) [1; 2; 3]%Z H)). simpl. lia.
Defined.

(** X12: [chain()] with no argument hands out the receiver's elements
    unchanged, and chaining in two calls gives what one call with all the
    arguments gives. *)
Theorem X12_chain_without_arguments_and_regrouped :
  forall (T : Type),
  (forall (it : Sync.Iter T) (first second : list (Sync.Iter T)) l ls1 ls2,
     sequence_of it l ->
     Forall2 (fun m l => sequence_of m l) first ls1 ->
     Forall2 (fun m l => sequence_of m l) second ls2 ->
     sync_collects (Sync.chain it []) l
     /\ sync_collects (Sync.chain (Sync.chain it first) second)
          (l ++ concat ls1 ++ concat ls2)
     /\ sync_collects (Sync.chain it (first ++ second)) (l ++ concat ls1 ++ concat ls2))
  /\ (forall (ait : Async.AsyncIter T) (first second : list (Async.AsyncIter T)) l ls1 ls2,
        sequence_of ait l ->
        Forall2 (fun m l => sequence_of m l) first ls1 ->
        Forall2 (fun m l => sequence_of m l) second ls2 ->
        async_collects (Async.chain ait []) l
        /\ async_collects (Async.chain (Async.chain ait first) second)
             (l ++ concat ls1 ++ concat ls2)
        /\ async_collects (Async.chain ait (first ++ second))
             (l ++ concat ls1 ++ concat ls2)).
Proof.
  intros T. split.
  - intros it first second l ls1 ls2 Hl H1 H2. split; [| split].
    + destruct (chain_drains it [] l [] Hl (Forall2_nil _)) as (g & Hd).
      simpl in Hd. rewrite app_nil_r in Hd. eapply sync_collects_drains. exact Hd.
    + destruct (chain_drains it first l ls1 Hl H1) as (g & Hd).
      destruct (chain_drains (Sync.chain it first) second _ ls2 (ex_intro _ g Hd) H2)
        as (g2 & Hd2).
      rewrite <- app_assoc in Hd2. eapply sync_collects_drains. exact Hd2.
    + destruct (chain_drains it (first ++ second) l (ls1 ++ ls2) Hl
                  (Forall2_app H1 H2)) as (g & Hd).
      rewrite concat_app in Hd. eapply sync_collects_drains. exact Hd.
  - intros ait first second l ls1 ls2 Hl H1 H2. split; [| split].
    + destruct (async_chain_drains ait [] l [] Hl (Forall2_nil _)) as (g & Hd).
      simpl in Hd. rewrite app_nil_r in Hd. eapply async_collects_drains. exact Hd.
    + destruct (async_chain_drains ait first l ls1 Hl H1) as (g & Hd).
      destruct (async_chain_drains (Async.chain ait first) second _ ls2
                  (ex_intro _ g Hd) H2) as (g2 & Hd2).
      rewrite <- app_assoc in Hd2. eapply async_collects_drains. exact Hd2.
    + destruct (async_chain_drains ait (first ++ second) l (ls1 ++ ls2) Hl
                  (Forall2_app H1 H2)) as (g & Hd).
      rewrite concat_app in Hd. eapply async_collects_drains. exact Hd.
Qed.

Lemma X12_chain_without_arguments_and_regrouped_witness :
  let a := Sync.new (values [1; 2]%Z) in
  let b := Sync.new (values [3%Z]) in
  let c := Sync.new (values [4; 5]%Z) in
  sync_collects (Sync.chain a []) [1; 2]%Z
  /\ sync_collects (Sync.chain (Sync.chain a [b]) [c])
       ([1; 2]%Z ++ concat [[3%Z]] ++ concat [[4; 5]%Z])
  /\ sync_collects (Sync.chain a ([b] ++ [c]))
       ([1; 2]%Z ++ concat [[3%Z]] ++ concat [[4; 5]%Z]).
Proof.
  intros a b c.
  apply (proj1 (X12_chain_without_arguments_and_regrouped Z) a [b] [c]
           [1; 2]%Z [[3%Z]] [[4; 5]%Z]).
  - eexists. source_drains.
  - repeat constructor. eexists. source_drains.
  - repeat constructor. eexists. source_drains.
Defined.

(** X13: the arguments of [chain] are not touched while the receiver still
    has elements: when the receiver has more than [limit] elements,
    [chain(...others).take(limit).collect()] returns the receiver's first
    [limit] elements whatever [others] are, even sequences that throw or
    never hand anything out. *)
Theorem X13_chain_leaves_arguments_alone_until_needed :
  forall (T : Type) (it : Sync.Iter T) (others : list (Sync.Iter T)) (limit : Z) l s',
  emits it (start it) l s' -> (Z.to_nat limit < length l)%nat ->
  sync_collects (Sync.take limit (Sync.chain it others)) (firstn (Z.to_nat limit) l).
Proof.
  intros T it others limit l s' He Hl.
  destruct (emits_prefix it l _ _ _ He Hl) as (v & s2 & _ & (s1 & H1 & Hs)).
  assert (Hr : reaches (Sync.chain it others) (start (Sync.chain it others))
                 (firstn (Z.to_nat limit) l) (yielded v) (Suspended (inl s2))).
  { exists (Suspended (inl s1)). split.
    - apply chain_emits. apply sync_operands_head. exact H1.
    - change (@Sync.chain_step T it others (Suspended (inl s1))
              = Emit (yielded v) (Suspended (inl s2))).
      unfold Sync.chain_step. cbn. rewrite Hs. reflexivity. }
  eapply sync_collects_drains.
  eapply take_drains_long; [exact Hr |]. rewrite length_firstn. lia.
Qed.

Lemma X13_chain_leaves_arguments_alone_until_needed_witness :
  sync_collects
    (Sync.take 2 (Sync.chain (Sync.new (values [1; 2; 3]%Z))
                    [Sync.repeatWith (fun _ : Z => Raise "boom"%string)]))
    (firstn (Z.to_nat 2) [1; 2; 3]%Z).
Proof.
  apply (X13_chain_leaves_arguments_alone_until_needed Z (Sync.new (values [1; 2; 3]%Z))
           [Sync.repeatWith (fun _ : Z => Raise "boom"%string)] 2 [1; 2; 3]%Z []).
  - run_source.
  - simpl. lia.
Defined.

(** ** [forEach] *)

Lemma run_calls_record {T : Type} (l : list T) :
  forall log, run_calls record_call l log = Some (rev l ++ log).
Proof.
  induction l as [|x l IH]; intros log; simpl; [reflexivity |].
  rewrite IH, <- app_assoc. reflexivity.
Qed.

(** X14: [forEach] calls its function exactly once per element, in the
    order of the sequence: with a function that records its argument, the
    record after the drain is the elements in order, as many as [count()]
    returns. *)
Theorem X14_forEach_calls_once_per_element_in_order :
  forall (T : Type),
  (forall (it : Sync.Iter T) l,
     sequence_of it l ->
     exists fuel s' log,
       Sync.forEach it record_call [] fuel = (log, Returned tt s')
       /\ rev log = l
       /\ Sync.count it fuel = Returned (Z.of_nat (length log)) s')
  /\ (forall (ait : Async.AsyncIter T) l,
        sequence_of ait l ->
        exists fuel s' log,
          Async.forEach ait record_call [] fuel = (log, Returned tt s')
          /\ rev log = l
          /\ Async.count ait fuel = Returned (Z.of_nat (length log)) s').
Proof.
  intros T.
  assert (Hs : forall (it : Sync.Iter T) l,
    sequence_of it l ->
    exists fuel s' log,
      Sync.forEach it record_call [] fuel = (log, Returned tt s')
      /\ rev log = l
      /\ Sync.count it fuel = Returned (Z.of_nat (length log)) s').
  { intros it l [s' (s1 & He & Hs)].
    destruct (forEach_loop_emits it record_call _ _ _ He [] _ (run_calls_record l []))
      as [n Hn].
    destruct (count_loop_emits it _ _ _ He 0%Z) as [n2 Hn2].
    exists (n + n2 + 1)%nat, s', (rev l ++ []). split; [| split].
    - unfold Sync.forEach.
      replace (n + n2 + 1)%nat with (n + (n2 + 1))%nat by lia.
      rewrite Hn. rewrite Nat.add_comm. simpl. rewrite Hs. reflexivity.
    - rewrite app_nil_r. apply rev_involutive.
    - unfold Sync.count.
      replace (n + n2 + 1)%nat with (n2 + (n + 1))%nat by lia.
      rewrite Hn2. rewrite (Nat.add_comm n 1). simpl. rewrite Hs.
      rewrite app_nil_r, length_rev. reflexivity. }
  split; [exact Hs |].
  intros ait l H. exact (Hs ait l H).
Qed.

Lemma X14_forEach_calls_once_per_element_in_order_witness :
  exists fuel s' log,
    Sync.forEach (Sync.new (sequentialIntegers 1 (Some 3%Z))) record_call [] fuel
    = (log, Returned tt s')
    /\ rev log = [1; 2; 3]%Z
    /\ Sync.count (Sync.new (sequentialIntegers 1 (Some 3%Z))) fuel
       = Returned (Z.of_nat (length log)) s'.
Proof.
  apply (proj1 (X14_forEach_calls_once_per_element_in_order Z)
           (Sync.new (sequentialIntegers 1 (Some 3%Z))) [1; 2; 3]%Z).
  eexists. source_drains.
Defined.

(** ** [zip] when a side throws *)

(** X15: in [Iter.zip] the two calls of a turn are made one after the other:
    when the left call throws, the right side is not called in that turn and
    the zip ends with the exception; when the left call returns and the right
    one throws, both have been called once. *)
Theorem X15_zip_skips_the_right_call_when_the_left_throws :
  forall (T : Type) (inner other : Iterator T) sl cl sr cr e,
  (forall sl',
     inext inner sl = (Raise e, sl') ->
     pull (Sync.zip (Sync.new (spy inner)) (Sync.new (spy other)))
       (Suspended (Sync.ZipLeft (Sync.new (spy inner)) (Sync.new (spy other))
                     (sl, cl) (sr, cr)))
       (Raise e)
       (Completed (Sync.ZipLeft (Sync.new (spy inner)) (Sync.new (spy other))
                     (sl', S cl) (sr, cr))))
  /\ (forall rl sl' sr',
        inext inner sl = (Ok rl, sl') -> inext other sr = (Raise e, sr') ->
        pull (Sync.zip (Sync.new (spy inner)) (Sync.new (spy other)))
          (Suspended (Sync.ZipLeft (Sync.new (spy inner)) (Sync.new (spy other))
                        (sl, cl) (sr, cr)))
          (Raise e)
          (Completed (Sync.ZipLeft (Sync.new (spy inner)) (Sync.new (spy other))
                        (sl', S cl) (sr', S cr)))).
Proof.
  intros T inner other sl cl sr cr e. split.
  - intros sl' Hl. apply pull_throw. cbn. rewrite Hl. reflexivity.
  - intros rl sl' sr' Hl Hr.
    eapply pull_skip; [cbn; rewrite Hl; reflexivity |].
    apply pull_throw. cbn. rewrite Hr. reflexivity.
Qed.

Lemma X15_zip_skips_the_right_call_when_the_left_throws_witness :
  pull (Sync.zip (Sync.new (spy (throwing Z "boom"%string)))
                 (Sync.new (spy (values [7; 8]%Z))))
    (Suspended (Sync.ZipLeft (Sync.new (spy (throwing Z "boom"%string)))
                  (Sync.new (spy (values [7; 8]%Z))) (tt, O) ([7; 8]%Z, O)))
    (Raise "boom"%string)
    (Completed (Sync.ZipLeft (Sync.new (spy (throwing Z "boom"%string)))
                  (Sync.new (spy (values [7; 8]%Z))) (tt, 1%nat) ([7; 8]%Z, O)))
  /\ pull (Sync.zip (Sync.new (spy (values [7; 8]%Z)))
                    (Sync.new (spy (throwing Z "boom"%string))))
       (Suspended (Sync.ZipLeft (Sync.new (spy (values [7; 8]%Z)))
                     (Sync.new (spy (throwing Z "boom"%string))) ([7; 8]%Z, O) (tt, O)))
       (Raise "boom"%string)
       (Completed (Sync.ZipLeft (Sync.new (spy (values [7; 8]%Z)))
                     (Sync.new (spy (throwing Z "boom"%string)))
                     ([8%Z], 1%nat) (tt, 1%nat))).
Proof.
  split.
  - apply (proj1 (X15_zip_skips_the_right_call_when_the_left_throws Z
                    (throwing Z "boom"%string) (values [7; 8]%Z)
                    tt O [7; 8]%Z O "boom"%string) tt).
    reflexivity.
  - apply (proj2 (X15_zip_skips_the_right_call_when_the_left_throws Z
                    (values [7; 8]%Z) (throwing Z "boom"%string)
                    [7; 8]%Z O tt O "boom"%string) (yielded 7%Z) [8%Z] tt);
      reflexivity.
Defined.

Section AsyncZipCalls.
Context {T : Type} (inner other : Async.AsyncIterator T) (cl cr : nat).

Local Abbreviation zipped := (Async.zip (Async.new (Async.spy inner))
                                        (Async.new (Async.spy other))).

Lemma called_side_advance (src : Async.AsyncIterator T) c x :
  called_side src c x -> called_side src c (Async.advance (Async.new (Async.spy src)) x).
Proof.
  destruct x as [[s | p s] | r call | e call]; simpl; intros H; try contradiction;
    try exact H.
  destruct p as [[|n] [r | e]]; cbn; exact H.
Qed.

Lemma azip_called_step
  (f : Async.ZipFrame (Async.new (Async.spy inner)) (Async.new (Async.spy other))) :
  called_side inner cl (Async.zip_left f) -> called_side other cr (Async.zip_right f) ->
  match step zipped (Suspended f) with
  | Skip g =>
      exists f', g = Suspended f'
                 /\ called_side inner cl (Async.zip_left f')
                 /\ called_side other cr (Async.zip_right f')
  | Emit _ g | Throw _ g =>
      snd (Async.call_state (Async.side_state (Async.zip_left (frame_of g)))) = cl
      /\ snd (Async.call_state (Async.side_state (Async.zip_right (frame_of g)))) = cr
  end.
Proof.
  destruct f as [L R]. intros HL HR.
  pose proof (called_side_advance inner cl L HL) as HL'.
  pose proof (called_side_advance other cr R HR) as HR'.
  destruct L as [[sl | pl sl] | rl calll | el calll]; simpl in HL; try contradiction;
    destruct R as [[sr | pr sr] | rr callr | er callr]; simpl in HR; try contradiction;
    try (split; assumption);
    try (eexists; split; [reflexivity | split; assumption]).
  cbn. destruct (nullish_or (done_field rl) true || nullish_or (done_field rr) true);
    [split; assumption |].
  destruct rl, rr; split; assumption.
Qed.

Lemma azip_called_pull g o g' :
  pull zipped g o g' ->
  forall f : Async.ZipFrame (Async.new (Async.spy inner)) (Async.new (Async.spy other)),
  g = Suspended f ->
  called_side inner cl (Async.zip_left f) -> called_side other cr (Async.zip_right f) ->
  snd (Async.call_state (Async.side_state (Async.zip_left (frame_of g')))) = cl
  /\ snd (Async.call_state (Async.side_state (Async.zip_right (frame_of g')))) = cr.
Proof.
  induction 1 as [g g1 o g2 Hs _ IH | g r g1 Hs | g e g1 Hs]; intros f -> HL HR;
    pose proof (azip_called_step f HL HR) as Hstep; rewrite Hs in Hstep.
  - destruct Hstep as (f' & -> & HL' & HR'). exact (IH f' eq_refl HL' HR').
  - exact Hstep.
  - exact Hstep.
Qed.
End AsyncZipCalls.

(** X16: in [AsyncIter.zip] both calls of a turn are made before anything is
    awaited: whatever a call of [next()] on the zip comes to, a pair, the end
    or a rejection, each side has received exactly one call by then, also
    when the left promise is rejected at once. *)
Theorem X16_async_zip_calls_both_sides_before_awaiting :
  forall (T : Type) (inner other : Async.AsyncIterator T) sl cl sr cr o g',
  pull (Async.zip (Async.new (Async.spy inner)) (Async.new (Async.spy other)))
    (Suspended (Async.MkZip (Async.new (Async.spy inner)) (Async.new (Async.spy other))
                  (Async.Pending (Async.Idle (Async.spy inner) (sl, cl)))
                  (Async.Pending (Async.Idle (Async.spy other) (sr, cr)))))
    o g' ->
  calls (Async.call_state (Async.side_state (Async.zip_left (frame_of g')))) = S cl
  /\ calls (Async.call_state (Async.side_state (Async.zip_right (frame_of g')))) = S cr.
Proof.
  intros T inner other sl cl sr cr o g' H.
  inversion H as [? g1 ? ? Hs H1 | ? ? ? Hs | ? ? ? Hs]; subst; cbn in Hs;
    destruct (Async.anext inner sl) as [pl sl'];
    destruct (Async.anext other sr) as [pr sr']; cbn in Hs; try discriminate.
  injection Hs as <-.
  eapply (azip_called_pull inner other (S cl) (S cr)); [exact H1 | reflexivity | |];
    reflexivity.
Qed.

Lemma X16_async_zip_calls_both_sides_before_awaiting_witness :
  let left := rejecting Z 0 "boom"%string in
  let right := Async.values 2 [7; 8]%Z in
  calls (Async.call_state (Async.side_state (Async.zip_left (frame_of
     (Completed (Async.MkZip (Async.new (Async.spy left)) (Async.new (Async.spy right))
        (Async.Rejected "boom"%string (Async.Idle (Async.spy left) (tt, 1%nat)))
        (Async.Pending (Async.Awaiting (Async.spy right)
                          (Async.MkPromise 1 (Ok (yielded 7%Z))) ([8%Z], 1%nat))))))))) = 1%nat
  /\ calls (Async.call_state (Async.side_state (Async.zip_right (frame_of
       (Completed (Async.MkZip (Async.new (Async.spy left)) (Async.new (Async.spy right))
          (Async.Rejected "boom"%string (Async.Idle (Async.spy left) (tt, 1%nat)))
          (Async.Pending (Async.Awaiting (Async.spy right)
                            (Async.MkPromise 1 (Ok (yielded 7%Z))) ([8%Z], 1%nat))))))))) = 1%nat.
Proof.
  intros left right.
  apply (X16_async_zip_calls_both_sides_before_awaiting Z left right tt O [7; 8]%Z O
           (Raise "boom"%string)).
  eapply pull_skip; [reflexivity |].
  eapply pull_skip; [reflexivity |].
  apply pull_throw. reflexivity.
Defined.

(** ** Draining twice, and what a drain costs the source *)

Lemma reduce_loop_returned_inv {T X : Type} (this : Sync.Iter T)
  (func : X -> T -> Exc X) fuel :
  forall acc s x g,
  Sync.reduce_loop this func fuel acc s = Returned x g ->
  exists s1, step this s1 = Emit IteratorReturnResult g.
Proof.
  induction fuel as [|fuel IH]; intros acc s x g H; simpl in H; [discriminate |].
  destruct (step this s) as [[hd item|] s1 | s1 | e s1] eqn:Hs; try discriminate.
  - destruct (func acc item); [eapply IH; eassumption | discriminate].
  - injection H as _ <-. exists s. exact Hs.
  - eapply IH; eassumption.
Qed.

Lemma sticky_spent {T : Type} (it : Sync.Iter T) : sticky it -> spent_after_collect it.
Proof.
  intros Hst fuel r g H fuel'.
  destruct (reduce_loop_returned_inv it _ _ _ _ _ _ H) as (s1 & Hs1).
  pose proof (Hst _ _ Hs1) as Hg. simpl. rewrite Hg. split; reflexivity.
Qed.

(** X17: a wrapper returned by a combinator of [Iter] is spent once
    [collect()] has returned: draining it again returns [[]] from
    [collect()] and 0 from [count()], over any receiver.  A wrapper built
    directly on a raw source has no such guarantee: over a source that
    un-exhausts, a second [collect()] returns elements again. *)
Theorem X17_a_drained_combinator_wrapper_is_spent :
  (forall (T : Type) predicate (iter : Sync.Iter T),
     spent_after_collect (Sync.filter predicate iter))
  /\ (forall (T Output : Type) (func : T -> Exc (option Output)) (iter : Sync.Iter T),
        spent_after_collect (Sync.filterMap func iter))
  /\ (forall (T Output : Type) (func : T -> Exc Output) (iter : Sync.Iter T),
        spent_after_collect (Sync.map func iter))
  /\ (forall (T : Type) (iter : Sync.Iter T) others,
        spent_after_collect (Sync.chain iter others))
  /\ (forall (T : Type) (iter right : Sync.Iter T), spent_after_collect (Sync.zip iter right))
  /\ (forall (T : Type) (iter : Sync.Iter T), spent_after_collect (Sync.enumerate iter))
  /\ (forall (T : Type) limit (iter : Sync.Iter T),
        spent_after_collect (Sync.take limit iter))
  /\ (forall (T : Type) items (iter : Sync.Iter T),
        spent_after_collect (Sync.skip items iter))
  /\ (forall (T : Type) (iter : Sync.Iter (list T)), spent_after_collect (Sync.flat iter))
  /\ (forall (T : Type) (x : T),
        Sync.collect (Sync.new (flicker x)) 1 = Returned [] true
        /\ Sync.reduce_loop (Sync.new (flicker x))
             (total2 (fun prev curr => prev ++ [curr])) 2 [] true
           = Returned [x] true
        /\ ~ spent_after_collect (Sync.new (flicker x))).
Proof.
  repeat match goal with |- _ /\ _ => split end;
    try (intros; apply sticky_spent;
         first [ apply filter_sticky | apply filterMap_sticky | apply map_sticky
               | apply chain_sticky | apply zip_sticky | apply enumerate_sticky
               | apply take_sticky | apply skip_sticky | apply flat_sticky ]).
  intros T x. split; [reflexivity | split; [reflexivity |]].
  intros Hspent.
  destruct (Hspent 1%nat [] true eq_refl 1%nat) as [H _]. discriminate.
Qed.

Lemma X17_a_drained_combinator_wrapper_is_spent_witness :
  Sync.reduce_loop (Sync.map (total (fun x => (x + 1)%Z)) (Sync.new (flicker 5%Z)))
    (total2 (fun prev curr => prev ++ [curr])) 1 [] (Completed true)
  = Returned [] (Completed true)
  /\ Sync.count_loop (Sync.map (total (fun x => (x + 1)%Z)) (Sync.new (flicker 5%Z)))
       1 0%Z (Completed true)
     = Returned 0%Z (Completed true).
Proof.
  apply (proj1 (proj2 (proj2 X17_a_drained_combinator_wrapper_is_spent))
           Z Z (total (fun x => (x + 1)%Z)) (Sync.new (flicker 5%Z))
           1%nat [] (Completed true)).
  reflexivity.
Defined.

(** X18: a drain asks the source for every element exactly once and once
    more for the end: after [collect()] over a source of [n] elements,
    directly or through [map], [filter], [filterMap], [enumerate] or [skip],
    the source has received [n + 1] calls of [next()], however many elements
    the wrapper handed out itself. *)
Theorem X18_a_drain_calls_the_source_once_per_element_and_once_more :
  forall (T Output : Type) (inner : Iterator T) l s',
  drains (Sync.new inner) (istate inner) l s' ->
  let it := Sync.new (spy inner) in
  (exists fuel, Sync.collect it fuel = Returned l (s', S (length l)))
  /\ (forall f : T -> Output,
        exists fuel, Sync.collect (Sync.map (total f) it) fuel
                     = Returned (List.map f l) (Completed (s', S (length l))))
  /\ (forall p : T -> bool,
        exists fuel, Sync.collect (Sync.filter (total p) it) fuel
                     = Returned (List.filter p l) (Completed (s', S (length l))))
  /\ (forall f : T -> option Output,
        exists fuel, Sync.collect (Sync.filterMap (total f) it) fuel
                     = Returned (defined f l) (Completed (s', S (length l))))
  /\ (exists fuel, Sync.collect (Sync.enumerate it) fuel
                   = Returned (indexed 0 l)
                       (Completed (Sync.MkEnumerate it (Z.of_nat (length l))
                                     (s', S (length l)))))
  /\ (forall items,
        exists fuel, Sync.collect (Sync.skip items it) fuel
                     = Returned (skipn (Z.to_nat items) l)
                         (Completed (Sync.MkSkip it (Z.of_nat (length l))
                                       (s', S (length l))))).
Proof.
  intros T Output inner l s' H it.
  pose proof (new_spy_reaches inner _ _ _ _ O H) as Hd. simpl in Hd.
  change (drains it (start it) l (s', S (length l))) in Hd.
  repeat match goal with |- _ /\ _ => split end.
  - apply collect_returns. exact Hd.
  - intros f. apply collect_returns. apply map_drains; [exact Hd | apply Forall_total].
  - intros p. apply collect_returns. apply filter_drains; [exact Hd | apply Forall_total].
  - intros f. apply collect_returns.
    apply filterMap_drains; [exact Hd | apply Forall_total].
  - apply collect_returns. apply enumerate_drains. exact Hd.
  - intros items. apply collect_returns. apply skip_drains. exact Hd.
Qed.

Lemma X18_a_drain_calls_the_source_once_per_element_and_once_more_witness :
  exists fuel,
    Sync.collect (Sync.filter (total (fun x => (x <? 2)%Z))
                    (Sync.new (spy (values [1; 2; 3]%Z)))) fuel
    = Returned (List.filter (fun x => (x <? 2)%Z) [1; 2; 3]%Z) (Completed ([], 4%nat)).
Proof.
  apply (proj1 (proj2 (proj2
           (X18_a_drain_calls_the_source_once_per_element_and_once_more Z Z
              (values [1; 2; 3]%Z) [1; 2; 3]%Z [] (values_drains _ _))))
           (fun x => (x <? 2)%Z)).
Defined.

(** ** Results without [done] *)

Lemma collect_bare {T : Type} (items : list T) (l : list T) :
  forall acc,
  Sync.reduce_loop (Sync.new (bare items))
    (total2 (fun prev curr => prev ++ [curr])) (S (length l)) acc l
  = Returned (acc ++ l) [].
Proof.
  induction l as [|x l IH]; intros acc.
  - simpl. rewrite app_nil_r. reflexivity.
  - simpl length. change (Sync.reduce_loop (Sync.new (bare items))
                            (total2 (fun prev curr => prev ++ [curr]))
                            (S (S (length l))) acc (x :: l))
      with (Sync.reduce_loop (Sync.new (bare items))
              (total2 (fun prev curr => prev ++ [curr])) (S (length l)) (acc ++ [x]) l).
    rewrite IH, <- app_assoc. reflexivity.
Qed.

(** X19: [zip] reads [done ?? true], the other operations read [done] as
    [for...of] does.  Over a source whose results carry an element but no
    [done] property, [collect()] returns the elements, while zipping it, on
    either side and with any partner that answers its first call, returns no
    pair at all. *)
Theorem X19_zip_takes_a_result_without_done_for_the_end :
  forall (T : Type) (x : T) (rest : list T) (partner : Sync.Iter T) r s',
  reaches partner (start partner) [] r s' ->
  sync_collects (Sync.new (bare (x :: rest))) (x :: rest)
  /\ sync_collects (Sync.zip (Sync.new (bare (x :: rest))) partner) []
  /\ sync_collects (Sync.zip partner (Sync.new (bare (x :: rest)))) [].
Proof.
  intros T x rest partner r s' (s1 & He & Hs). split; [| split].
  - exists (S (length (x :: rest))), [].
    exact (collect_bare (x :: rest) (x :: rest) []).
  - eapply sync_collects_drains.
    exists (Suspended (Sync.ZipRight (Sync.new (bare (x :: rest))) partner
                         (IteratorYieldResult false x) rest s1)).
    split.
    + eapply zip_turn; [apply emits_nil | reflexivity | exact He].
    + cbn. rewrite Hs. reflexivity.
  - eapply sync_collects_drains.
    exists (Suspended (Sync.ZipRight partner (Sync.new (bare (x :: rest)))
                         r s' (x :: rest))).
    split.
    + eapply zip_turn; [exact He | exact Hs | apply emits_nil].
    + cbn. rewrite orb_true_r. reflexivity.
Qed.

Lemma X19_zip_takes_a_result_without_done_for_the_end_witness :
  sync_collects (Sync.new (bare [1; 2; 3]%Z)) [1; 2; 3]%Z
  /\ sync_collects (Sync.zip (Sync.new (bare [1; 2; 3]%Z)) (Sync.new (values [7; 8]%Z))) []
  /\ sync_collects (Sync.zip (Sync.new (values [7; 8]%Z)) (Sync.new (bare [1; 2; 3]%Z))) [].
Proof.
  apply (X19_zip_takes_a_result_without_done_for_the_end Z 1%Z [2; 3]%Z
           (Sync.new (values [7; 8]%Z)) (yielded 7%Z) [8%Z]).
  eexists. split; [apply emits_nil | reflexivity].
Defined.

(** ** The generator of the test suites *)





(** ** What a [yield] awaits *)

Lemma defined_all {A B : Type} (f : A -> B) (l : list A) :
  defined (fun x => Some (f x)) l = List.map f l.
Proof. induction l as [|x l IH]; simpl; [| rewrite IH]; reflexivity. Qed.

Lemma defined_map {A B : Type} (f : A -> option B) (l : list A) :
  defined (fun o => o) (List.map f l) = defined f l.
Proof.
  induction l as [|x l IH]; simpl; [reflexivity |].
  destruct (f x); rewrite IH; reflexivity.
Qed.

(** X21: [filterMapSync] compares what its function returned with
    [undefined] before the [yield] awaits it, and a promise is not
    [undefined].  With a function that returns the promise of its result,
    every element's settled result is handed out, in order, also where it is
    [undefined]; [filterMap] with the same function awaited, and
    [filterMapSync] with the results returned as they are, hand out the
    defined ones among these. *)
Theorem X21_filterMapSync_hands_out_every_promised_result :
  forall (T Output : Type) (f : T -> option Output) (latency : T -> nat)
         (ait : Async.AsyncIter T) (l : list T),
  sequence_of ait l ->
  async_collects
    (Async.filterMapSync
       (fun x => Ok (Some (Async.Thenable (Async.suspending latency f x)))) ait)
    (List.map f l)
  /\ async_collects (Async.filterMap (Async.suspending latency f) ait)
       (defined (fun o => o) (List.map f l))
  /\ async_collects (Async.filterMapSync (Async.returning_defined f) ait)
       (defined (fun o => o) (List.map f l)).
Proof.
  intros T Output f latency ait l [s' H]. split; [| split].
  - rewrite <- (defined_all f l).
    eapply async_collects_drains, (filterMapSync_drains _ (fun x => Some (f x)));
      [exact H |].
    apply Forall_forall. intros v _. eexists. split; [reflexivity |].
    exists (f v). split; reflexivity.
  - rewrite defined_map.
    eapply async_collects_drains, async_filterMap_drains;
      [exact H | apply Forall_suspending].
  - rewrite defined_map.
    eapply async_collects_drains, (filterMapSync_drains _ f);
      [exact H | apply Forall_returning_defined].
Qed.

Lemma X21_filterMapSync_hands_out_every_promised_result_witness :
  let pick := fun x : Z => if (x <? 2)%Z then None else Some (x + 1)%Z in
  let asrc := Async.new (Async.values 1 [1; 2; 3]%Z) in
  async_collects
    (Async.filterMapSync
       (fun x => Ok (Some (Async.Thenable (Async.suspending (fun _ => 2%nat) pick x))))
       asrc)
    [None; Some 3%Z; Some 4%Z]
  /\ async_collects (Async.filterMap (Async.suspending (fun _ => 2%nat) pick) asrc)
       [3; 4]%Z
  /\ async_collects (Async.filterMapSync (Async.returning_defined pick) asrc) [3; 4]%Z.
Proof.
  intros pick asrc.
  apply (X21_filterMapSync_hands_out_every_promised_result Z Z pick (fun _ => 2%nat)
           asrc [1; 2; 3]%Z).
  eexists. source_drains.
Defined.
